(** * main.py: the [Data] class (structured CSV loading and filtering)

    A shallow embedding of [Data.__init__], [Data.filter_sdata_by_col] and
    [Data.filter_sdata_by_tag] of [main.py], together with the parts of
    Python and NumPy 1.21 those three methods run through:
    text-mode file reading, [np.genfromtxt], multi-field and boolean-mask
    indexing of a structured array, [np.in1d], [np.squeeze] and
    [recfunctions.structured_to_unstructured].

    Conventions of the model
    - text is a list of characters with code points below 256; a file whose
      decoded text holds other characters is outside the model;
    - a fixed-width string field holds its value without the NUL characters
      that pad it: a value is stored cut to the width and without its
      trailing NULs, and strings are compared up to trailing NULs;
    - an [ndarray] is a dtype, a shape and the row-major list of elements;
    - an exception is an explicit [Raise] result;
    - a method takes [self] and returns its outcome together with [self]
      as the call leaves it; module [Heap] has the same methods over a
      store of objects and array buffers, where a write can be told from
      a read. *)

From Stdlib Require Import String Ascii List ZArith Lia Bool Arith.
From Stdlib Require Decimal DecimalString DecimalPos.
Import ListNotations.

Set Implicit Arguments.

Open Scope Z_scope.

(** ** Exceptions and results *)

Inductive exn : Type :=
| OSError        (* no file is found for the name, or it cannot be opened *)
| ValueError
| OverflowError
| IndexError
| KeyError
| TypeError
| AttributeError.

Inductive result (A : Type) : Type :=
| Ok (a : A)
| Raise (e : exn).

Arguments Ok {A} a.
Arguments Raise {A} e.

Definition bind {A B : Type} (r : result A) (k : A -> result B) : result B :=
  match r with
  | Ok a => k a
  | Raise e => Raise e
  end.

Notation "x <- c1 ;; c2" := (bind c1 (fun x => c2))
  (at level 61, c1 at next level, right associativity).

Fixpoint mapM {A B : Type} (f : A -> result B) (l : list A) : result (list B) :=
  match l with
  | [] => Ok []
  | x :: t => y <- f x ;; ys <- mapM f t ;; Ok (y :: ys)
  end.

(** ** Text *)

Definition text : Type := list ascii.

Definition txt (s : string) : text := list_ascii_of_string s.

Definition LF : ascii := "010"%char.
Definition CR : ascii := "013"%char.
Definition SP : ascii := " "%char.
Definition HASH : ascii := "#"%char.
Definition COMMA : ascii := ","%char.
Definition DQUOTE : ascii := "034"%char.
Definition NUL : ascii := "000"%char.

Definition text_eqb (a b : text) : bool :=
  if list_eq_dec ascii_dec a b then true else false.

(** [s.split(c)[0]]: the part of [s] before the first [c]. *)
Fixpoint before (c : ascii) (s : text) : text :=
  match s with
  | [] => []
  | x :: t => if Ascii.eqb x c then [] else x :: before c t
  end.

(** [s.split(c)] for a one-character separator. *)
Fixpoint split (c : ascii) (s : text) : list text :=
  match s with
  | [] => [[]]
  | x :: t =>
      if Ascii.eqb x c then [] :: split c t
      else match split c t with
           | [] => [[x]]
           | w :: ws => (x :: w) :: ws
           end
  end.

Fixpoint lstrip (p : ascii -> bool) (s : text) : text :=
  match s with
  | [] => []
  | x :: t => if p x then lstrip p t else s
  end.

Definition rstrip (p : ascii -> bool) (s : text) : text :=
  rev (lstrip p (rev s)).

(** [s.strip(chars)], the characters given as a predicate. *)
Definition strip (p : ascii -> bool) (s : text) : text :=
  rstrip p (lstrip p s).

(** ** Reading the file

    [np.genfromtxt] opens the path in text mode ['rt'] with the default
    [newline=None]: ["\r\n"] and a lone ["\r"] are read as ["\n"]. *)

Fixpoint universal_newlines (s : text) : text :=
  match s with
  | [] => []
  | x :: t =>
      if Ascii.eqb x CR then
        LF :: match t with
              | [] => []
              | y :: t' =>
                  if Ascii.eqb y LF then universal_newlines t'
                  else universal_newlines t
              end
      else x :: universal_newlines t
  end.

(** Iterating over the file handle: the lines, each with its ["\n"] kept
    (the last one has none when the file does not end in one). *)
Fixpoint readlines (s : text) : list text :=
  match s with
  | [] => []
  | x :: t =>
      if Ascii.eqb x LF then [LF] :: readlines t
      else match readlines t with
           | [] => [[x]]
           | l :: ls => (x :: l) :: ls
           end
  end.

(** The files of the machine as [np.lib._datasource.open(name, 'rt')] reads
    them.  [DataSource] looks the name up and opens the file it finds with
    the opener of its extension ([gzip.open], [bz2.open] or [lzma.open] for
    a compressed file, the built-in [open] for any other), in text mode.
    [fs name] is the text this stream yields, decoded and, for a compressed
    file, decompressed, before the line ends are translated; it is [None]
    when no file is found for the name or the file cannot be opened (the
    [IOError] of [DataSource], an [OSError] of the opener).  A stream that
    fails while it is read (data that is not in the format its extension
    names, bytes that are no text in the encoding) has no place in this
    model: a file named [x.gz] is in it by the text it decompresses to, or
    not at all. *)
Definition filesystem : Type := string -> option text.

(** [np.lib._datasource.open(path, 'rt')] and the reading of the stream. *)
Definition datasource_open (fs : filesystem) (path : string) : result text :=
  match fs path with
  | Some raw => Ok raw
  | None => Raise OSError
  end.

(** ** [int(s)] and [np.int64(s)] on a string *)

(** The white space [int] skips at both ends of a string: tab, line feed,
    vertical tab, form feed, carriage return and space, and of the
    characters from 128 on the two that are Unicode white space, the
    next-line character U+0085 and the no-break space U+00A0.  (The
    separators U+001C to U+001F are white space for [str.strip], not for
    [int].) *)
Definition isspace (c : ascii) : bool :=
  let n := nat_of_ascii c in
  (((9 <=? n) && (n <=? 13)) || (n =? 32) || (n =? 133) || (n =? 160))%nat.

Definition isdigit (c : ascii) : bool :=
  let n := nat_of_ascii c in ((48 <=? n) && (n <=? 57))%nat.

Definition digit_val (c : ascii) : Z := Z.of_nat (nat_of_ascii c - 48).

(** The digits after a first digit; a single ["_"] may sit between two
    digits. *)
Fixpoint digits_from (acc : Z) (s : text) : option Z :=
  match s with
  | [] => Some acc
  | c :: t =>
      if isdigit c then digits_from (10 * acc + digit_val c) t
      else if Ascii.eqb c "_"%char then
        match t with
        | d :: t' =>
            if isdigit d then digits_from (10 * acc + digit_val d) t'
            else None
        | [] => None
        end
      else None
  end.

Definition int_literal (s : text) : option Z :=
  match s with
  | c :: t => if isdigit c then digits_from (digit_val c) t else None
  | [] => None
  end.

(** [int(s)] in base 10; [None] stands for its [ValueError]. *)
Definition py_int (s : text) : option Z :=
  match strip isspace s with
  | c :: t =>
      if Ascii.eqb c "-"%char then option_map Z.opp (int_literal t)
      else if Ascii.eqb c "+"%char then int_literal t
      else int_literal (c :: t)
  | [] => None
  end.

Definition int64_min : Z := - 2 ^ 63.
Definition int64_max : Z := 2 ^ 63 - 1.

Definition in_int64 (z : Z) : bool := (int64_min <=? z) && (z <=? int64_max).

(** [np.int64(s)]: [int(s)], then the conversion to a C long. *)
Definition np_int64 (s : text) : result Z :=
  match py_int s with
  | None => Raise ValueError
  | Some z => if in_int64 z then Ok z else Raise OverflowError
  end.

(** ** Arrays *)

Inductive base : Type :=
| i8                 (* 'i8' *)
| U (n : nat)        (* '<Un' *)
| bool_.

Inductive dtype : Type :=
| Plain (b : base)
| Struct (fields : list (string * base)).

Inductive scalar : Type :=
| Int64 (z : Z)
| Str (s : text)
| Bool (b : bool).

(** An element of an array: a scalar, or the tuple of a structured dtype. *)
Inductive elem : Type :=
| V (v : scalar)
| T (vs : list scalar).

Record ndarray : Type := mk_ndarray {
  dt : dtype;
  shape : list nat;
  data : list elem
}.

(** [np.squeeze]: the axes of length one are removed. *)
Definition squeeze (a : ndarray) : ndarray :=
  mk_ndarray (dt a) (filter (fun n => negb (n =? 1)%nat) (shape a)) (data a).

(** A string without its trailing NUL characters. *)
Definition rstrip_nul (s : text) : text := rstrip (Ascii.eqb NUL) s.

(** Storing a Python value in a field of the given type.  A ['<Un'] field
    keeps the first [n] characters and pads them with NULs to its width;
    what is read back is the field without its trailing NULs, so a value
    loses the NUL characters it ends in. *)
Definition store (b : base) (v : scalar) : scalar :=
  match b, v with
  | U n, Str s => Str (rstrip_nul (firstn n s))
  | _, _ => v
  end.

Fixpoint store_fields (fs : list (string * base)) (vs : list scalar)
  : result (list scalar) :=
  match fs, vs with
  | [], [] => Ok []
  | (_, b) :: fs', v :: vs' =>
      r <- store_fields fs' vs' ;; Ok (store b v :: r)
  | _, _ => Raise ValueError  (* could not assign tuple of length .. *)
  end.

(** [np.array(rows, dtype=fields)] for a list of tuples. *)
Definition np_array (rows : list (list scalar)) (fs : list (string * base))
  : result ndarray :=
  els <- mapM (fun r => vs <- store_fields fs r ;; Ok (T vs)) rows ;;
  Ok (mk_ndarray (Struct fs) [length rows] els).

(** ** [np.genfromtxt]

    The call of [Data.__init__] leaves [comments='#'], [autostrip=False],
    [invalid_raise=True] and [loose=True] at their defaults. *)

(** The characters of [line.strip(" \r\n")]. *)
Definition strip_chars (c : ascii) : bool :=
  Ascii.eqb c SP || Ascii.eqb c CR || Ascii.eqb c LF.

(** [LineSplitter._delimited_splitter]: chop off the comment, strip, and
    split at the delimiter; a line left empty has no values. *)
Definition split_line (delimiter comments : ascii) (line : text) : list text :=
  let line := before comments line in
  let line := strip strip_chars line in
  match line with
  | [] => []
  | _ :: _ => split delimiter line
  end.

Definition upper (c : ascii) : ascii :=
  let n := nat_of_ascii c in
  if ((97 <=? n) && (n <=? 122))%nat then ascii_of_nat (n - 32) else c.

(** [StringConverter._loose_call] of the converter of a field type: the
    conversion function of the type, its [ValueError] answered with the
    default of the type ([-1] for an integer, [False] for a boolean). *)
Definition loose_call (b : base) (value : text) : result scalar :=
  match b with
  | i8 =>
      match np_int64 value with
      | Ok z => Ok (Int64 z)
      | Raise ValueError => Ok (Int64 (-1))
      | Raise e => Raise e
      end
  | U _ => Ok (Str value)
  | bool_ => Ok (Bool (text_eqb (map upper value) (txt "TRUE")))
  end.

(** The rows [genfromtxt] collects: the values of every line after the
    skipped ones, the lines without values left out. *)
Definition collect_rows (delimiter : ascii) (skip_header : nat) (raw : text)
  : list (list text) :=
  let fhd := skipn skip_header (readlines (universal_newlines raw)) in
  filter (fun values => negb (length values =? 0)%nat)
         (map (split_line delimiter HASH) fhd).

(** One row through the converters: [zip] stops at the shorter of the
    converters and the values. *)
Definition convert_row (converters : list base) (values : list text)
  : result (list scalar) :=
  mapM (fun cv => loose_call (fst cv) (snd cv)) (combine converters values).

(** [np.genfromtxt(fname, dtype=dtype, delimiter=delimiter,
    skip_header=skip_header)] for a [dtype] of several fields.  The number
    of columns is that of the first line with values; a line with another
    number of values is invalid and makes the call raise; there is one
    converter per field, as far as there are columns.  (The source converts
    column by column; a conversion raises nothing but [OverflowError], so
    the order is not observable.) *)
Definition genfromtxt (fs : filesystem) (fname : string)
  (dtype : list (string * base)) (delimiter : ascii) (skip_header : nat)
  : result ndarray :=
  raw <- datasource_open fs fname ;;
  let rows := collect_rows delimiter skip_header raw in
  let nbcols := length (hd [] rows) in
  if forallb (fun values => (length values =? nbcols)%nat) rows then
    let converters := firstn nbcols (map snd dtype) in
    rows' <- mapM (convert_row converters) rows ;;
    output <- np_array rows' dtype ;;
    Ok (squeeze output)
  else Raise ValueError.

(** ** Indexing a structured array *)

Fixpoint lookup_field (name : string) (fs : list (string * base))
  : option (nat * base) :=
  match fs with
  | [] => None
  | (n, b) :: fs' =>
      if String.eqb name n then Some (O, b)
      else match lookup_field name fs' with
           | Some (i, b') => Some (Datatypes.S i, b')
           | None => None
           end
  end.

(** The descriptor of [a[names]]: each name is looked up in turn, an
    unknown one is a [KeyError], a repeated one a [ValueError]. *)
Fixpoint field_subset (fs : list (string * base)) (names seen : list string)
  : result (list (nat * (string * base))) :=
  match names with
  | [] => Ok []
  | n :: rest =>
      match lookup_field n fs with
      | None => Raise KeyError
      | Some (i, b) =>
          if existsb (String.eqb n) seen then Raise ValueError
          else r <- field_subset fs rest (n :: seen) ;; Ok ((i, (n, b)) :: r)
      end
  end.

Definition take_fields (idx : list nat) (e : elem) : elem :=
  match e with
  | T vs => T (map (fun i => nth i vs (Int64 0)) idx)
  | V v => V v
  end.

(** [a[names]] for a list of strings: the fields named, in the order of
    [names], for every element; an empty list is an empty integer index. *)
Definition getitem_fields (a : ndarray) (names : list string) : result ndarray :=
  match names with
  | [] =>
      match shape a with
      | [] => Raise IndexError
      | _ :: rest => Ok (mk_ndarray (dt a) (O :: rest) [])
      end
  | _ :: _ =>
      match dt a with
      | Struct fs =>
          sel <- field_subset fs names [] ;;
          Ok (mk_ndarray (Struct (map snd sel)) (shape a)
                         (map (take_fields (map fst sel)) (data a)))
      | Plain _ => Raise IndexError
      end
  end.

(** [a[name]] for one string: the column of that field. *)
Definition getitem_field (a : ndarray) (name : string) : result ndarray :=
  match dt a with
  | Struct fs =>
      match lookup_field name fs with
      | None => Raise ValueError
      | Some (i, b) =>
          Ok (mk_ndarray (Plain b) (shape a)
                (map (fun e => match e with
                               | T vs => V (nth i vs (Int64 0))
                               | V v => V v
                               end) (data a)))
      end
  | Plain _ => Raise IndexError
  end.

(** Equality of fixed-width strings: the shorter one is padded with NULs,
    so two strings are equal when they are the same up to trailing NULs. *)
Definition str_eqb (s a : text) : bool :=
  text_eqb (rstrip_nul s) (rstrip_nul a).

(** [e == a] for an element of a string column and a Python string. *)
Definition elem_is (e : elem) (a : text) : bool :=
  match e with
  | V (Str s) => str_eqb s a
  | _ => false
  end.

(** [np.in1d(ar1, ar2)] for a list [ar2] of strings: [ar1] is ravelled, and
    the mask tells of each of its elements whether it equals some member of
    [ar2]. *)
Definition in1d (ar1 : ndarray) (ar2 : list text) : ndarray :=
  mk_ndarray (Plain bool_) [length (data ar1)]
             (map (fun e => V (Bool (existsb (elem_is e) ar2))) (data ar1)).

Definition truth (e : elem) : bool :=
  match e with
  | V (Bool b) => b
  | _ => false
  end.

(** [a[mask]] for a one-dimensional boolean [mask] (the only kind [in1d]
    makes): [a] needs a first axis of the length of the mask; the result
    keeps the entries of that axis the mask selects. *)
Definition getitem_mask (a mask : ndarray) : result ndarray :=
  match shape mask with
  | [m] =>
      match shape a with
      | [] => Raise IndexError   (* too many indices for a 0-d array *)
      | n :: rest =>
          if (n =? m)%nat then
            let k := fold_right Nat.mul 1%nat rest in
            let keep := flat_map (fun e => repeat (truth e) k) (data mask) in
            Ok (mk_ndarray (dt a)
                  (length (filter truth (data mask)) :: rest)
                  (map snd (filter fst (combine keep (data a)))))
          else Raise IndexError
      end
  | _ => Raise IndexError
  end.

Definition is_i8 (b : base) : bool :=
  match b with
  | i8 => true
  | _ => false
  end.

(** [recfunctions.structured_to_unstructured(arr)]: the fields of every
    element become a new last axis.  Only fields of the one type ['i8'], as
    the program has them, are modelled; other field types are answered with
    an error here. *)
Definition structured_to_unstructured (arr : ndarray) : result ndarray :=
  match dt arr with
  | Struct fs =>
      if (length fs =? 0)%nat then Raise ValueError
      else if forallb is_i8 (map snd fs) then
        Ok (mk_ndarray (Plain i8) (shape arr ++ [length fs])
              (flat_map (fun e => match e with
                                  | T vs => map V vs
                                  | V v => [V v]
                                  end) (data arr)))
      else Raise ValueError
  | Plain _ => Raise ValueError
  end.

(** ** The program *)

Inductive Fields : Type := ABS | REL | DEL | TAG.

Definition Fields_value (f : Fields) : string :=
  match f with
  | ABS => "abs"
  | REL => "rel"
  | DEL => "del"
  | TAG => "tag"
  end.

Inductive Tags : Type := PFOO | NFOO | PBAR | NBAR.

Definition quoted (s : string) : text := DQUOTE :: txt s ++ [DQUOTE].

Definition Tags_value (t : Tags) : text :=
  match t with
  | PFOO => quoted "++foo"
  | NFOO => quoted "--foo"
  | PBAR => quoted "++bar"
  | NBAR => quoted "--bar"
  end.

Record Data : Type := mk_Data {
  filename : string;
  sdata : ndarray;
  udata : ndarray
}.

(** The datatype of each field. *)
Definition datatypes : list (string * base) :=
  [ (Fields_value ABS, i8);
    (Fields_value REL, i8);
    (Fields_value DEL, i8);
    (Fields_value TAG, U 25) ].

(** [Data.__init__]. *)
Definition Data_init (fs : filesystem) (filename : string) : result Data :=
  sdata <- genfromtxt fs filename datatypes COMMA 1 ;;
  cols <- getitem_fields sdata
            [Fields_value ABS; Fields_value REL; Fields_value DEL] ;;
  udata <- structured_to_unstructured cols ;;
  Ok (mk_Data filename sdata udata).

(** A method: its outcome, and [self] after the call. *)
Definition method (A : Type) : Type := Data -> result A * Data.

Definition outcome {A : Type} (m : method A) (self : Data) : result A :=
  fst (m self).

Definition self_after {A : Type} (m : method A) (self : Data) : Data :=
  snd (m self).

(** [Data.filter_sdata_by_col]. *)
Definition filter_sdata_by_col (names : list string) : method ndarray :=
  fun self => (getitem_fields (sdata self) names, self).

(** [Data.filter_sdata_by_tag]. *)
Definition filter_sdata_by_tag (values : list text) : method ndarray :=
  fun self =>
    (tags <- getitem_field (sdata self) (Fields_value TAG) ;;
     getitem_mask (sdata self) (in1d tags values),
     self).

(** ** Reading the arrays *)

(** [len(a)]; a 0-d array has none. *)
Definition len (a : ndarray) : result nat :=
  match shape a with
  | [] => Raise TypeError
  | n :: _ => Ok n
  end.

(** [a[i]] for an index [0 <= i]: the [i]-th entry of the first axis. *)
Definition getitem_int (a : ndarray) (i : nat) : result ndarray :=
  match shape a with
  | [] => Raise IndexError
  | n :: rest =>
      if (i <? n)%nat then
        let k := fold_right Nat.mul 1%nat rest in
        Ok (mk_ndarray (dt a) rest (firstn k (skipn (i * k) (data a))))
      else Raise IndexError
  end.

(** ** Notions of the statements *)

(** A file given by its lines, each ended by a line feed. *)
Definition unlines (ls : list text) : text :=
  flat_map (fun l => l ++ [LF]) ls.

(** The text of a file of the given lines; the last line may come without
    its line feed. *)
Definition file_text (ls : list text) (final_newline : bool) : text :=
  if final_newline then unlines ls else removelast (unlines ls).

(** Two readings of a line: with its line feed, or as it is. *)
Definition same_line (a b : text) : Prop := a = b \/ a = b ++ [LF].

(** A line of a file holds no line end. *)
Definition one_line (l : text) : bool :=
  negb (existsb (Ascii.eqb LF) l) && negb (existsb (Ascii.eqb CR) l).

Definition is_int64 (f : text) : bool :=
  match np_int64 f with
  | Ok _ => true
  | Raise _ => false
  end.

(** A well-formed data line: exactly four comma-separated fields, the first
    three of them 64-bit integers. *)
Definition well_formed (l : text) : bool :=
  one_line l &&
  match split COMMA l with
  | [f1; f2; f3; _] => is_int64 f1 && is_int64 f2 && is_int64 f3
  | _ => false
  end.

(** The integer a numeric field is loaded as. *)
Definition int_or_default (f : text) : Z :=
  match py_int f with
  | Some z => z
  | None => -1
  end.

Definition overflows (f : text) : bool :=
  match py_int f with
  | Some z => negb (in_int64 z)
  | None => false
  end.

(** The record a row of at least four values is stored as. *)
Definition record_of (r : list text) : elem :=
  T [ Int64 (int_or_default (nth 0 r []));
      Int64 (int_or_default (nth 1 r []));
      Int64 (int_or_default (nth 2 r []));
      Str (rstrip_nul (firstn 25 (nth 3 r []))) ].

(** The record of a data line, from the fields of the line as it is
    written. *)
Definition record_of_line (l : text) : elem :=
  let fields := split COMMA l in
  T [ Int64 (int_or_default (nth 0 fields []));
      Int64 (int_or_default (nth 1 fields []));
      Int64 (int_or_default (nth 2 fields []));
      Str (rstrip_nul
             (firstn 25 (rstrip strip_chars (before HASH (nth 3 fields []))))) ].

(** The numeric view of a structured array of the four fields. *)
Definition numeric_view (a : ndarray) : ndarray :=
  mk_ndarray (Plain i8) (shape a ++ [3%nat])
    (flat_map (fun e => match e with
                        | T vs => map V vs
                        | V v => [V v]
                        end)
              (map (take_fields [0; 1; 2]%nat) (data a))).

Definition row_overflows (r : list text) : bool :=
  existsb overflows (firstn 3 r).

(** The rows of a file can be loaded: they have one number of values, at
    least four, and no integer out of the 64-bit range. *)
Definition loadable (raw : text) : bool :=
  let rows := collect_rows COMMA 1 raw in
  forallb (fun r => (length r =? length (hd [] rows))%nat
                    && (4 <=? length r)%nat
                    && negb (row_overflows r)) rows.

(** The structured array a loadable file is loaded as. *)
Definition loaded (raw : text) : ndarray :=
  let rows := collect_rows COMMA 1 raw in
  squeeze (mk_ndarray (Struct datatypes) [length rows] (map record_of rows)).

(** The tag of a record. *)
Definition tag_of (e : elem) : text :=
  match e with
  | T [_; _; _; Str s] => s
  | _ => []
  end.

(** Whether a record carries one of the tags. *)
Definition has_tag (values : list text) (e : elem) : bool :=
  existsb (text_eqb (tag_of e)) values.

(** The value of a named field of a record. *)
Definition field_of (name : string) (e : elem) : scalar :=
  match e, lookup_field name datatypes with
  | T vs, Some (i, _) => nth i vs (Int64 0)
  | _, _ => Int64 0
  end.

Definition known_field (name : string) : Prop :=
  In name (map Fields_value [ABS; REL; DEL; TAG]).

(** What a row is stored as before the strings are cut to the field width. *)
Definition converted (r : list text) : list scalar :=
  [ Int64 (int_or_default (nth 0 r []));
    Int64 (int_or_default (nth 1 r []));
    Int64 (int_or_default (nth 2 r []));
    Str (nth 3 r []) ].

(** The characters of an integer literal after its sign. *)
Definition literal_char (c : ascii) : Prop :=
  isdigit c = true \/ c = "_"%char.

(** A data line that is malformed in the sense of the specification: not
    exactly four comma-separated fields, or a numeric field that [int]
    does not parse. *)
Definition malformed (l : text) : bool :=
  negb (length (split COMMA l) =? 4)%nat
  || existsb (fun f => match py_int f with
                       | Some _ => false
                       | None => true
                       end) (firstn 3 (split COMMA l)).


(** ** Example files *)

Definition header_line : text := txt "abs,rel,del,tag".

(** The example of the specification: two data rows. *)
Definition example_file : text :=
  unlines [ header_line;
            txt "1,2,3," ++ Tags_value PFOO;
            txt "4,5,6," ++ Tags_value NBAR ].

(** A file of a single data row. *)
Definition one_row_file : text :=
  unlines [ header_line; txt "1,2,3," ++ Tags_value PFOO ].

(** A file with a numeric field that is no integer. *)
Definition nonnumeric_file : text :=
  unlines [ header_line; txt "x,2,3,t"; txt "4,5,6,u" ].

(** A file with a comment character in a tag. *)
Definition hash_file : text :=
  unlines [ header_line; txt "1,2,3,foo#bar"; txt "4,5,6,baz" ].

(** A file with an empty line between its rows. *)
Definition blank_line_file : text :=
  unlines [ header_line; txt "1,2,3,t"; txt ""; txt "4,5,6,u" ].

(** A file whose rows all have five fields. *)
Definition wide_rows_file : text :=
  unlines [ header_line; txt "1,2,3,t,9"; txt "4,5,6,u,9" ].

(** A file with a row of three fields. *)
Definition short_row_file : text :=
  unlines [ header_line; txt "1,2,3,t"; txt "4,5,6" ].

(** A file system that holds one file under every name. *)
Definition only (raw : text) : filesystem := fun _ => Some raw.

(** ** The caller: [main] and what it draws

    [main] prints to the console and calls into the plotting library.  The
    model records these calls in their order; what the library does with a
    call is not modelled.  The text NumPy prints for an array is a
    parameter, and [parser.parse_args()] is taken to have returned the
    value of [--file]. *)

(** [a[:, j]] for an index [0 <= j]: entry [j] of the second axis, for
    every entry of the first; an array of fewer than two dimensions has too
    few. *)
Definition getitem_col (a : ndarray) (j : nat) : result ndarray :=
  match shape a with
  | n :: m :: rest =>
      if (j <? m)%nat then
        let k := fold_right Nat.mul 1%nat rest in
        Ok (mk_ndarray (dt a) (n :: rest)
              (flat_map (fun i => firstn k (skipn (i * (m * k) + j * k) (data a)))
                        (seq 0 n)))
      else Raise IndexError
  | _ => Raise IndexError
  end.

(** A value of a keyword argument. *)
Inductive pyval : Type :=
| PStr (s : string)
| PArr (a : ndarray).

(** A call that leaves the program; the axes are numbered as
    [plt.subplots] returns them. *)
Inductive call : Type :=
| print (s : text)
| subplots (nrows ncols : nat) (figsize : nat * nat)
| set_title (ax : nat) (title : string)
| grid (ax : nat) (b : bool)
| plot (ax : nat) (x y : ndarray) (kwargs : list (string * pyval))
| scatter (ax : nat) (x y : ndarray) (kwargs : list (string * pyval))
| show.

(** A computation of the caller: the calls it made, and how it ended. *)
Definition io (A : Type) : Type := list call * result A.

Definition io_ret {A : Type} (a : A) : io A := ([], Ok a).

Definition io_bind {A B : Type} (c : io A) (k : A -> io B) : io B :=
  match c with
  | (tr, Ok a) => let (tr', r) := k a in (tr ++ tr', r)
  | (tr, Raise e) => (tr, Raise e)
  end.

Definition emit (c : call) : io unit := ([c], Ok tt).

Definition lift {A : Type} (r : result A) : io A := ([], r).

Notation "x <~ c1 ;; c2" := (io_bind c1 (fun x => c2))
  (at level 61, c1 at next level, right associativity).

Notation "c1 ;;; c2" := (io_bind c1 (fun _ => c2))
  (at level 61, right associativity).

(** [plot_line]. *)
Definition plot_line (ax : nat) (data_x data_y : ndarray)
  (param_dict : list (string * pyval)) : io unit :=
  emit (plot ax data_x data_y param_dict).

(** [plot_scatter]. *)
Definition plot_scatter (ax : nat) (data_x data_y : ndarray)
  (param_dict : list (string * pyval)) : io unit :=
  emit (scatter ax data_x data_y param_dict).

Section Caller.

(** The text an array is given in a format string, [format(a, '')]. *)
Variable array_str : ndarray -> text.

(** [Data.__str__]. *)
Definition Data_str (self : Data) : text :=
  txt "Structured Data:" ++ [LF] ++ array_str (sdata self) ++ [LF; LF]
  ++ txt "Unstructured Data:" ++ [LF] ++ array_str (udata self) ++ [LF; LF].

(** [main], for the path given as [--file]. *)
Definition main (fs : filesystem) (args_file : string) : io unit :=
  DataObject <~ lift (Data_init fs args_file) ;;
  emit (print (Data_str DataObject)) ;;;
  by_col <~ lift (outcome (filter_sdata_by_col [Fields_value ABS]) DataObject) ;;
  let DataObject := self_after (filter_sdata_by_col [Fields_value ABS])
                               DataObject in
  emit (print (txt "apply filter by column:" ++ [LF] ++ array_str by_col
               ++ [LF; LF])) ;;;
  by_tag <~ lift (outcome (filter_sdata_by_tag
                             [Tags_value PFOO; Tags_value NFOO]) DataObject) ;;
  let DataObject := self_after (filter_sdata_by_tag
                                  [Tags_value PFOO; Tags_value NFOO])
                               DataObject in
  emit (print (txt "apply filter by tag:" ++ [LF] ++ array_str by_tag
               ++ [LF; LF])) ;;;
  emit (subplots 1 2 (8, 4)%nat) ;;;
  emit (set_title 0 "A line plot") ;;;
  emit (grid 0 true) ;;;
  x <~ lift (getitem_col (udata DataObject) 0) ;;
  y <~ lift (getitem_col (udata DataObject) 1) ;;
  plot_line 0 x y [("c", PStr "g"); ("marker", PStr "o")]%string ;;;
  x <~ lift (getitem_col (udata DataObject) 0) ;;
  y <~ lift (getitem_col (udata DataObject) 2) ;;
  plot_line 0 x y [("c", PStr "b"); ("marker", PStr ".")]%string ;;;
  emit (set_title 1 "A scatter plot") ;;;
  emit (grid 1 true) ;;;
  x <~ lift (getitem_col (udata DataObject) 0) ;;
  y <~ lift (getitem_col (udata DataObject) 1) ;;
  c <~ lift (getitem_col (udata DataObject) 0) ;;
  plot_scatter 1 x y
    [("c", PArr c); ("cmap", PStr "RdYlGn_r"); ("marker", PStr "2")]%string ;;;
  x <~ lift (getitem_col (udata DataObject) 0) ;;
  y <~ lift (getitem_col (udata DataObject) 2) ;;
  c <~ lift (getitem_col (udata DataObject) 0) ;;
  plot_scatter 1 x y
    [("c", PArr c); ("cmap", PStr "plasma"); ("marker", PStr "1")]%string ;;;
  emit show.

End Caller.

(** A call into the plotting library. *)
Definition is_drawing (c : call) : bool :=
  match c with
  | print _ => false
  | _ => true
  end.

(** ** Further notions of the statements *)

(** A file given by its lines, each ended by the same line end. *)
Definition unlines_with (eol : text) (ls : list text) : text :=
  flat_map (fun l => l ++ eol) ls.

(** The three line ends of text files. *)
Definition line_end (eol : text) : Prop :=
  eol = [LF] \/ eol = [CR; LF] \/ eol = [CR].

(** A line the loader passes over: nothing is left of it once its comment
    is cut off and it is stripped. *)
Definition is_ignored (l : text) : bool :=
  match split_line COMMA HASH l with
  | [] => true
  | _ :: _ => false
  end.

(** The column of a named field of the records, as a plain array. *)
Definition column (name : string) (a : ndarray) : ndarray :=
  mk_ndarray (Plain i8) [length (data a)]
             (map (fun e => V (field_of name e)) (data a)).

(** A record as the loader stores it: three 64-bit integers and a string
    of at most 25 characters. *)
Definition stored_record (e : elem) : Prop :=
  exists a r d t,
    e = T [Int64 a; Int64 r; Int64 d; Str t] /\
    in_int64 a = true /\ in_int64 r = true /\ in_int64 d = true /\
    (length t <= 25)%nat.

(** A file with a line of a number beyond 64 bits. *)
Definition overflow_file : text :=
  unlines [ header_line; txt "1,2,3,t"; txt "4,9223372036854775808,6,u" ].

(** A file of a header alone. *)
Definition header_only_file : text := unlines [ header_line ].

(** A file with a tag of more than 25 characters. *)
Definition long_tag_file : text :=
  unlines [ header_line;
            txt "1,2,3,abcdefghijklmnopqrstuvwxyz0123";
            txt "4,5,6,u" ].

(** The example with a comment line and an empty line among its rows. *)
Definition commented_file_lines : list text :=
  [ txt "1,2,3," ++ Tags_value PFOO;
    txt "# a comment";
    txt "";
    txt "4,5,6," ++ Tags_value NBAR ].

(** The values of a line: its comma-separated fields, once the comment
    (from the first [#]) is cut off the line and spaces and line ends are
    stripped from both ends of the line. *)
Definition values_of (line : text) : list text :=
  split COMMA (strip strip_chars (before HASH line)).

(** A line keeps a value when something is left of it once its comment
    is cut off and it is stripped. *)
Definition has_value (line : text) : bool :=
  match strip strip_chars (before HASH line) with
  | [] => false
  | _ :: _ => true
  end.

(** The data lines of a file: the lines after the first that keep a
    value, in their order, each as it is read (with its line feed). *)
Definition data_lines (raw : text) : list text :=
  filter has_value (skipn 1 (readlines (universal_newlines raw))).

(** The fields of a record, by their places in the record. *)
Definition get (f : Fields) (e : elem) : scalar :=
  match e with
  | T [a; r; d; t] =>
      match f with
      | ABS => a
      | REL => r
      | DEL => d
      | TAG => t
      end
  | _ => Int64 0
  end.


(** The vector of one numeric field of the records. *)
Definition column_of (f : Fields) (a : ndarray) : ndarray :=
  mk_ndarray (Plain i8) [length (data a)]
             (map (fun e => V (get f e)) (data a)).

(** Whether the tag of a record is one of the values, as NumPy compares
    strings: up to trailing NULs. *)
Definition tag_in (values : list text) (e : elem) : bool :=
  existsb (str_eqb (tag_of e)) values.


(** *** Files written from rows *)

(** The decimal notation of an integer: a minus sign for a negative one,
    then its digits without leading zeros. *)
Definition decimal (z : Z) : text :=
  txt (DecimalString.NilZero.string_of_int (Z.to_int z)).

(** A row to be written: three integers and a tag. *)
Record written_row : Type := mk_row {
  w_abs : Z;
  w_rel : Z;
  w_del : Z;
  w_tag : text
}.

(** The line a row is written as. *)
Definition write_row (r : written_row) : text :=
  decimal (w_abs r) ++ COMMA :: decimal (w_rel r) ++ COMMA
    :: decimal (w_del r) ++ COMMA :: w_tag r.

Definition record_of_row (r : written_row) : elem :=
  T [Int64 (w_abs r); Int64 (w_rel r); Int64 (w_del r); Str (w_tag r)].

(** A tag that can be written as it is: at most 25 characters, none of
    them a comma, a comment character or a line end, and the last one
    neither a space nor a NUL. *)
Definition clean_tag (t : text) : bool :=
  (length t <=? 25)%nat
  && forallb (fun c => negb (Ascii.eqb c COMMA || Ascii.eqb c HASH
                             || Ascii.eqb c LF || Ascii.eqb c CR)) t
  && negb (Ascii.eqb (last t COMMA) SP)
  && negb (Ascii.eqb (last t COMMA) NUL).

(** A row that fits the fields: integers of 64 bits and a clean tag. *)
Definition fits (r : written_row) : bool :=
  in_int64 (w_abs r) && in_int64 (w_rel r) && in_int64 (w_del r)
  && clean_tag (w_tag r).

(** *** The three ways a load fails *)

(** The data lines do not all have the number of values of the first. *)
Definition ragged (raw : text) : bool :=
  negb (forallb (fun line =>
                   (length (values_of line)
                    =? length (values_of (hd [] (data_lines raw))))%nat)
                (data_lines raw)).

(** Some data line has, among its first three values, an integer out of
    the 64-bit range. *)
Definition overflowing (raw : text) : bool :=
  existsb (fun line => row_overflows (values_of line)) (data_lines raw).

(** Some data line has fewer than four values. *)
Definition narrow (raw : text) : bool :=
  existsb (fun line => (length (values_of line) <? 4)%nat) (data_lines raw).

(** ** The store: objects, arrays and their buffers

    The methods above give what a call returns.  What a call writes is
    told over the store of the program: the objects with their attributes,
    and the buffers the arrays keep their elements in.  Two arrays can
    share a buffer: [a[names]] and [a[name]] are views of the buffer of
    [a], while [np.in1d], [a[mask]], [np.genfromtxt] and, in NumPy 1.21,
    [structured_to_unstructured] of fields that are not packed return
    arrays with a buffer of their own.  An assignment to an attribute or
    to an entry of an array is a write of this store.  The values of the
    arrays are computed by the functions above. *)

Module Heap.

Definition addr : Type := nat.

(** A step from an element of a buffer to what a view shows of it. *)
Inductive step : Type :=
| take (idx : list nat)   (* [a[names]]: the fields at these places *)
| pick (i : nat).         (* [a[name]]: the one field at this place *)

Definition get_step (s : step) (e : elem) : elem :=
  match s with
  | take idx => take_fields idx e
  | pick i =>
      match e with
      | T vs => V (nth i vs (Int64 0))
      | V v => V v
      end
  end.

(** What an array shows of an element of its buffer. *)
Definition through (p : list step) (e : elem) : elem :=
  fold_left (fun e' s => get_step s e') p e.

Fixpoint update {A : Type} (i : nat) (f : A -> A) (l : list A) : list A :=
  match l, i with
  | [], _ => []
  | x :: t, O => f x :: t
  | x :: t, Datatypes.S i' => x :: update i' f t
  end.

(** The element of the buffer once [new] is written where the view shows
    the element [old] of the buffer. *)
Definition put_step (s : step) (old new : elem) : elem :=
  match s, old, new with
  | take idx, T vs, T ws =>
      T (fold_left (fun vs' iw => update (fst iw) (fun _ => snd iw) vs')
                   (combine idx ws) vs)
  | pick i, T vs, V w => T (update i (fun _ => w) vs)
  | _, _, _ => old
  end.

Fixpoint put (p : list step) (old new : elem) : elem :=
  match p with
  | [] => new
  | s :: p' => put_step s old (put p' (get_step s old) new)
  end.

(** An array object: the buffer it reads and writes, how it sees the
    elements of the buffer, its dtype and its shape. *)
Record array : Type := mk_array {
  buffer : addr;
  path : list step;
  a_dt : dtype;
  a_shape : list nat
}.

(** The value of an attribute: a string or an array. *)
Inductive attr : Type :=
| AStr (s : string)
| AArr (a : array).

(** An object: its attributes, in the order they were first set. *)
Definition object : Type := list (string * attr).

Record heap : Type := mk_heap {
  buffers : list (list elem);
  objects : list object
}.

Definition empty : heap := mk_heap [] [].

Fixpoint assoc_get (name : string) (o : object) : option attr :=
  match o with
  | [] => None
  | (n, v) :: o' => if String.eqb name n then Some v else assoc_get name o'
  end.

Fixpoint assoc_set (name : string) (v : attr) (o : object) : object :=
  match o with
  | [] => [(name, v)]
  | (n, w) :: o' =>
      if String.eqb name n then (n, v) :: o'
      else (n, w) :: assoc_set name v o'
  end.

(** *** Reading the store *)

Definition valid (h : heap) (a : array) : bool :=
  (buffer a <? length (buffers h))%nat.

Definition elements (h : heap) (a : array) : list elem :=
  map (through (path a)) (nth (buffer a) (buffers h) []).

(** The array a reader of [a] sees. *)
Definition value (h : heap) (a : array) : ndarray :=
  mk_ndarray (a_dt a) (a_shape a) (elements h a).

(** The dataset an object holds: its three attributes, the arrays by
    what they show. *)
Definition dataset_at (h : heap) (self : addr) : option Data :=
  match nth_error (objects h) self with
  | Some o =>
      match assoc_get "filename" o, assoc_get "sdata" o,
            assoc_get "udata" o with
      | Some (AStr f), Some (AArr s), Some (AArr u) =>
          if valid h s && valid h u
          then Some (mk_Data f (value h s) (value h u))
          else None
      | _, _, _ => None
      end
  | None => None
  end.

(** The store [h'] has every object of [h] as it is in [h], and every
    buffer of [h] with the elements it has in [h]; it may have more
    buffers. *)
Definition extends (h h' : heap) : Prop :=
  objects h' = objects h /\ exists new, buffers h' = buffers h ++ new.

(** *** Computations on the store *)

Definition M (A : Type) : Type := heap -> result A * heap.

Definition ret {A : Type} (a : A) : M A := fun h => (Ok a, h).

Definition raise {A : Type} (e : exn) : M A := fun h => (Raise e, h).

Definition lift_result {A : Type} (r : result A) : M A := fun h => (r, h).

Definition mbind {A B : Type} (m : M A) (k : A -> M B) : M B :=
  fun h =>
    match m h with
    | (Ok a, h') => k a h'
    | (Raise e, h') => (Raise e, h')
    end.

Notation "x <-- c1 ;; c2" := (mbind c1 (fun x => c2))
  (at level 61, c1 at next level, right associativity).

(** The store a computation leaves. *)
Definition after {A : Type} (m : M A) (h : heap) : heap := snd (m h).

(** What is returned, an array by what it shows in the given store. *)
Definition returned (h : heap) (r : result array) : result ndarray :=
  match r with
  | Ok a => Ok (value h a)
  | Raise e => Raise e
  end.

(** What a computation returns, read in the store it leaves. *)
Definition returns (m : M array) (h : heap) : result ndarray :=
  returned (after m h) (fst (m h)).

(** A new buffer, at the next address. *)
Definition new_buffer (els : list elem) : M addr :=
  fun h => (Ok (length (buffers h)),
            mk_heap (buffers h ++ [els]) (objects h)).

(** A new array with a buffer of its own. *)
Definition new_array (v : ndarray) : M array :=
  b <-- new_buffer (data v) ;;
  ret (mk_array b [] (dt v) (shape v)).

(** A new object without attributes. *)
Definition new_object : M addr :=
  fun h => (Ok (length (objects h)),
            mk_heap (buffers h) (objects h ++ [[]])).

(** [self.name]. *)
Definition getattr (self : addr) (name : string) : M attr :=
  fun h =>
    match nth_error (objects h) self with
    | Some o =>
        match assoc_get name o with
        | Some v => (Ok v, h)
        | None => (Raise AttributeError, h)
        end
    | None => (Raise AttributeError, h)
    end.

(** [self.name = v]. *)
Definition setattr (self : addr) (name : string) (v : attr) : M unit :=
  fun h => (Ok tt,
            mk_heap (buffers h) (update self (assoc_set name v) (objects h))).

(** The array a reader sees. *)
Definition read (a : array) : M ndarray := fun h => (Ok (value h a), h).

(** [a[i] = e] for an element [e] of the type of [a]: every element of
    entry [i] of the first axis is written, through the view, into the
    buffer. *)
Definition setitem (a : array) (i : nat) (e : elem) : M unit :=
  fun h =>
    match a_shape a with
    | [] => (Raise IndexError, h)
    | n :: rest =>
        if (i <? n)%nat then
          let k := fold_right Nat.mul 1%nat rest in
          let write := fun els =>
            firstn (i * k) els
            ++ map (fun old => put (path a) old e)
                   (firstn k (skipn (i * k) els))
            ++ skipn (i * k + k) els in
          (Ok tt, mk_heap (update (buffer a) write (buffers h)) (objects h))
        else (Raise IndexError, h)
    end.

(** What is indexed is an array; indexing a [str] with a list or with a
    string raises [TypeError]. *)
Definition as_array (v : attr) : M array :=
  match v with
  | AArr a => ret a
  | AStr _ => raise TypeError
  end.

(** [a[names]] for a list of strings: a view of the buffer of [a] for a
    list of field names, and a new, empty array for the empty list. *)
Definition fields_view (a : array) (names : list string) : M array :=
  match names with
  | [] =>
      v <-- read a ;;
      r <-- lift_result (getitem_fields v []) ;;
      new_array r
  | _ :: _ =>
      match a_dt a with
      | Struct fs =>
          sel <-- lift_result (field_subset fs names []) ;;
          ret (mk_array (buffer a) (path a ++ [take (map fst sel)])
                        (Struct (map snd sel)) (a_shape a))
      | Plain _ => raise IndexError
      end
  end.

(** [a[name]] for one string: a view of the buffer of [a]. *)
Definition field_view (a : array) (name : string) : M array :=
  match a_dt a with
  | Struct fs =>
      match lookup_field name fs with
      | None => raise ValueError
      | Some (i, b) =>
          ret (mk_array (buffer a) (path a ++ [pick i]) (Plain b) (a_shape a))
      end
  | Plain _ => raise IndexError
  end.

(** [np.in1d(ar1, ar2)]: a new array. *)
Definition in1d_array (ar1 : array) (ar2 : list text) : M array :=
  v <-- read ar1 ;;
  new_array (in1d v ar2).

(** [a[mask]]: a new array. *)
Definition mask_copy (a mask : array) : M array :=
  va <-- read a ;;
  vm <-- read mask ;;
  r <-- lift_result (getitem_mask va vm) ;;
  new_array r.

(** [Data(filename)]: the new object, and [Data.__init__] on it. *)
Definition Data_init (fs : filesystem) (filename : string) : M addr :=
  self <-- new_object ;;
  _ <-- setattr self "filename" (AStr filename) ;;
  a <-- lift_result (genfromtxt fs filename datatypes COMMA 1) ;;
  sdata <-- new_array a ;;
  _ <-- setattr self "sdata" (AArr sdata) ;;
  s <-- getattr self "sdata" ;;
  s <-- as_array s ;;
  cols <-- fields_view s
             [Fields_value ABS; Fields_value REL; Fields_value DEL] ;;
  c <-- read cols ;;
  u <-- lift_result (structured_to_unstructured c) ;;
  udata <-- new_array u ;;
  _ <-- setattr self "udata" (AArr udata) ;;
  ret self.

(** [Data.filter_sdata_by_col]. *)
Definition filter_sdata_by_col (self : addr) (names : list string) : M array :=
  s <-- getattr self "sdata" ;;
  s <-- as_array s ;;
  fields_view s names.

(** [Data.filter_sdata_by_tag]: the subscripted [self.sdata] is read
    first, then the index is computed. *)
Definition filter_sdata_by_tag (self : addr) (values : list text) : M array :=
  s <-- getattr self "sdata" ;;
  s' <-- getattr self "sdata" ;;
  s' <-- as_array s' ;;
  tags <-- field_view s' (Fields_value TAG) ;;
  mask <-- in1d_array tags values ;;
  s <-- as_array s ;;
  mask_copy s mask.

End Heap.

(** The store after the example file is loaded into the empty store; the
    object is at address 0. *)
Definition example_heap : Heap.heap :=
  Heap.after (Heap.Data_init (only example_file) "data.csv") Heap.empty.

(** * Properties *)

(** ** The result monad *)

Lemma mapM_Ok_map {A B : Type} (f : A -> result B) (g : A -> B) (l : list A) :
  (forall x, In x l -> f x = Ok (g x)) -> mapM f l = Ok (map g l).
Proof.
  induction l as [|x t IH]; intros H; simpl; [reflexivity|].
  rewrite (H x (or_introl eq_refl)); simpl.
  rewrite IH; [reflexivity|]. intros y Hy. apply H. now right.
Qed.

Lemma mapM_Ok_inv {A B : Type} (f : A -> result B) (l : list A) (ys : list B) :
  mapM f l = Ok ys -> Forall2 (fun x y => f x = Ok y) l ys.
Proof.
  revert ys. induction l as [|x t IH]; intros ys H; simpl in H.
  - injection H as <-. constructor.
  - destruct (f x) as [y|e] eqn:Hx; simpl in H; [|discriminate].
    destruct (mapM f t) as [ys'|e] eqn:Ht; simpl in H; [|discriminate].
    injection H as <-. constructor; auto.
Qed.

Lemma mapM_Raise {A B : Type} (f : A -> result B) (l : list A) (x : A) (e : exn) :
  In x l -> f x = Raise e -> exists e', mapM f l = Raise e'.
Proof.
  induction l as [|y t IH]; intros Hin Hx; [destruct Hin|].
  simpl. destruct Hin as [->|Hin].
  - rewrite Hx. simpl. eauto.
  - destruct (f y); simpl; [|eauto].
    destruct (IH Hin Hx) as [e' ->]. simpl. eauto.
Qed.

Lemma mapM_length {A B : Type} (f : A -> result B) (l : list A) (ys : list B) :
  mapM f l = Ok ys -> length ys = length l.
Proof.
  intros H. apply mapM_Ok_inv in H.
  induction H; simpl; congruence.
Qed.

(** ** Text *)

Section TextLemmas.

Variable p : ascii -> bool.

Lemma lstrip_In (s : text) (c : ascii) : In c (lstrip p s) -> In c s.
Proof.
  induction s as [|x t IH]; simpl; [tauto|].
  destruct (p x); simpl; intuition.
Qed.

Lemma rstrip_In (s : text) (c : ascii) : In c (rstrip p s) -> In c s.
Proof.
  unfold rstrip. intros H. apply in_rev in H. apply lstrip_In in H.
  now apply in_rev.
Qed.

Lemma lstrip_keeps (s : text) (c : ascii) :
  p c = false -> In c s -> In c (lstrip p s).
Proof.
  intros Hc. induction s as [|x t IH]; simpl; [tauto|].
  intros [->|H].
  - rewrite Hc. now left.
  - destruct (p x); [auto|now right].
Qed.

Lemma rstrip_keeps (s : text) (c : ascii) :
  p c = false -> In c s -> In c (rstrip p s).
Proof.
  intros Hc H. unfold rstrip. apply -> in_rev.
  apply lstrip_keeps; [assumption|]. now apply -> in_rev.
Qed.

(** Stripping on the left stops at a character outside the set. *)
Lemma lstrip_app_stop (a b : text) (c : ascii) :
  p c = false -> lstrip p (a ++ c :: b) = lstrip p a ++ c :: b.
Proof.
  intros Hc. induction a as [|x t IH]; simpl.
  - now rewrite Hc.
  - destruct (p x); [exact IH|reflexivity].
Qed.

Lemma rstrip_app_stop (a b : text) (c : ascii) :
  p c = false -> rstrip p (a ++ c :: b) = a ++ c :: rstrip p b.
Proof.
  intros Hc. unfold rstrip.
  rewrite rev_app_distr. simpl. rewrite <- app_assoc. simpl.
  rewrite lstrip_app_stop by assumption.
  rewrite rev_app_distr. simpl. rewrite rev_involutive.
  rewrite <- app_assoc. reflexivity.
Qed.

Lemma rstrip_snoc (s : text) (c : ascii) :
  p c = true -> rstrip p (s ++ [c]) = rstrip p s.
Proof.
  intros Hc. unfold rstrip. rewrite rev_app_distr. simpl. now rewrite Hc.
Qed.

Lemma lstrip_nil_all (s : text) : lstrip p s = [] -> forallb p s = true.
Proof.
  induction s as [|x t IH]; simpl; [reflexivity|].
  destruct (p x); simpl; [exact IH|discriminate].
Qed.

Lemma lstrip_all (s : text) : forallb p s = true -> lstrip p s = [].
Proof.
  induction s as [|x t IH]; simpl; [reflexivity|].
  destruct (p x); simpl; [exact IH|discriminate].
Qed.

(** Stripping a smaller set first changes nothing. *)
Lemma lstrip_lstrip (q : ascii -> bool) (s : text) :
  (forall c, q c = true -> p c = true) ->
  lstrip p (lstrip q s) = lstrip p s.
Proof.
  intros Hq. induction s as [|x t IH]; simpl; [reflexivity|].
  destruct (q x) eqn:Hx.
  - rewrite (Hq _ Hx). exact IH.
  - reflexivity.
Qed.

End TextLemmas.

Lemma before_In (c x : ascii) (s : text) : In x (before c s) -> In x s.
Proof.
  induction s as [|y t IH]; simpl; [tauto|].
  destruct (Ascii.eqb y c); simpl; intuition.
Qed.

Lemma before_app (c : ascii) (a b : text) :
  ~ In c a -> before c (a ++ b) = a ++ before c b.
Proof.
  induction a as [|x t IH]; simpl; intros H; [reflexivity|].
  destruct (Ascii.eqb_spec x c) as [->|_]; [tauto|].
  rewrite IH; tauto.
Qed.

Lemma before_app_In (c : ascii) (a b : text) :
  In c a -> before c (a ++ b) = before c a.
Proof.
  induction a as [|x t IH]; simpl; intros H; [tauto|].
  destruct (Ascii.eqb_spec x c) as [->|Hn]; [reflexivity|].
  rewrite IH; [reflexivity|]. destruct H; [congruence|assumption].
Qed.

Lemma before_absent (c : ascii) (a : text) : ~ In c a -> before c a = a.
Proof.
  intros H. rewrite <- (app_nil_r a) at 1. rewrite before_app by assumption.
  simpl. apply app_nil_r.
Qed.

Lemma split_not_nil (c : ascii) (s : text) : split c s <> [].
Proof.
  destruct s as [|x t]; simpl; [discriminate|].
  destruct (Ascii.eqb x c); [discriminate|].
  destruct (split c t); discriminate.
Qed.

(** No part of a split holds the separator. *)
Lemma split_parts (c : ascii) (s : text) (w : text) :
  In w (split c s) -> ~ In c w.
Proof.
  revert w. induction s as [|x t IH]; simpl; intros w.
  - intros [<-|[]]. tauto.
  - destruct (Ascii.eqb_spec x c) as [->|Hn].
    + intros [<-|H]; [tauto|auto].
    + destruct (split c t) as [|w0 ws] eqn:E.
      * intros [<-|[]]. simpl. intuition.
      * intros [<-|H].
        -- simpl. intros [Hx|Hx]; [congruence|].
           apply (IH w0); [now left|assumption].
        -- apply IH. now right.
Qed.

Lemma split_absent (c : ascii) (a : text) : ~ In c a -> split c a = [a].
Proof.
  induction a as [|x t IH]; simpl; intros H; [reflexivity|].
  destruct (Ascii.eqb_spec x c) as [->|_]; [tauto|].
  rewrite IH; tauto.
Qed.

Lemma split_app (c : ascii) (a b : text) :
  ~ In c a -> split c (a ++ c :: b) = a :: split c b.
Proof.
  induction a as [|x t IH]; simpl; intros H.
  - now rewrite Ascii.eqb_refl.
  - destruct (Ascii.eqb_spec x c) as [->|_]; [tauto|].
    rewrite IH; tauto.
Qed.

(** A text is its parts, joined by the separator. *)
Lemma split_cons_inv (c : ascii) (s a : text) (rest : list text) :
  split c s = a :: rest ->
  (rest = [] /\ s = a) \/ (exists s', s = a ++ c :: s' /\ split c s' = rest).
Proof.
  revert a rest. induction s as [|x t IH]; simpl; intros a rest H.
  - injection H as <- <-. now left.
  - destruct (Ascii.eqb_spec x c) as [->|Hn].
    + injection H as <- <-. right. exists t. split; reflexivity.
    + destruct (split c t) as [|w ws] eqn:E.
      * now apply split_not_nil in E.
      * injection H as <- <-.
        destruct (IH w ws eq_refl) as [[-> ->]|[s' [-> Hs']]].
        -- now left.
        -- right. exists s'. split; [reflexivity|assumption].
Qed.

Lemma split4_inv (c : ascii) (s f1 f2 f3 f4 : text) :
  split c s = [f1; f2; f3; f4] ->
  s = f1 ++ c :: f2 ++ c :: f3 ++ c :: f4.
Proof.
  intros H.
  apply split_cons_inv in H. destruct H as [[H _]|[s1 [-> H]]]; [discriminate|].
  apply split_cons_inv in H. destruct H as [[H _]|[s2 [-> H]]]; [discriminate|].
  apply split_cons_inv in H. destruct H as [[H _]|[s3 [-> H]]]; [discriminate|].
  apply split_cons_inv in H. destruct H as [[_ ->]|[s4 [_ H]]].
  - reflexivity.
  - now apply split_not_nil in H.
Qed.

(** *** Lines *)

Lemma existsb_eqb_In (c : ascii) (s : text) :
  existsb (Ascii.eqb c) s = false <-> ~ In c s.
Proof.
  induction s as [|x t IH]; simpl; [tauto|].
  destruct (Ascii.eqb_spec c x) as [->|Hn]; simpl.
  - split; [discriminate|tauto].
  - rewrite IH. intuition congruence.
Qed.

Lemma one_line_spec (l : text) :
  one_line l = true <-> ~ In LF l /\ ~ In CR l.
Proof.
  unfold one_line. rewrite andb_true_iff, !negb_true_iff, !existsb_eqb_In.
  tauto.
Qed.

Lemma universal_newlines_id (s : text) :
  ~ In CR s -> universal_newlines s = s.
Proof.
  induction s as [|x t IH]; simpl; intros H; [reflexivity|].
  destruct (Ascii.eqb_spec x CR) as [->|_]; [tauto|].
  rewrite IH; tauto.
Qed.

Lemma unlines_no_CR (ls : list text) :
  Forall (fun l => one_line l = true) ls -> ~ In CR (unlines ls).
Proof.
  induction 1 as [|l t Hl _ IH]; simpl; [tauto|].
  apply one_line_spec in Hl. rewrite !in_app_iff. simpl.
  intros [[H|[H|[]]]|H]; [tauto|discriminate|tauto].
Qed.

Lemma readlines_line (l rest : text) :
  ~ In LF l -> readlines (l ++ LF :: rest) = (l ++ [LF]) :: readlines rest.
Proof.
  induction l as [|x t IH]; simpl; intros H; [reflexivity|].
  destruct (Ascii.eqb_spec x LF) as [->|_]; [tauto|].
  rewrite IH; tauto.
Qed.

Lemma readlines_unlines (ls : list text) :
  Forall (fun l => one_line l = true) ls ->
  readlines (unlines ls) = map (fun l => l ++ [LF]) ls.
Proof.
  induction 1 as [|l t Hl _ IH]; simpl; [reflexivity|].
  apply one_line_spec in Hl.
  rewrite <- app_assoc. simpl. rewrite readlines_line by tauto.
  now rewrite IH.
Qed.

(** ** Integer literals *)

Lemma digits_from_chars (n : nat) :
  forall (s : text) (acc z : Z),
    (length s <= n)%nat -> digits_from acc s = Some z ->
    forall c, In c s -> literal_char c.
Proof.
  induction n as [|n IH]; intros s acc z Hlen H c Hc.
  - destruct s; [destruct Hc|simpl in Hlen; lia].
  - destruct s as [|x t]; [destruct Hc|]. simpl in H, Hlen.
    destruct (isdigit x) eqn:Hx.
    + destruct Hc as [<-|Hc]; [now left|].
      eapply (IH t); [|eassumption|assumption]. lia.
    + destruct (Ascii.eqb_spec x "_"%char) as [->|_]; [|discriminate].
      destruct t as [|d t']; [discriminate|].
      destruct (isdigit d) eqn:Hd; [|discriminate].
      destruct Hc as [<-|[<-|Hc]]; [now right|now left|].
      simpl in Hlen. eapply (IH t'); [|eassumption|assumption]. lia.
Qed.

Lemma int_literal_chars (s : text) (z : Z) :
  int_literal s = Some z -> forall c, In c s -> literal_char c.
Proof.
  destruct s as [|x t]; simpl; [discriminate|].
  destruct (isdigit x) eqn:Hx; [|discriminate].
  intros H c [<-|Hc]; [now left|].
  eapply (@digits_from_chars (length t) t); [|eassumption|assumption]. lia.
Qed.

Lemma hash_not_literal : ~ literal_char HASH.
Proof. intros [H|H]; discriminate. Qed.

(** An integer literal holds no comment character. *)
Lemma py_int_no_hash (f : text) (z : Z) : py_int f = Some z -> ~ In HASH f.
Proof.
  unfold py_int. intros H Hin.
  assert (Hs : In HASH (strip isspace f)).
  { unfold strip. apply rstrip_keeps; [reflexivity|].
    apply lstrip_keeps; [reflexivity|assumption]. }
  destruct (strip isspace f) as [|c t]; [discriminate|].
  destruct (Ascii.eqb_spec c "-"%char) as [->|Hm].
  - destruct Hs as [Hs|Hs]; [discriminate|].
    destruct (int_literal t) as [v|] eqn:E; [|discriminate].
    exact (hash_not_literal (int_literal_chars _ E _ Hs)).
  - destruct (Ascii.eqb_spec c "+"%char) as [->|Hp].
    + destruct Hs as [Hs|Hs]; [discriminate|].
      exact (hash_not_literal (int_literal_chars _ H _ Hs)).
    + exact (hash_not_literal (int_literal_chars _ H _ Hs)).
Qed.

Lemma strip_chars_isspace (c : ascii) : strip_chars c = true -> isspace c = true.
Proof.
  unfold strip_chars. rewrite !orb_true_iff.
  intros [[H|H]|H]; apply Ascii.eqb_eq in H; subst; reflexivity.
Qed.

Lemma forallb_weaken (p q : ascii -> bool) (s : text) :
  (forall c, p c = true -> q c = true) ->
  forallb p s = true -> forallb q s = true.
Proof.
  intros Hpq. induction s as [|x t IH]; simpl; [reflexivity|].
  rewrite !andb_true_iff. intros [Hx Ht]. auto.
Qed.

(** The line strip leaves something of an integer literal. *)
Lemma py_int_lstrip_not_nil (f : text) (z : Z) :
  py_int f = Some z -> lstrip strip_chars f <> [].
Proof.
  intros H E. apply lstrip_nil_all in E.
  apply (forallb_weaken _ isspace _ strip_chars_isspace) in E.
  apply lstrip_all in E.
  unfold py_int, strip in H. rewrite E in H. discriminate.
Qed.

(** [int] does not see what the line strip removes. *)
Lemma py_int_lstrip (f : text) :
  py_int (lstrip strip_chars f) = py_int f.
Proof.
  unfold py_int, strip.
  now rewrite (lstrip_lstrip isspace strip_chars f strip_chars_isspace).
Qed.

Lemma is_int64_spec (f : text) :
  is_int64 f = true <-> exists z, py_int f = Some z /\ in_int64 z = true.
Proof.
  unfold is_int64, np_int64. destruct (py_int f) as [z|].
  - destruct (in_int64 z) eqn:E; split; try discriminate; eauto.
    intros [z' [Hz Hr]]. congruence.
  - split; [discriminate|]. intros [z [Hz _]]. discriminate.
Qed.

Lemma loose_call_i8 (f : text) :
  overflows f = false -> loose_call i8 f = Ok (Int64 (int_or_default f)).
Proof.
  unfold overflows, loose_call, np_int64, int_or_default.
  destruct (py_int f) as [z|]; [|reflexivity].
  destruct (in_int64 z); [reflexivity|discriminate].
Qed.

Lemma loose_call_i8_overflow (f : text) :
  overflows f = true -> loose_call i8 f = Raise OverflowError.
Proof.
  unfold overflows, loose_call, np_int64.
  destruct (py_int f) as [z|]; [|discriminate].
  destruct (in_int64 z); [discriminate|reflexivity].
Qed.

Lemma is_int64_no_overflow (f : text) : is_int64 f = true -> overflows f = false.
Proof.
  intros H. apply is_int64_spec in H. destruct H as [z [Hz Hr]].
  unfold overflows. now rewrite Hz, Hr.
Qed.

(** ** A data line through the line splitter *)

Lemma rstrip_before_line_end (s : text) :
  rstrip strip_chars (before HASH (s ++ [LF]))
  = rstrip strip_chars (before HASH s).
Proof.
  destruct (in_dec ascii_dec HASH s) as [Hin|Hout].
  - now rewrite before_app_In.
  - rewrite before_app by assumption. simpl.
    rewrite (before_absent _ _ Hout).
    now apply rstrip_snoc.
Qed.

Lemma split_line_not_nil (delimiter comments : ascii) (line : text) :
  strip strip_chars (before comments line) <> [] ->
  split_line delimiter comments line
  = split delimiter (strip strip_chars (before comments line)).
Proof.
  unfold split_line.
  destruct (strip strip_chars (before comments line)); [congruence|reflexivity].
Qed.

Lemma split_line_data_line (f1 f2 f3 tg : text) :
  ~ In COMMA f1 -> ~ In COMMA f2 -> ~ In COMMA f3 -> ~ In COMMA tg ->
  ~ In HASH f1 -> ~ In HASH f2 -> ~ In HASH f3 ->
  lstrip strip_chars f1 <> [] ->
  split_line COMMA HASH
    ((f1 ++ COMMA :: f2 ++ COMMA :: f3 ++ COMMA :: tg) ++ [LF])
  = [ lstrip strip_chars f1; f2; f3;
      rstrip strip_chars (before HASH tg) ].
Proof.
  intros C1 C2 C3 C4 H1 H2 H3 Hne.
  assert (E : strip strip_chars
                (before HASH
                   ((f1 ++ COMMA :: f2 ++ COMMA :: f3 ++ COMMA :: tg) ++ [LF]))
              = lstrip strip_chars f1 ++ COMMA :: f2 ++ COMMA :: f3 ++ COMMA
                  :: rstrip strip_chars (before HASH tg)).
  { repeat (rewrite <- app_assoc; simpl).
    rewrite (before_app _ _ _ H1). simpl.
    rewrite (before_app _ _ _ H2). simpl.
    rewrite (before_app _ _ _ H3). simpl.
    unfold strip.
    rewrite lstrip_app_stop by reflexivity.
    rewrite 3 rstrip_app_stop by reflexivity.
    now rewrite rstrip_before_line_end. }
  rewrite split_line_not_nil; rewrite E.
  - rewrite split_app by (intros H; apply C1; eapply lstrip_In; eassumption).
    rewrite split_app by assumption.
    rewrite split_app by assumption.
    rewrite split_absent; [reflexivity|].
    intros H. apply C4. eapply before_In. eapply rstrip_In. eassumption.
  - destruct (lstrip strip_chars f1); [congruence|discriminate].
Qed.

(** The values of a well-formed data line. *)
Lemma split_line_well_formed (l f1 f2 f3 tg : text) :
  split COMMA l = [f1; f2; f3; tg] ->
  is_int64 f1 = true -> is_int64 f2 = true -> is_int64 f3 = true ->
  split_line COMMA HASH (l ++ [LF])
  = [ lstrip strip_chars f1; f2; f3;
      rstrip strip_chars (before HASH tg) ].
Proof.
  intros Hs I1 I2 I3.
  assert (Hp : forall w, In w [f1; f2; f3; tg] -> ~ In COMMA w).
  { intros w Hw. rewrite <- Hs in Hw. eapply split_parts; eassumption. }
  apply is_int64_spec in I1, I2, I3.
  destruct I1 as [z1 [I1 _]], I2 as [z2 [I2 _]], I3 as [z3 [I3 _]].
  rewrite (split4_inv _ _ Hs).
  apply split_line_data_line;
    try (apply Hp; simpl; tauto);
    try (eapply py_int_no_hash; eassumption).
  eapply py_int_lstrip_not_nil; eassumption.
Qed.

Lemma well_formed_inv (l : text) :
  well_formed l = true ->
  one_line l = true /\
  exists f1 f2 f3 tg,
    split COMMA l = [f1; f2; f3; tg] /\
    is_int64 f1 = true /\ is_int64 f2 = true /\ is_int64 f3 = true.
Proof.
  unfold well_formed. rewrite andb_true_iff. intros [H1 H].
  split; [assumption|].
  destruct (split COMMA l) as [|f1 [|f2 [|f3 [|tg [|]]]]]; try discriminate.
  rewrite !andb_true_iff in H. exists f1, f2, f3, tg. tauto.
Qed.

Lemma record_of_well_formed (l : text) :
  well_formed l = true ->
  record_of (split_line COMMA HASH (l ++ [LF])) = record_of_line l.
Proof.
  intros H. apply well_formed_inv in H.
  destruct H as [_ [f1 [f2 [f3 [tg [Hs [I1 [I2 I3]]]]]]]].
  rewrite (split_line_well_formed _ Hs I1 I2 I3).
  unfold record_of, record_of_line. rewrite Hs. simpl.
  unfold int_or_default. now rewrite py_int_lstrip.
Qed.

Lemma int_or_default_lstrip (f : text) :
  int_or_default (lstrip strip_chars f) = int_or_default f.
Proof. unfold int_or_default. now rewrite py_int_lstrip. Qed.

Lemma overflows_lstrip (f : text) :
  overflows (lstrip strip_chars f) = overflows f.
Proof. unfold overflows. now rewrite py_int_lstrip. Qed.

(** The rows collected from a header and well-formed data lines. *)
Lemma collect_rows_well_formed (header : text) (ls : list text) :
  one_line header = true ->
  forallb well_formed ls = true ->
  collect_rows COMMA 1 (unlines (header :: ls))
  = map (fun l => split_line COMMA HASH (l ++ [LF])) ls.
Proof.
  intros Hh Hls. rewrite forallb_forall in Hls.
  assert (Hone : Forall (fun l => one_line l = true) (header :: ls)).
  { constructor; [assumption|]. apply Forall_forall. intros l Hl.
    now destruct (well_formed_inv _ (Hls l Hl)). }
  unfold collect_rows.
  rewrite universal_newlines_id by (now apply unlines_no_CR).
  rewrite readlines_unlines by assumption.
  simpl. rewrite map_map.
  clear Hone Hh. induction ls as [|l t IH]; simpl; [reflexivity|].
  destruct (well_formed_inv _ (Hls l (or_introl eq_refl)))
    as [_ [f1 [f2 [f3 [tg [Hs [I1 [I2 I3]]]]]]]].
  rewrite (split_line_well_formed _ Hs I1 I2 I3). simpl.
  rewrite IH; [reflexivity|]. intros x Hx. apply Hls. now right.
Qed.

(** ** One row through the converters and into the array *)

Lemma loose_call_U (n : nat) (f : text) : loose_call (U n) f = Ok (Str f).
Proof. reflexivity. Qed.

Opaque loose_call.

Lemma convert_row_wide (r : list text) :
  (4 <= length r)%nat -> row_overflows r = false ->
  convert_row (firstn (length r) (map snd datatypes)) r = Ok (converted r).
Proof.
  destruct r as [|f1 [|f2 [|f3 [|f4 rest]]]]; simpl; try lia.
  intros _. unfold row_overflows. simpl. rewrite !orb_false_iff.
  intros [O1 [O2 [O3 _]]].
  unfold convert_row. simpl.
  rewrite (loose_call_i8 _ O1), (loose_call_i8 _ O2), (loose_call_i8 _ O3).
  rewrite loose_call_U, firstn_nil. reflexivity.
Qed.

Lemma convert_row_overflow (r : list text) :
  (4 <= length r)%nat -> row_overflows r = true ->
  convert_row (firstn (length r) (map snd datatypes)) r = Raise OverflowError.
Proof.
  destruct r as [|f1 [|f2 [|f3 [|f4 rest]]]]; simpl; try lia.
  intros _. unfold row_overflows, convert_row. simpl.
  destruct (overflows f1) eqn:O1;
    [now rewrite (loose_call_i8_overflow _ O1)|rewrite (loose_call_i8 _ O1)].
  destruct (overflows f2) eqn:O2;
    [now rewrite (loose_call_i8_overflow _ O2)|rewrite (loose_call_i8 _ O2)].
  destruct (overflows f3) eqn:O3;
    [now rewrite (loose_call_i8_overflow _ O3)|discriminate].
Qed.

Transparent loose_call.

Lemma store_fields_length (fs : list (string * base)) :
  forall (vs r : list scalar),
    store_fields fs vs = Ok r -> length vs = length fs.
Proof.
  induction fs as [|[n b] fs IH]; intros [|v vs] r H; simpl in *;
    try discriminate; [reflexivity|].
  destruct (store_fields fs vs) eqn:E; [|discriminate].
  f_equal. eapply IH. eassumption.
Qed.

Lemma store_fields_raises (fs : list (string * base)) :
  forall (vs : list scalar) (e : exn),
    store_fields fs vs = Raise e -> e = ValueError.
Proof.
  induction fs as [|[n b] fs IH]; intros [|v vs] e H; simpl in *;
    try congruence.
  destruct (store_fields fs vs) eqn:E; [discriminate|].
  simpl in H. injection H as <-. eapply IH. eassumption.
Qed.

Lemma loose_call_raises (b : base) (f : text) (e : exn) :
  loose_call b f = Raise e -> e = OverflowError.
Proof.
  destruct b; simpl; try discriminate.
  unfold np_int64. destruct (py_int f) as [z|]; [|discriminate].
  destruct (in_int64 z); [discriminate|congruence].
Qed.

Lemma mapM_Raise_inv {A B : Type} (f : A -> result B) (l : list A) (e : exn) :
  mapM f l = Raise e -> exists x, In x l /\ f x = Raise e.
Proof.
  induction l as [|x t IH]; simpl; [discriminate|].
  destruct (f x) as [y|e'] eqn:Hx; simpl.
  - destruct (mapM f t) as [ys|e'] eqn:Ht; simpl; [discriminate|].
    intros H. injection H as <-. destruct (IH eq_refl) as [x' [Hin Hx']].
    exists x'. split; [now right|assumption].
  - intros H. injection H as <-. exists x. split; [now left|assumption].
Qed.

Lemma mapM_map {A B C : Type} (f : B -> result C) (g : A -> B) (l : list A) :
  mapM f (map g l) = mapM (fun x => f (g x)) l.
Proof.
  induction l as [|x t IH]; simpl; [reflexivity|]. now rewrite IH.
Qed.

Lemma convert_row_raises (cs : list base) (r : list text) (e : exn) :
  convert_row cs r = Raise e -> e = OverflowError.
Proof.
  unfold convert_row. intros H. apply mapM_Raise_inv in H.
  destruct H as [[b f] [_ H]]. eapply loose_call_raises. eassumption.
Qed.

Lemma convert_row_length (cs : list base) (r : list text) (vs : list scalar) :
  convert_row cs r = Ok vs -> length vs = Nat.min (length cs) (length r).
Proof.
  unfold convert_row. intros H. apply mapM_length in H.
  now rewrite H, length_combine.
Qed.

(** A row of fewer than four values does not fit the four fields. *)
Lemma narrow_row_rejected (r : list text) (vs : list scalar) :
  (length r < 4)%nat ->
  convert_row (firstn (length r) (map snd datatypes)) r = Ok vs ->
  store_fields datatypes vs = Raise ValueError.
Proof.
  intros Hlen H. apply convert_row_length in H.
  rewrite length_firstn in H.
  destruct (store_fields datatypes vs) as [r'|e] eqn:E.
  - apply store_fields_length in E. simpl in E, H. lia.
  - f_equal. eapply store_fields_raises. eassumption.
Qed.

Lemma store_converted (r : list text) :
  store_fields datatypes (converted r)
  = Ok [ Int64 (int_or_default (nth 0 r []));
         Int64 (int_or_default (nth 1 r []));
         Int64 (int_or_default (nth 2 r []));
         Str (rstrip_nul (firstn 25 (nth 3 r []))) ].
Proof. reflexivity. Qed.

(** ** What [genfromtxt] and [Data.__init__] return *)

Lemma Forall2_pick {A B : Type} (R : A -> B -> Prop) (l : list A) (l' : list B)
  (x : A) :
  Forall2 R l l' -> In x l -> exists y, In y l' /\ R x y.
Proof.
  induction 1 as [|a b t t' Hab _ IH]; intros Hin; [destruct Hin|].
  destruct Hin as [->|Hin].
  - exists b. split; [now left|assumption].
  - destruct (IH Hin) as [y [Hy Hxy]]. exists y. split; [now right|assumption].
Qed.

Lemma loadable_spec (raw : text) :
  loadable raw = true <->
  forall r, In r (collect_rows COMMA 1 raw) ->
    length r = length (hd [] (collect_rows COMMA 1 raw)) /\
    (4 <= length r)%nat /\ row_overflows r = false.
Proof.
  unfold loadable. rewrite forallb_forall.
  split; intros H r Hr; specialize (H r Hr).
  - rewrite !andb_true_iff, Nat.eqb_eq, Nat.leb_le, negb_true_iff in H. tauto.
  - rewrite !andb_true_iff, Nat.eqb_eq, Nat.leb_le, negb_true_iff. tauto.
Qed.

Lemma genfromtxt_loadable (fs : filesystem) (fname : string) (raw : text) :
  fs fname = Some raw -> loadable raw = true ->
  genfromtxt fs fname datatypes COMMA 1 = Ok (loaded raw).
Proof.
  intros Hfs Hl. rewrite loadable_spec in Hl.
  unfold genfromtxt, datasource_open, loaded. rewrite Hfs. cbn [bind].
  set (rows := collect_rows COMMA 1 raw) in *.
  assert (Hu : forallb (fun values => (length values =? length (hd [] rows))%nat)
                 rows = true).
  { apply forallb_forall. intros r Hr. apply Nat.eqb_eq. now apply Hl. }
  rewrite Hu.
  rewrite (mapM_Ok_map _ converted).
  - simpl. unfold np_array. rewrite mapM_map.
    rewrite (mapM_Ok_map _ record_of) by (intros; reflexivity).
    simpl. now rewrite length_map.
  - intros r Hr. destruct (Hl r Hr) as [Hn [H4 Ho]].
    rewrite <- Hn. now apply convert_row_wide.
Qed.

Lemma genfromtxt_Ok_loadable (fs : filesystem) (fname : string) (raw : text)
  (a : ndarray) :
  fs fname = Some raw ->
  genfromtxt fs fname datatypes COMMA 1 = Ok a -> loadable raw = true.
Proof.
  intros Hfs H. unfold genfromtxt, datasource_open in H. rewrite Hfs in H.
  cbn [bind] in H.
  set (rows := collect_rows COMMA 1 raw) in *.
  destruct (forallb _ rows) eqn:Hu; [|discriminate].
  rewrite forallb_forall in Hu.
  destruct (mapM _ rows) as [rows'|] eqn:Hc; [|discriminate].
  simpl in H. unfold np_array in H.
  destruct (mapM _ rows') as [els|] eqn:Hs; [|discriminate].
  apply mapM_Ok_inv in Hc, Hs.
  apply loadable_spec. fold rows. intros r Hr.
  pose proof (Hu r Hr) as Hn. apply Nat.eqb_eq in Hn.
  destruct (@Forall2_pick _ _ _ _ _ r Hc Hr) as [vs [Hvs Hconv]].
  destruct (@Forall2_pick _ _ _ _ _ vs Hs Hvs) as [e [_ Hst]].
  rewrite <- Hn in Hconv.
  split; [assumption|].
  assert (H4 : (4 <= length r)%nat).
  { destruct (Nat.lt_ge_cases (length r) 4) as [Hlt|Hge]; [|assumption].
    rewrite (narrow_row_rejected _ Hlt Hconv) in Hst. discriminate. }
  split; [assumption|].
  destruct (row_overflows r) eqn:Ho; [|reflexivity].
  rewrite (convert_row_overflow _ H4 Ho) in Hconv. discriminate.
Qed.

(** The load raises nothing but the two errors of a bad row. *)
Lemma genfromtxt_raises (fs : filesystem) (fname : string) (raw : text)
  (e : exn) :
  fs fname = Some raw ->
  genfromtxt fs fname datatypes COMMA 1 = Raise e ->
  e = ValueError \/ e = OverflowError.
Proof.
  intros Hfs H. unfold genfromtxt, datasource_open in H. rewrite Hfs in H.
  cbn [bind] in H.
  destruct (forallb _ _); [|left; congruence].
  destruct (mapM _ _) as [rows'|e'] eqn:Hc; simpl in H.
  - unfold np_array in H.
    destruct (mapM _ rows') as [els|e'] eqn:Hs; simpl in H; [discriminate|].
    injection H as <-. apply mapM_Raise_inv in Hs.
    destruct Hs as [vs [_ Hs]].
    destruct (store_fields datatypes vs) eqn:E; [discriminate|].
    simpl in Hs. injection Hs as <-. left.
    eapply store_fields_raises. eassumption.
  - injection H as <-. apply mapM_Raise_inv in Hc.
    destruct Hc as [r [_ Hr]]. right. eapply convert_row_raises. eassumption.
Qed.

Lemma Data_init_of_genfromtxt (fs : filesystem) (fname : string) (raw : text) :
  genfromtxt fs fname datatypes COMMA 1 = Ok (loaded raw) ->
  Data_init fs fname
  = Ok (mk_Data fname (loaded raw) (numeric_view (loaded raw))).
Proof.
  intros H. unfold Data_init. rewrite H. reflexivity.
Qed.

(** [Data.__init__] returns an object exactly for a loadable file, and the
    object is determined by the rows of the file. *)
Lemma Data_init_iff (fs : filesystem) (fname : string) (raw : text) (d : Data) :
  fs fname = Some raw ->
  (Data_init fs fname = Ok d <->
   loadable raw = true /\
   d = mk_Data fname (loaded raw) (numeric_view (loaded raw))).
Proof.
  intros Hfs. split.
  - intros H.
    assert (Hl : loadable raw = true).
    { unfold Data_init in H.
      destruct (genfromtxt fs fname datatypes COMMA 1) as [a|] eqn:Hg;
        [|discriminate].
      eapply genfromtxt_Ok_loadable; eassumption. }
    split; [assumption|].
    rewrite (Data_init_of_genfromtxt _ _ (genfromtxt_loadable _ _ Hfs Hl)) in H.
    congruence.
  - intros [Hl ->].
    apply Data_init_of_genfromtxt. now apply genfromtxt_loadable.
Qed.

Lemma Data_init_inv (fs : filesystem) (fname : string) (d : Data) :
  Data_init fs fname = Ok d ->
  exists raw, fs fname = Some raw /\ loadable raw = true /\
              d = mk_Data fname (loaded raw) (numeric_view (loaded raw)).
Proof.
  intros H. destruct (fs fname) as [raw|] eqn:Hfs.
  - exists raw. split; [reflexivity|]. now apply (Data_init_iff _ _ d Hfs).
  - unfold Data_init, genfromtxt, datasource_open in H. rewrite Hfs in H.
    discriminate.
Qed.

Lemma Data_init_raises (fs : filesystem) (fname : string) (raw : text)
  (e : exn) :
  fs fname = Some raw -> Data_init fs fname = Raise e ->
  e = ValueError \/ e = OverflowError.
Proof.
  intros Hfs H.
  destruct (genfromtxt fs fname datatypes COMMA 1) as [a|e'] eqn:Hg.
  - pose proof (genfromtxt_Ok_loadable _ _ Hfs Hg) as Hl.
    rewrite (Data_init_of_genfromtxt _ _ (genfromtxt_loadable _ _ Hfs Hl)) in H.
    discriminate.
  - unfold Data_init in H. rewrite Hg in H. simpl in H. injection H as <-.
    eapply genfromtxt_raises; eassumption.
Qed.

(** ** The last line of a file *)

Lemma strip_snoc (p : ascii -> bool) (l : text) (c : ascii) :
  p c = true -> strip p (l ++ [c]) = strip p l.
Proof.
  intros Hc. unfold strip. induction l as [|x t IH]; simpl.
  - now rewrite Hc.
  - destruct (p x); [exact IH|].
    change (x :: t ++ [c]) with ((x :: t) ++ [c]). now apply rstrip_snoc.
Qed.

(** The line feed at the end of a line is nothing to the line splitter. *)
Lemma split_line_line_end (delimiter : ascii) (l : text) :
  split_line delimiter HASH (l ++ [LF]) = split_line delimiter HASH l.
Proof.
  unfold split_line.
  assert (E : strip strip_chars (before HASH (l ++ [LF]))
              = strip strip_chars (before HASH l)).
  { destruct (in_dec ascii_dec HASH l) as [Hin|Hout].
    - now rewrite before_app_In.
    - rewrite before_app by assumption. simpl.
      rewrite (before_absent _ _ Hout). now apply strip_snoc. }
  now rewrite E.
Qed.

Lemma readlines_final (s : text) :
  s <> [] -> last s SP <> LF ->
  Forall2 same_line (readlines (s ++ [LF])) (readlines s).
Proof.
  induction s as [|x t IH]; intros Hne Hlast; [congruence|].
  destruct t as [|y t'].
  - simpl in Hlast. simpl.
    destruct (Ascii.eqb_spec x LF) as [->|_]; [congruence|].
    simpl. constructor; [now right|constructor].
  - assert (IH' : Forall2 same_line (readlines ((y :: t') ++ [LF]))
                                    (readlines (y :: t'))).
    { apply IH; [discriminate|exact Hlast]. }
    change (readlines ((x :: y :: t') ++ [LF]))
      with (if Ascii.eqb x LF then [LF] :: readlines ((y :: t') ++ [LF])
            else match readlines ((y :: t') ++ [LF]) with
                 | [] => [[x]]
                 | l :: ls => (x :: l) :: ls
                 end).
    change (readlines (x :: y :: t'))
      with (if Ascii.eqb x LF then [LF] :: readlines (y :: t')
            else match readlines (y :: t') with
                 | [] => [[x]]
                 | l :: ls => (x :: l) :: ls
                 end).
    destruct (Ascii.eqb x LF).
    + constructor; [now left|assumption].
    + destruct IH' as [|a b la lb Hab Hrest].
      * constructor; [now left|constructor].
      * constructor; [|assumption].
        destruct Hab as [-> | ->]; [now left|now right].
Qed.

Lemma map_Forall2 {A B : Type} (R : A -> A -> Prop) (f : A -> B)
  (l l' : list A) :
  (forall a b, R a b -> f a = f b) -> Forall2 R l l' -> map f l = map f l'.
Proof.
  intros Hf. induction 1 as [|a b t t' Hab _ IH]; simpl; [reflexivity|].
  now rewrite (Hf _ _ Hab), IH.
Qed.

(** A file is read the same with and without its final line feed. *)
Lemma collect_rows_final_newline (k : nat) (s : text) :
  ~ In CR s -> s <> [] -> last s SP <> LF ->
  collect_rows COMMA k (s ++ [LF]) = collect_rows COMMA k s.
Proof.
  intros Hcr Hne Hlast. unfold collect_rows.
  rewrite !universal_newlines_id; [|assumption|].
  - f_equal. rewrite <- !skipn_map. f_equal.
    apply (map_Forall2 (R := same_line)); [|now apply readlines_final].
    intros a b [->| ->]; [reflexivity|apply split_line_line_end].
  - rewrite in_app_iff. simpl. intros [H|[H|[]]]; [tauto|discriminate].
Qed.

Lemma unlines_last (ls : list text) :
  ls <> [] -> unlines ls = (unlines (removelast ls) ++ last ls []) ++ [LF].
Proof.
  induction ls as [|l t IH]; intros Hne; [congruence|].
  destruct t as [|l' t'].
  - simpl. now rewrite app_nil_r.
  - change (unlines (l :: l' :: t')) with ((l ++ [LF]) ++ unlines (l' :: t')).
    rewrite IH by discriminate.
    change (removelast (l :: l' :: t')) with (l :: removelast (l' :: t')).
    change (last (l :: l' :: t') []) with (last (l' :: t') []).
    change (unlines (l :: removelast (l' :: t')))
      with ((l ++ [LF]) ++ unlines (removelast (l' :: t'))).
    now rewrite <- !app_assoc.
Qed.

Lemma last_In {A : Type} (l : list A) (d : A) : l <> [] -> In (last l d) l.
Proof.
  induction l as [|x t IH]; intros Hne; [congruence|].
  destruct t as [|y t']; [now left|]. right. apply IH. discriminate.
Qed.

Lemma last_app_r {A : Type} (l l' : list A) (d : A) :
  l' <> [] -> last (l ++ l') d = last l' d.
Proof.
  intros Hne. induction l as [|x t IH]; [reflexivity|].
  change ((x :: t) ++ l') with (x :: (t ++ l')).
  destruct (t ++ l') eqn:E; [|exact IH].
  apply app_eq_nil in E. destruct E. contradiction.
Qed.

(** The rows of a file of a header and well-formed data lines do not
    depend on the line feed of its last line. *)
Lemma collect_rows_file_text (header : text) (ls : list text) (b : bool) :
  one_line header = true -> forallb well_formed ls = true ->
  collect_rows COMMA 1 (file_text (header :: ls) b)
  = collect_rows COMMA 1 (unlines (header :: ls)).
Proof.
  intros Hh Hls. destruct b; [reflexivity|]. unfold file_text.
  rewrite forallb_forall in Hls.
  assert (Hone : forall l, In l (header :: ls) -> one_line l = true).
  { intros l [<-|Hl]; [assumption|].
    now destruct (well_formed_inv _ (Hls l Hl)). }
  set (L := header :: ls) in *.
  assert (HL : L <> []) by discriminate.
  rewrite (unlines_last HL). rewrite removelast_last.
  destruct (last L []) as [|c x] eqn:Ex.
  - assert (Els : ls = []).
    { destruct ls as [|l0 t]; [reflexivity|].
      assert (Hin : In (last L []) (l0 :: t)).
      { unfold L. change (last (header :: l0 :: t) [])
          with (last (l0 :: t) []). apply last_In. discriminate. }
      rewrite Ex in Hin. apply Hls in Hin. discriminate. }
    subst ls. unfold L in *. simpl in Ex. subst header. reflexivity.
  - rewrite <- Ex. symmetry. apply collect_rows_final_newline.
    + rewrite in_app_iff. intros [H|H].
      * revert H. apply unlines_no_CR. apply Forall_forall.
        intros l Hl. apply Hone. destruct L as [|h t]; [destruct Hl|].
        clear - Hl. revert h Hl. induction t as [|y t' IH]; intros h Hl;
          [destruct Hl|].
        simpl in Hl. destruct Hl as [<-|Hl]; [now left|].
        right. now apply (IH y).
      * assert (Ho : one_line (last L []) = true)
          by (apply Hone; now apply last_In).
        apply one_line_spec in Ho. tauto.
    + rewrite Ex. destruct (unlines (removelast L)); discriminate.
    + rewrite last_app_r by (rewrite Ex; discriminate).
      assert (Ho : one_line (last L []) = true)
        by (apply Hone; now apply last_In).
      apply one_line_spec in Ho. intros E. apply (proj1 Ho).
      rewrite <- E. apply last_In. rewrite Ex. discriminate.
Qed.

(** ** The loaded arrays *)

Lemma loaded_dt (raw : text) : dt (loaded raw) = Struct datatypes.
Proof. reflexivity. Qed.

Lemma loaded_data (raw : text) :
  data (loaded raw) = map record_of (collect_rows COMMA 1 raw).
Proof. reflexivity. Qed.

Lemma loaded_shape (raw : text) :
  shape (loaded raw)
  = if (length (collect_rows COMMA 1 raw) =? 1)%nat then []
    else [length (collect_rows COMMA 1 raw)].
Proof.
  unfold loaded, squeeze. simpl.
  now destruct (length (collect_rows COMMA 1 raw) =? 1)%nat.
Qed.

(** The rows of a file made of a header and well-formed data lines. *)
Lemma well_formed_loadable (header : text) (ls : list text) :
  one_line header = true -> forallb well_formed ls = true ->
  loadable (unlines (header :: ls)) = true.
Proof.
  intros Hh Hls. apply loadable_spec.
  rewrite (collect_rows_well_formed _ _ Hh Hls).
  rewrite forallb_forall in Hls.
  assert (Hrow : forall l, In l ls ->
            length (split_line COMMA HASH (l ++ [LF])) = 4%nat /\
            row_overflows (split_line COMMA HASH (l ++ [LF])) = false).
  { intros l Hl.
    destruct (well_formed_inv _ (Hls l Hl))
      as [_ [f1 [f2 [f3 [tg [Hs [I1 [I2 I3]]]]]]]].
    rewrite (split_line_well_formed _ Hs I1 I2 I3).
    split; [reflexivity|].
    unfold row_overflows. simpl.
    rewrite overflows_lstrip.
    now rewrite !is_int64_no_overflow. }
  intros r Hr. apply in_map_iff in Hr. destruct Hr as [l [<- Hl]].
  destruct (Hrow l Hl) as [H4 Ho].
  split; [|split; [lia|assumption]].
  rewrite H4. destruct ls as [|l0 t]; [destruct Hl|].
  simpl. symmetry. apply Hrow. now left.
Qed.

Lemma well_formed_loaded_data (header : text) (ls : list text) :
  one_line header = true -> forallb well_formed ls = true ->
  map record_of (collect_rows COMMA 1 (unlines (header :: ls)))
  = map record_of_line ls.
Proof.
  intros Hh Hls. rewrite (collect_rows_well_formed _ _ Hh Hls).
  rewrite map_map. apply map_ext_in. intros l Hl.
  apply record_of_well_formed.
  rewrite forallb_forall in Hls. now apply Hls.
Qed.

(** ** Loading *)

Lemma loadable_rows (raw raw' : text) :
  collect_rows COMMA 1 raw = collect_rows COMMA 1 raw' ->
  loadable raw = loadable raw' /\ loaded raw = loaded raw'.
Proof.
  intros E. unfold loadable, loaded. now rewrite E.
Qed.

(** A file made of a header line and N well-formed data lines (its last
    line with or without a line feed) loads, and the array of the records
    is the one-dimensional array of the records of the lines, in the order
    of the lines and without the header, with its axes of length one
    squeezed out. *)
Lemma load_of_well_formed_lines :
  forall (fs : filesystem) (fname : string) (header : text) (ls : list text)
         (final_newline : bool),
    fs fname = Some (file_text (header :: ls) final_newline) ->
    one_line header = true ->
    forallb well_formed ls = true ->
    exists d,
      Data_init fs fname = Ok d /\
      sdata d = squeeze (mk_ndarray (Struct datatypes) [length ls]
                                    (map record_of_line ls)).
Proof.
  intros fs fname header ls final_newline Hfs Hh Hls.
  destruct (loadable_rows _ _
              (@collect_rows_file_text header ls final_newline Hh Hls))
    as [El Ed].
  pose proof (well_formed_loadable _ _ Hh Hls) as Hl.
  pose proof (well_formed_loaded_data _ _ Hh Hls) as Hd.
  eexists. split.
  - apply (Data_init_iff _ _ _ Hfs). split; [congruence|reflexivity].
  - assert (Hn : length (collect_rows COMMA 1 (unlines (header :: ls)))
                 = length ls).
    { rewrite <- (length_map record_of), Hd. apply length_map. }
    cbn [sdata]. rewrite Ed. unfold loaded. now rewrite Hd, Hn.
Qed.

Lemma nth_error_lt {A : Type} (l : list A) (i : nat) (x : A) :
  nth_error l i = Some x -> (i < length l)%nat.
Proof. intros H. apply nth_error_Some. congruence. Qed.

Lemma firstn_skipn_nth {A : Type} (l : list A) (i : nat) (x : A) :
  nth_error l i = Some x -> firstn 1 (skipn i l) = [x].
Proof.
  revert i. induction l as [|a t IH]; intros [|i] H; try discriminate.
  - injection H as <-. reflexivity.
  - simpl. now apply IH.
Qed.

(** For other than one data line the records can be counted and read one
    by one: the dataset has length N and its entry [i] is the record of
    the [i]-th data line. *)
Lemma records_of_well_formed_lines :
  forall (fs : filesystem) (fname : string) (header : text) (ls : list text)
         (final_newline : bool),
    fs fname = Some (file_text (header :: ls) final_newline) ->
    one_line header = true ->
    forallb well_formed ls = true ->
    length ls <> 1%nat ->
    exists d,
      Data_init fs fname = Ok d /\
      len (sdata d) = Ok (length ls) /\
      forall (i : nat) (l : text),
        nth_error ls i = Some l ->
        getitem_int (sdata d) i
        = Ok (mk_ndarray (Struct datatypes) [] [record_of_line l]).
Proof.
  intros fs fname header ls final_newline Hfs Hh Hls Hn.
  destruct (@load_of_well_formed_lines _ _ _ _ _ Hfs Hh Hls) as [d [Hd Hs]].
  exists d. split; [assumption|]. rewrite Hs.
  unfold squeeze, len, getitem_int. cbn [shape dt data filter].
  destruct (Nat.eqb_spec (length ls) 1) as [E|_]; [contradiction|].
  cbn [negb]. split; [reflexivity|].
  intros i l Hl.
  rewrite (proj2 (Nat.ltb_lt _ _) (nth_error_lt _ _ Hl)).
  cbn [fold_right]. rewrite Nat.mul_1_r.
  rewrite (@firstn_skipn_nth _ (map record_of_line ls) i (record_of_line l));
    [reflexivity|].
  now rewrite nth_error_map, Hl.
Qed.

(** C1, at a file of a header line and a single well-formed data line.
    The load returns, but what it returns is no sequence of one record:
    the array of the records is zero-dimensional, so it has no length
    ([len] raises [TypeError]) and no entry 0 ([IndexError]). *)
Theorem single_row_load_is_no_sequence :
  one_row_file
  = file_text [header_line; txt "1,2,3," ++ Tags_value PFOO] true /\
  one_line header_line = true /\
  forallb well_formed [txt "1,2,3," ++ Tags_value PFOO] = true /\
  exists d,
    Data_init (only one_row_file) "data.csv" = Ok d /\
    sdata d = mk_ndarray (Struct datatypes) []
                [T [Int64 1; Int64 2; Int64 3; Str (Tags_value PFOO)]] /\
    len (sdata d) = Raise TypeError /\
    getitem_int (sdata d) 0 = Raise IndexError.
Proof.
  split; [reflexivity|]. split; [reflexivity|].
  split; [vm_compute; reflexivity|].
  eexists. split; [vm_compute; reflexivity|].
  repeat split.
Qed.

(** ** The numeric view *)

Lemma Data_init_udata (fs : filesystem) (fname : string) (d : Data) :
  Data_init fs fname = Ok d -> udata d = numeric_view (sdata d).
Proof.
  intros H. apply Data_init_inv in H.
  destruct H as [raw [_ [_ ->]]]. reflexivity.
Qed.

(** A flat list of pieces of one length, cut at the [i]-th piece. *)
Lemma flat_map_chunk {A B : Type} (g : A -> list B) (k : nat) (l : list A) :
  (forall x, In x l -> length (g x) = k) ->
  forall (i : nat) (x : A),
    nth_error l i = Some x ->
    firstn k (skipn (i * k) (flat_map g l)) = g x.
Proof.
  induction l as [|a t IH]; intros Hk i x Hx.
  - destruct i; discriminate.
  - pose proof (Hk a (or_introl eq_refl)) as Ha.
    destruct i as [|i]; simpl in Hx |- *.
    + injection Hx as <-. rewrite firstn_app, Ha, Nat.sub_diag. simpl.
      rewrite app_nil_r. apply firstn_all2. lia.
    + rewrite skipn_app, Ha.
      rewrite skipn_all2 by lia. simpl.
      replace (k + i * k - k)%nat with (i * k)%nat by lia.
      apply IH; [|assumption]. intros y Hy. apply Hk. now right.
Qed.

Lemma flat_map_over_map {A B C : Type} (g : B -> list C) (h : A -> B)
  (l : list A) :
  flat_map g (map h l) = flat_map (fun x => g (h x)) l.
Proof.
  induction l as [|a t IH]; simpl; [reflexivity|]. now rewrite IH.
Qed.

(** The numeric view of a dataset of other than exactly one record: as
    many rows as records, and row [i] holds abs, rel and del of record
    [i], in this order. *)
Lemma numeric_view_rows (fs : filesystem) (fname : string) (d : Data) :
  Data_init fs fname = Ok d ->
  length (data (sdata d)) <> 1%nat ->
  len (udata d) = Ok (length (data (sdata d))) /\
  forall (i : nat) (e : elem),
    nth_error (data (sdata d)) i = Some e ->
    getitem_int (udata d) i
    = Ok (mk_ndarray (Plain i8) [3%nat]
            [ V (get ABS e); V (get REL e); V (get DEL e) ]).
Proof.
  intros H Hn. apply Data_init_inv in H.
  destruct H as [raw [_ [_ ->]]]. cbn [sdata udata] in *.
  rewrite loaded_data, length_map in Hn.
  assert (Hs : shape (loaded raw) = [length (data (loaded raw))]).
  { rewrite loaded_shape, loaded_data, length_map.
    destruct (Nat.eqb_spec (length (collect_rows COMMA 1 raw)) 1);
      [contradiction|reflexivity]. }
  unfold len, getitem_int, numeric_view. cbn [shape dt data].
  rewrite Hs. cbn [app]. split; [reflexivity|].
  intros i e He. rewrite (proj2 (Nat.ltb_lt _ _) (nth_error_lt _ _ He)).
  f_equal. f_equal. cbn [fold_right Nat.mul].
  rewrite loaded_data in He |- *. rewrite !map_map in *.
  rewrite nth_error_map in He.
  destruct (nth_error (collect_rows COMMA 1 raw) i) as [r|] eqn:Er;
    [|discriminate].
  injection He as <-.
  rewrite flat_map_over_map.
  change (1 + (1 + (1 + 0)))%nat with 3%nat.
  erewrite (@flat_map_chunk _ _ _ 3%nat); [reflexivity| |eassumption].
  intros; reflexivity.
Qed.

(** The numeric view of a dataset of exactly one record has one dimension:
    the three numbers of the record. *)
Lemma numeric_view_scalar (fs : filesystem) (fname : string) (d : Data) :
  Data_init fs fname = Ok d ->
  length (data (sdata d)) = 1%nat ->
  shape (sdata d) = [] /\ shape (udata d) = [3%nat] /\
  len (udata d) = Ok 3%nat.
Proof.
  intros H Hn. apply Data_init_inv in H.
  destruct H as [raw [_ [_ ->]]]. cbn [sdata udata] in *.
  rewrite loaded_data, length_map in Hn.
  unfold len, numeric_view. cbn [shape].
  rewrite loaded_shape, Hn. repeat split.
Qed.

(** C2, at a file of a single data row.  The dataset holds one record, but
    its numeric view is a one-dimensional array of three numbers: its
    length is 3, not 1, and its entry 0 is the number abs, not a row
    (abs, rel, del). *)
Theorem single_row_numeric_view_is_flat :
  exists d,
    Data_init (only one_row_file) "data.csv" = Ok d /\
    data (sdata d) = [T [Int64 1; Int64 2; Int64 3; Str (Tags_value PFOO)]] /\
    udata d = mk_ndarray (Plain i8) [3%nat]
                         [V (Int64 1); V (Int64 2); V (Int64 3)] /\
    len (udata d) = Ok 3%nat /\
    getitem_int (udata d) 0 = Ok (mk_ndarray (Plain i8) [] [V (Int64 1)]).
Proof.
  eexists. split; [vm_compute; reflexivity|].
  repeat split.
Qed.

(** ** Rows that make the load fail *)

(** C3 as stated fails.  A data line with a numeric field that is no
    integer does not make the load fail: the field is stored as -1.  Nor
    does every line without exactly four fields: an empty line is skipped,
    and rows of five fields each are loaded by their first four. *)
Lemma nonnumeric_field_loads :
  (malformed (txt "x,2,3,t") = true /\
   exists d,
     Data_init (only nonnumeric_file) "data.csv" = Ok d /\
     sdata d = mk_ndarray (Struct datatypes) [2%nat]
                 [ T [Int64 (-1); Int64 2; Int64 3; Str (txt "t")];
                   T [Int64 4; Int64 5; Int64 6; Str (txt "u")] ]) /\
  (malformed (txt "") = true /\
   exists d,
     Data_init (only blank_line_file) "data.csv" = Ok d /\
     sdata d = mk_ndarray (Struct datatypes) [2%nat]
                 [ T [Int64 1; Int64 2; Int64 3; Str (txt "t")];
                   T [Int64 4; Int64 5; Int64 6; Str (txt "u")] ]) /\
  (malformed (txt "1,2,3,t,9") = true /\
   exists d,
     Data_init (only wide_rows_file) "data.csv" = Ok d /\
     sdata d = mk_ndarray (Struct datatypes) [2%nat]
                 [ T [Int64 1; Int64 2; Int64 3; Str (txt "t")];
                   T [Int64 4; Int64 5; Int64 6; Str (txt "u")] ]).
Proof.
  repeat split; try reflexivity;
    (eexists; split; vm_compute; reflexivity).
Qed.

(** The outcome of a load, by the rows the loader collects. *)
Lemma load_outcome_by_rows :
  forall (fs : filesystem) (fname : string) (raw : text),
    fs fname = Some raw ->
    (forall r,
        In r (collect_rows COMMA 1 raw) ->
        (length r < 4)%nat \/
        length r <> length (hd [] (collect_rows COMMA 1 raw)) ->
        (exists e, Data_init fs fname = Raise e /\
                   (e = ValueError \/ e = OverflowError)) /\
        (length r <> length (hd [] (collect_rows COMMA 1 raw)) ->
         Data_init fs fname = Raise ValueError)) /\
    (loadable raw = true ->
     exists d, Data_init fs fname = Ok d /\ sdata d = loaded raw).
Proof.
  intros fs fname raw Hfs. split.
  - intros r Hr Hbad. split.
    + destruct (Data_init fs fname) as [d|e] eqn:Hd.
      * apply (Data_init_iff _ _ d Hfs) in Hd. destruct Hd as [Hl _].
        rewrite loadable_spec in Hl. specialize (Hl r Hr). lia.
      * exists e. split; [reflexivity|].
        eapply Data_init_raises; eassumption.
    + intros Hne. unfold Data_init, genfromtxt, datasource_open. rewrite Hfs.
      cbn [bind].
      destruct (forallb _ _) eqn:Hu; [|reflexivity].
      rewrite forallb_forall in Hu. specialize (Hu r Hr).
      apply Nat.eqb_eq in Hu. contradiction.
  - intros Hl. eexists. split.
    + apply (Data_init_iff _ _ _ Hfs). split; [assumption|reflexivity].
    + reflexivity.
Qed.

(** The values the line splitter gives for a line. *)
Lemma split_line_values (l : text) :
  split_line COMMA HASH l = if has_value l then values_of l else [].
Proof.
  unfold has_value, split_line, values_of.
  now destruct (strip strip_chars (before HASH l)).
Qed.

(** The lines that keep a value are those the loader does not pass
    over. *)
Lemma has_value_not_ignored (l : text) : has_value l = negb (is_ignored l).
Proof.
  unfold is_ignored. rewrite split_line_values.
  destruct (has_value l); [|reflexivity].
  unfold values_of.
  destruct (split COMMA (strip strip_chars (before HASH l))) eqn:Es;
    [|reflexivity].
  now apply split_not_nil in Es.
Qed.

Lemma values_of_not_nil (l : text) : (length (values_of l) =? 0)%nat = false.
Proof.
  unfold values_of.
  destruct (split COMMA (strip strip_chars (before HASH l))) eqn:Es;
    [|reflexivity].
  now apply split_not_nil in Es.
Qed.

(** The rows the loader collects are the values of the data lines. *)
Lemma collect_rows_data_lines (raw : text) :
  collect_rows COMMA 1 raw = map values_of (data_lines raw).
Proof.
  unfold collect_rows, data_lines.
  induction (skipn 1 (readlines (universal_newlines raw))) as [|l t IH];
    [reflexivity|].
  cbn [map filter]. rewrite split_line_values.
  destruct (has_value l); cbn [length Nat.eqb negb].
  - rewrite values_of_not_nil. cbn [negb map]. now rewrite IH.
  - exact IH.
Qed.

Lemma hd_values (dl : list text) (line : text) :
  In line dl -> hd [] (map values_of dl) = values_of (hd [] dl).
Proof. destruct dl; [intros []|reflexivity]. Qed.

(** The array a file is loaded as, by its data lines. *)
Lemma loaded_data_lines (raw : text) :
  loaded raw
  = squeeze (mk_ndarray (Struct datatypes) [length (data_lines raw)]
               (map (fun line => record_of (values_of line))
                    (data_lines raw))).
Proof.
  unfold loaded. now rewrite collect_rows_data_lines, length_map, map_map.
Qed.

(** C3, amended.  The load fails when a data line (a line after the first
    that keeps a value once its comment is cut off and it is stripped) has
    fewer than four values, or a number of values other than that of the
    first data line; the error is a [ValueError], or the [OverflowError]
    of an integer out of the 64-bit range, and it is a [ValueError]
    whenever the numbers of values differ.  The outcome of a load is an
    error or a dataset, never both: a file whose data lines have one
    number of values, at least four, and no integer out of range, is
    loaded whole, one record per data line, a numeric value that is no
    integer stored as -1. *)
Theorem load_fails_on_bad_field_count :
  forall (fs : filesystem) (fname : string) (raw : text),
    fs fname = Some raw ->
    (forall line,
        In line (data_lines raw) ->
        (length (values_of line) < 4)%nat \/
        length (values_of line)
        <> length (values_of (hd [] (data_lines raw))) ->
        (exists e, Data_init fs fname = Raise e /\
                   (e = ValueError \/ e = OverflowError)) /\
        (length (values_of line)
         <> length (values_of (hd [] (data_lines raw))) ->
         Data_init fs fname = Raise ValueError)) /\
    ((forall line,
         In line (data_lines raw) ->
         length (values_of line)
         = length (values_of (hd [] (data_lines raw))) /\
         (4 <= length (values_of line))%nat /\
         row_overflows (values_of line) = false) ->
     exists d,
       Data_init fs fname = Ok d /\
       sdata d
       = squeeze (mk_ndarray (Struct datatypes) [length (data_lines raw)]
                    (map (fun line => record_of (values_of line))
                         (data_lines raw)))).
Proof.
  intros fs fname raw Hfs.
  destruct (load_outcome_by_rows _ _ Hfs) as [Hbad Hgood].
  rewrite collect_rows_data_lines in Hbad. split.
  - intros line Hin Hb.
    rewrite <- (hd_values _ _ Hin) in *.
    apply (Hbad (values_of line)); [|assumption].
    now apply in_map.
  - intros Hall.
    destruct Hgood as [d [Hd Hs]].
    + apply loadable_spec. rewrite collect_rows_data_lines.
      intros r Hr. apply in_map_iff in Hr. destruct Hr as [line [<- Hin]].
      rewrite (hd_values _ _ Hin). now apply Hall.
    + exists d. split; [assumption|]. now rewrite Hs, loaded_data_lines.
Qed.

Lemma load_fails_on_bad_field_count_witness :
  ((exists e, Data_init (only short_row_file) "data.csv" = Raise e /\
              (e = ValueError \/ e = OverflowError)) /\
   Data_init (only short_row_file) "data.csv" = Raise ValueError) /\
  exists d,
    Data_init (only nonnumeric_file) "data.csv" = Ok d /\
    sdata d
    = squeeze (mk_ndarray (Struct datatypes)
                 [length (data_lines nonnumeric_file)]
                 (map (fun line => record_of (values_of line))
                      (data_lines nonnumeric_file))).
Proof.
  split.
  - pose proof (proj1 (@load_fails_on_bad_field_count
                         (only short_row_file) "data.csv" short_row_file
                         eq_refl)
                  (txt "4,5,6" ++ [LF])) as H.
    assert (Hin : In (txt "4,5,6" ++ [LF]) (data_lines short_row_file)).
    { vm_compute. right. left. reflexivity. }
    assert (Hlen : (length (values_of (txt "4,5,6" ++ [LF])) < 4)%nat)
      by (vm_compute; lia).
    destruct (H Hin (or_introl Hlen)) as [H1 H2].
    split; [exact H1|].
    apply H2. vm_compute. discriminate.
  - apply (proj2 (@load_fails_on_bad_field_count
                    (only nonnumeric_file) "data.csv" nonnumeric_file
                    eq_refl)).
    intros line Hin. vm_compute in Hin.
    destruct Hin as [<-|[<-|[]]]; vm_compute; repeat split; lia.
Defined.

(** ** The stored tag *)

(** C6 as stated fails: the tag field [foo#bar] of the line is stored as
    [foo], which is not the first 25 characters of the field. *)
Lemma tag_with_hash_is_cut :
  well_formed (txt "1,2,3,foo#bar") = true /\
  nth 3 (split COMMA (txt "1,2,3,foo#bar")) [] = txt "foo#bar" /\
  exists d e,
    Data_init (only hash_file) "data.csv" = Ok d /\
    nth_error (data (sdata d)) 0 = Some e /\
    tag_of e = txt "foo" /\
    tag_of e <> firstn 25 (nth 3 (split COMMA (txt "1,2,3,foo#bar")) []).
Proof.
  split; [reflexivity|]. split; [reflexivity|].
  eexists. eexists. split; [vm_compute; reflexivity|].
  split; [reflexivity|]. split; [reflexivity|].
  vm_compute. discriminate.
Qed.

Lemma lstrip_length (p : ascii -> bool) (s : text) :
  (length (lstrip p s) <= length s)%nat.
Proof.
  induction s as [|x t IH]; simpl; [lia|].
  destruct (p x); simpl; lia.
Qed.

Lemma rstrip_length (p : ascii -> bool) (s : text) :
  (length (rstrip p s) <= length s)%nat.
Proof.
  unfold rstrip. rewrite length_rev.
  rewrite <- (length_rev s). apply lstrip_length.
Qed.

Lemma rstrip_idem (p : ascii -> bool) (s : text) :
  rstrip p (rstrip p s) = rstrip p s.
Proof.
  unfold rstrip. rewrite rev_involutive.
  now rewrite (lstrip_lstrip p p) by auto.
Qed.

Lemma stored_tag_length (s : text) :
  (length (rstrip_nul (firstn 25 s)) <= 25)%nat.
Proof.
  unfold rstrip_nul.
  pose proof (rstrip_length (Ascii.eqb NUL) (firstn 25 s)) as H.
  rewrite length_firstn in H. lia.
Qed.

(** C6, amended.  A loaded dataset has one record per data line (a line
    after the first that keeps a value), and the tag of the [i]-th record
    is the first 25 characters, without the NUL characters they end in, of
    the fourth value of the [i]-th data line, the values of a line being
    its comma-separated fields once the comment (from the first [#]) is
    cut off the line and spaces and line ends are stripped from both ends
    of the line.  The record is the one read at index [i] of the dataset,
    or the dataset itself when it has a single record and no axis. *)
Theorem stored_tag_is_truncated_value :
  forall (fs : filesystem) (fname : string) (raw : text) (d : Data),
    fs fname = Some raw ->
    Data_init fs fname = Ok d ->
    length (data (sdata d)) = length (data_lines raw) /\
    forall (i : nat) (line : text),
      nth_error (data_lines raw) i = Some line ->
      exists e,
        nth_error (data (sdata d)) i = Some e /\
        (if (length (data_lines raw) =? 1)%nat
         then sdata d = mk_ndarray (Struct datatypes) [] [e]
         else getitem_int (sdata d) i
              = Ok (mk_ndarray (Struct datatypes) [] [e])) /\
        tag_of e = rstrip_nul (firstn 25 (nth 3 (values_of line) [])) /\
        (length (tag_of e) <= 25)%nat.
Proof.
  intros fs fname raw d Hfs Hd.
  apply (Data_init_iff _ _ d Hfs) in Hd. destruct Hd as [_ ->].
  cbn [sdata]. rewrite loaded_data_lines.
  set (dl := data_lines raw).
  set (rec := fun line => record_of (values_of line)).
  unfold squeeze. cbn [data dt shape].
  split; [apply length_map|].
  intros i line Hl. exists (rec line).
  assert (He : nth_error (map rec dl) i = Some (rec line))
    by (now rewrite nth_error_map, Hl).
  split; [exact He|]. split.
  - unfold getitem_int. cbn [filter shape dt data].
    destruct (Nat.eqb_spec (length dl) 1) as [E|E]; cbn [negb].
    + destruct dl as [|x [|y t]]; try discriminate.
      destruct i as [|i]; [|destruct i; discriminate].
      injection Hl as <-. reflexivity.
    + cbn [shape dt data].
      rewrite (proj2 (Nat.ltb_lt _ _) (nth_error_lt _ _ Hl)).
      cbn [fold_right]. rewrite Nat.mul_1_r.
      now rewrite (firstn_skipn_nth _ _ He).
  - split; [reflexivity|]. apply stored_tag_length.
Qed.

Lemma stored_tag_is_truncated_value_witness :
  exists e,
    nth_error
      (data (sdata (mk_Data "data.csv" (loaded hash_file)
                            (numeric_view (loaded hash_file))))) 0 = Some e /\
    (if (length (data_lines hash_file) =? 1)%nat
     then sdata (mk_Data "data.csv" (loaded hash_file)
                         (numeric_view (loaded hash_file)))
          = mk_ndarray (Struct datatypes) [] [e]
     else getitem_int (sdata (mk_Data "data.csv" (loaded hash_file)
                                      (numeric_view (loaded hash_file)))) 0
          = Ok (mk_ndarray (Struct datatypes) [] [e])) /\
    tag_of e
    = rstrip_nul
        (firstn 25 (nth 3 (values_of (txt "1,2,3,foo#bar" ++ [LF])) [])) /\
    (length (tag_of e) <= 25)%nat.
Proof.
  assert (Hd : Data_init (only hash_file) "data.csv"
               = Ok (mk_Data "data.csv" (loaded hash_file)
                             (numeric_view (loaded hash_file))))
    by (vm_compute; reflexivity).
  apply (proj2 (@stored_tag_is_truncated_value
                  (only hash_file) "data.csv" hash_file _ eq_refl Hd)).
  vm_compute. reflexivity.
Defined.

(** ** Filtering by tag *)

Lemma mask_select (P : elem -> bool) (l : list elem) :
  map snd
    (filter fst
       (combine
          (flat_map (fun e => repeat (truth e) 1)
                    (map (fun e => V (Bool (P e))) l))
          l))
  = filter P l.
Proof.
  induction l as [|a t IH]; [reflexivity|].
  simpl. destruct (P a); simpl; [f_equal|]; exact IH.
Qed.

Lemma mask_count (P : elem -> bool) (l : list elem) :
  length (filter truth (map (fun e => V (Bool (P e))) l))
  = length (filter P l).
Proof.
  induction l as [|a t IH]; simpl; [reflexivity|].
  destruct (P a); simpl; now rewrite IH.
Qed.

Lemma lookup_tag :
  lookup_field (Fields_value TAG) datatypes = Some (3%nat, U 25).
Proof. reflexivity. Qed.

(** The column of the tags of a loaded array. *)
Lemma getitem_field_tag (raw : text) :
  getitem_field (loaded raw) (Fields_value TAG)
  = Ok (mk_ndarray (Plain (U 25)) (shape (loaded raw))
          (map (fun e => V (Str (tag_of e))) (data (loaded raw)))).
Proof.
  unfold getitem_field. rewrite loaded_dt, lookup_tag.
  f_equal. f_equal. rewrite loaded_data, !map_map.
  apply map_ext. reflexivity.
Qed.

(** On a dataset whose array of records is one-dimensional, that is, a
    dataset of other than exactly one record, the filter returns the
    records whose tag is one of the values up to trailing NULs, in their
    order. *)
Lemma filter_by_tag_vector (fs : filesystem) (fname : string) (d : Data)
  (values : list text) :
  Data_init fs fname = Ok d ->
  length (data (sdata d)) <> 1%nat ->
  outcome (filter_sdata_by_tag values) d
  = Ok (mk_ndarray (Struct datatypes)
          [length (filter (tag_in values) (data (sdata d)))]
          (filter (tag_in values) (data (sdata d)))).
Proof.
  intros H Hn. apply Data_init_inv in H.
  destruct H as [raw [_ [_ ->]]]. cbn [sdata] in *.
  unfold outcome, filter_sdata_by_tag. cbn [fst sdata].
  rewrite getitem_field_tag. cbn [bind].
  unfold getitem_mask, in1d. cbn [shape data dt].
  assert (Hs : shape (loaded raw) = [length (data (loaded raw))]).
  { rewrite loaded_shape. rewrite loaded_data, length_map in Hn |- *.
    destruct (Nat.eqb_spec (length (collect_rows COMMA 1 raw)) 1);
      [contradiction|reflexivity]. }
  rewrite Hs, !length_map, Nat.eqb_refl, loaded_dt.
  rewrite map_map. cbn [fold_right].
  rewrite (mask_count (fun e => existsb (elem_is (V (Str (tag_of e)))) values)).
  rewrite (mask_select (fun e => existsb (elem_is (V (Str (tag_of e)))) values)).
  reflexivity.
Qed.

(** On a dataset of exactly one record the filter raises, whatever the
    tags asked for. *)
Lemma filter_by_tag_scalar (fs : filesystem) (fname : string) (d : Data)
  (values : list text) :
  Data_init fs fname = Ok d ->
  length (data (sdata d)) = 1%nat ->
  outcome (filter_sdata_by_tag values) d = Raise IndexError.
Proof.
  intros H Hn. apply Data_init_inv in H.
  destruct H as [raw [_ [_ ->]]]. cbn [sdata] in *.
  unfold outcome, filter_sdata_by_tag. cbn [fst sdata].
  rewrite getitem_field_tag. cbn [bind].
  unfold getitem_mask, in1d. cbn [shape].
  rewrite loaded_data, length_map in Hn.
  now rewrite loaded_shape, Hn.
Qed.

(** C4, at a file of a single data row.  The array of the records is
    zero-dimensional and the mask of [in1d] has one dimension: the filter
    raises [IndexError] instead of returning the record, whose tag is the
    value asked for. *)
Theorem single_row_filter_by_tag_raises :
  exists d,
    Data_init (only one_row_file) "data.csv" = Ok d /\
    data (sdata d) = [T [Int64 1; Int64 2; Int64 3; Str (Tags_value PFOO)]] /\
    filter (has_tag [Tags_value PFOO]) (data (sdata d)) = data (sdata d) /\
    outcome (filter_sdata_by_tag [Tags_value PFOO]) d = Raise IndexError.
Proof.
  eexists. split; [vm_compute; reflexivity|].
  repeat split.
Qed.

(** C9, at a file of a single data row: with no tag value at all the
    filter raises [IndexError] instead of returning an empty array. *)
Theorem single_row_filter_by_no_tag_raises :
  exists d,
    Data_init (only one_row_file) "data.csv" = Ok d /\
    length (data (sdata d)) = 1%nat /\
    outcome (filter_sdata_by_tag []) d = Raise IndexError.
Proof.
  eexists. split; [vm_compute; reflexivity|].
  repeat split.
Qed.

(** With no tag value the filter of a dataset of other than exactly one
    record is empty. *)
Lemma filter_by_no_tag_vector (fs : filesystem) (fname : string) (d : Data) :
  Data_init fs fname = Ok d ->
  length (data (sdata d)) <> 1%nat ->
  outcome (filter_sdata_by_tag []) d
  = Ok (mk_ndarray (Struct datatypes) [0%nat] []).
Proof.
  intros H Hn. rewrite (filter_by_tag_vector _ _ [] H Hn).
  assert (E : forall l, filter (tag_in []) l = []).
  { induction l as [|a t IH]; [reflexivity|exact IH]. }
  now rewrite E.
Qed.

(** For values that end in no NUL the comparison is exact: the filter
    returns the records that carry one of the tags. *)
Lemma tag_in_exact (values : list text) (r : list text) :
  (forall v, In v values -> rstrip_nul v = v) ->
  tag_in values (record_of r) = has_tag values (record_of r).
Proof.
  intros Hv. unfold tag_in, has_tag.
  induction values as [|v t IH]; [reflexivity|].
  cbn [existsb]. rewrite IH by (intros x Hx; apply Hv; now right).
  f_equal. unfold str_eqb. rewrite (Hv v (or_introl eq_refl)).
  cbn [record_of tag_of]. unfold rstrip_nul. now rewrite rstrip_idem.
Qed.

Lemma filter_by_tag_exact (fs : filesystem) (fname : string) (d : Data)
  (values : list text) :
  Data_init fs fname = Ok d ->
  length (data (sdata d)) <> 1%nat ->
  (forall v, In v values -> rstrip_nul v = v) ->
  outcome (filter_sdata_by_tag values) d
  = Ok (mk_ndarray (Struct datatypes)
          [length (filter (has_tag values) (data (sdata d)))]
          (filter (has_tag values) (data (sdata d)))).
Proof.
  intros H Hn Hv. rewrite (filter_by_tag_vector _ _ values H Hn).
  apply Data_init_inv in H. destruct H as [raw [_ [_ ->]]].
  cbn [sdata]. rewrite loaded_data.
  assert (E : filter (tag_in values) (map record_of (collect_rows COMMA 1 raw))
              = filter (has_tag values)
                       (map record_of (collect_rows COMMA 1 raw))).
  { apply filter_ext_in. intros e He. apply in_map_iff in He.
    destruct He as [r [<- _]]. now apply tag_in_exact. }
  now rewrite E.
Qed.

(** ** Filtering by column *)

Lemma lookup_field_None (name : string) (fs : list (string * base)) :
  lookup_field name fs = None <-> ~ In name (map fst fs).
Proof.
  induction fs as [|[n b] fs IH]; simpl; [tauto|].
  destruct (String.eqb_spec name n) as [->|Hn].
  - split; [discriminate|tauto].
  - destruct (lookup_field name fs) as [[i b']|].
    + split; [discriminate|]. intros H. exfalso. apply H. right.
      destruct (in_dec string_dec name (map fst fs)) as [Hi|Hi];
        [assumption|]. apply IH in Hi. discriminate.
    + split; [|reflexivity]. intros _ [H|H]; [congruence|].
      now apply (proj1 IH).
Qed.

Lemma known_field_spec (name : string) :
  known_field name <-> In name (map fst datatypes).
Proof. reflexivity. Qed.










(** C10. With the four names in the declared order filter_sdata_by_col
    returns the array of the records itself: same fields, same shape, same
    entries. *)
Theorem filter_by_all_columns_is_identity :
  forall (fs : filesystem) (fname : string) (d : Data),
    Data_init fs fname = Ok d ->
    outcome (filter_sdata_by_col (map Fields_value [ABS; REL; DEL; TAG])) d
    = Ok (sdata d).
Proof.
  intros fs fname d H. apply Data_init_inv in H.
  destruct H as [raw [_ [_ ->]]].
  unfold outcome, filter_sdata_by_col. cbn [fst sdata map].
  unfold getitem_fields. rewrite loaded_dt.
  change (field_subset datatypes
            [Fields_value ABS; Fields_value REL; Fields_value DEL;
             Fields_value TAG] [])
    with (Ok [ (0%nat, (Fields_value ABS, i8));
               (1%nat, (Fields_value REL, i8));
               (2%nat, (Fields_value DEL, i8));
               (3%nat, (Fields_value TAG, U 25)) ]).
  cbn [bind map fst snd]. f_equal.
  unfold loaded, squeeze. cbn [dt shape data]. f_equal.
  rewrite map_map. apply map_ext. reflexivity.
Qed.

Lemma filter_by_all_columns_is_identity_witness :
  outcome (filter_sdata_by_col (map Fields_value [ABS; REL; DEL; TAG]))
          (mk_Data "data.csv" (loaded example_file)
                   (numeric_view (loaded example_file)))
  = Ok (loaded example_file).
Proof.
  apply (@filter_by_all_columns_is_identity (only example_file) "data.csv").
  vm_compute. reflexivity.
Defined.

(** ** Calls leave the object as it is *)

Lemma through_snoc (p : list Heap.step) (s : Heap.step) (e : elem) :
  Heap.through (p ++ [s]) e = Heap.get_step s (Heap.through p e).
Proof. unfold Heap.through. now rewrite fold_left_app. Qed.

Lemma ndarray_eta (v : ndarray) : mk_ndarray (dt v) (shape v) (data v) = v.
Proof. now destruct v. Qed.

Lemma extends_refl (h : Heap.heap) : Heap.extends h h.
Proof. split; [reflexivity|]. exists []. now rewrite app_nil_r. Qed.

Lemma extends_trans (h1 h2 h3 : Heap.heap) :
  Heap.extends h1 h2 -> Heap.extends h2 h3 -> Heap.extends h1 h3.
Proof.
  intros [O1 [n1 B1]] [O2 [n2 B2]]. split; [congruence|].
  exists (n1 ++ n2). now rewrite B2, B1, app_assoc.
Qed.

Lemma extends_new_buffer (h : Heap.heap) (els : list elem) :
  Heap.extends h (Heap.mk_heap (Heap.buffers h ++ [els]) (Heap.objects h)).
Proof. split; [reflexivity|]. now exists [els]. Qed.

(** An array of a store shows the same in every store that extends it. *)
Lemma value_frame (h h' : Heap.heap) (a : Heap.array) :
  Heap.extends h h' -> Heap.valid h a = true ->
  Heap.value h' a = Heap.value h a /\ Heap.valid h' a = true.
Proof.
  intros [_ [new Hb]] Hv. unfold Heap.valid in *. apply Nat.ltb_lt in Hv.
  unfold Heap.value, Heap.elements. rewrite Hb. split.
  - now rewrite app_nth1.
  - apply Nat.ltb_lt. rewrite length_app. lia.
Qed.

(** So does an object that holds a dataset. *)
Lemma dataset_at_frame (h h' : Heap.heap) (self : Heap.addr) (d : Data) :
  Heap.extends h h' ->
  Heap.dataset_at h self = Some d -> Heap.dataset_at h' self = Some d.
Proof.
  intros He H. unfold Heap.dataset_at in *.
  rewrite (proj1 He).
  destruct (nth_error (Heap.objects h) self) as [o|]; [|discriminate].
  destruct (Heap.assoc_get "filename" o) as [[f|?]|]; try discriminate.
  destruct (Heap.assoc_get "sdata" o) as [[?|s]|]; try discriminate.
  destruct (Heap.assoc_get "udata" o) as [[?|u]|]; try discriminate.
  destruct (Heap.valid h s) eqn:Vs; [|discriminate].
  destruct (Heap.valid h u) eqn:Vu; [|discriminate].
  destruct (@value_frame _ _ _ He Vs) as [-> ->].
  destruct (@value_frame _ _ _ He Vu) as [-> ->].
  exact H.
Qed.

Lemma dataset_at_inv (h : Heap.heap) (self : Heap.addr) (d : Data) :
  Heap.dataset_at h self = Some d ->
  exists o s u,
    nth_error (Heap.objects h) self = Some o /\
    Heap.assoc_get "sdata" o = Some (Heap.AArr s) /\
    Heap.assoc_get "udata" o = Some (Heap.AArr u) /\
    Heap.valid h s = true /\ Heap.valid h u = true /\
    sdata d = Heap.value h s /\ udata d = Heap.value h u.
Proof.
  unfold Heap.dataset_at.
  destruct (nth_error (Heap.objects h) self) as [o|] eqn:Ho; [|discriminate].
  destruct (Heap.assoc_get "filename" o) as [[f|?]|]; try discriminate.
  destruct (Heap.assoc_get "sdata" o) as [[?|s]|] eqn:Hs; try discriminate.
  destruct (Heap.assoc_get "udata" o) as [[?|u]|] eqn:Hu; try discriminate.
  destruct (Heap.valid h s) eqn:Vs; [|discriminate].
  destruct (Heap.valid h u) eqn:Vu; [|discriminate].
  cbn [andb]. intros H. injection H as <-. exists o, s, u.
  repeat split; assumption || reflexivity.
Qed.

(** A new array shows the value it was made of. *)
Lemma value_new (h : Heap.heap) (v : ndarray) :
  Heap.value (Heap.mk_heap (Heap.buffers h ++ [data v]) (Heap.objects h))
             (Heap.mk_array (length (Heap.buffers h)) [] (dt v) (shape v))
  = v.
Proof.
  unfold Heap.value, Heap.elements. cbn [Heap.buffer Heap.path Heap.a_dt
    Heap.a_shape Heap.buffers].
  rewrite nth_middle.
  rewrite (map_ext (Heap.through []) (fun e => e)) by reflexivity.
  rewrite map_id. apply ndarray_eta.
Qed.

(** A view shows one more step of what the array it is a view of shows. *)
Lemma value_view (h : Heap.heap) (a : Heap.array) (s : Heap.step)
  (dt' : dtype) :
  Heap.value h (Heap.mk_array (Heap.buffer a) (Heap.path a ++ [s]) dt'
                              (Heap.a_shape a))
  = mk_ndarray dt' (shape (Heap.value h a))
               (map (Heap.get_step s) (data (Heap.value h a))).
Proof.
  unfold Heap.value, Heap.elements. cbn [Heap.buffer Heap.path Heap.a_dt
    Heap.a_shape shape data].
  rewrite map_map. f_equal. apply map_ext. intros e. apply through_snoc.
Qed.

(** [a[names]] on the store: nothing is written, and what is returned
    shows what [getitem_fields] computes. *)
Lemma fields_view_spec (h : Heap.heap) (a : Heap.array) (names : list string) :
  Heap.extends h (Heap.after (Heap.fields_view a names) h) /\
  Heap.returns (Heap.fields_view a names) h
  = getitem_fields (Heap.value h a) names.
Proof.
  unfold Heap.after, Heap.returns, Heap.after, Heap.fields_view.
  destruct names as [|n rest].
  - unfold Heap.mbind, Heap.read, Heap.lift_result, getitem_fields.
    cbn [shape Heap.value].
    destruct (Heap.a_shape a) as [|k ks].
    + split; [apply extends_refl|reflexivity].
    + cbn [Heap.new_array Heap.mbind Heap.new_buffer Heap.ret fst snd
           Heap.returned data dt shape].
      split; [apply extends_new_buffer|].
      f_equal.
      apply (value_new h (mk_ndarray (Heap.a_dt a) (0%nat :: ks) [])).
  - unfold getitem_fields. cbn [dt Heap.value].
    destruct (Heap.a_dt a) as [b|fs].
    + split; [apply extends_refl|reflexivity].
    + unfold Heap.mbind, Heap.lift_result.
      destruct (field_subset fs (n :: rest) []) as [sel|e].
      * cbn [Heap.ret fst snd Heap.returned bind].
        split; [apply extends_refl|].
        f_equal. apply value_view.
      * split; [apply extends_refl|reflexivity].
Qed.

(** C7. Neither filter writes to the store.  In every store, and for
    every object of the store that holds a dataset, a call of
    filter_sdata_by_col or of filter_sdata_by_tag, with whatever argument
    and whether it returns or raises, leaves every object with the
    attributes it had and every buffer with the elements it had (the store
    after the call has at most new buffers); so the object holds the same
    dataset after the call, the same stored records and the same numeric
    view.  What the call returns is what the methods on values compute. *)
Theorem filter_calls_write_nothing :
  forall (h : Heap.heap) (self : Heap.addr) (d : Data) (names : list string)
         (values : list text),
    Heap.dataset_at h self = Some d ->
    (Heap.extends h (Heap.after (Heap.filter_sdata_by_col self names) h) /\
     Heap.dataset_at (Heap.after (Heap.filter_sdata_by_col self names) h) self
     = Some d /\
     Heap.returns (Heap.filter_sdata_by_col self names) h
     = outcome (filter_sdata_by_col names) d) /\
    (Heap.extends h (Heap.after (Heap.filter_sdata_by_tag self values) h) /\
     Heap.dataset_at (Heap.after (Heap.filter_sdata_by_tag self values) h) self
     = Some d /\
     Heap.returns (Heap.filter_sdata_by_tag self values) h
     = outcome (filter_sdata_by_tag values) d).
Proof.
  intros h self d names values Hd.
  destruct (@dataset_at_inv _ _ _ Hd) as [o [s [u [Ho [Hs [_ [Vs [_ [Es _]]]]]]]]].
  assert (Hcol :
    Heap.extends h (Heap.after (Heap.filter_sdata_by_col self names) h) /\
    Heap.returns (Heap.filter_sdata_by_col self names) h
    = outcome (filter_sdata_by_col names) d).
  { unfold outcome, filter_sdata_by_col. cbn [fst]. rewrite Es.
    destruct (fields_view_spec h s names) as [He Hr].
    unfold Heap.after, Heap.returns, Heap.after, Heap.filter_sdata_by_col,
      Heap.mbind, Heap.getattr in *.
    rewrite Ho, Hs. cbn [Heap.as_array Heap.ret].
    split; assumption. }
  assert (Htag :
    Heap.extends h (Heap.after (Heap.filter_sdata_by_tag self values) h) /\
    Heap.returns (Heap.filter_sdata_by_tag self values) h
    = outcome (filter_sdata_by_tag values) d).
  { unfold outcome, filter_sdata_by_tag. cbn [fst]. rewrite Es.
    unfold Heap.after, Heap.returns, Heap.after, Heap.filter_sdata_by_tag,
      Heap.mbind, Heap.getattr.
    do 2 (rewrite Ho, Hs; cbn [Heap.as_array Heap.ret]).
    unfold Heap.field_view, getitem_field. cbn [dt Heap.value].
    destruct (Heap.a_dt s) as [b|fs];
      [split; [apply extends_refl|reflexivity]|].
    destruct (lookup_field (Fields_value TAG) fs) as [[i b]|];
      [|split; [apply extends_refl|reflexivity]].
    cbn [Heap.ret bind Heap.raise].
    unfold Heap.in1d_array, Heap.mbind, Heap.read.
    cbn [Heap.new_array Heap.mbind Heap.new_buffer Heap.ret].
    set (tags := Heap.value h (Heap.mk_array (Heap.buffer s)
                                 (Heap.path s ++ [Heap.pick i]) (Plain b)
                                 (Heap.a_shape s))).
    set (h1 := Heap.mk_heap (Heap.buffers h ++ [data (in1d tags values)])
                            (Heap.objects h)).
    assert (E1 : Heap.extends h h1) by apply extends_new_buffer.
    unfold Heap.mask_copy, Heap.mbind, Heap.read, Heap.lift_result.
    assert (Em : Heap.value h1
                   (Heap.mk_array (length (Heap.buffers h)) []
                                  (dt (in1d tags values))
                                  (shape (in1d tags values)))
                 = in1d tags values) by apply value_new.
    rewrite Em. rewrite (proj1 (@value_frame _ _ _ E1 Vs)).
    assert (Et : tags
                 = mk_ndarray (Plain b) (shape (Heap.value h s))
                     (map (fun e => match e with
                                    | T vs => V (nth i vs (Int64 0))
                                    | V v => V v
                                    end) (data (Heap.value h s))))
      by apply value_view.
    rewrite <- Et.
    destruct (getitem_mask (Heap.value h s) (in1d tags values)) as [r|e].
    - cbn [Heap.new_array Heap.mbind Heap.new_buffer Heap.ret fst snd
           Heap.returned].
      split.
      + apply (@extends_trans _ _ _ E1). apply extends_new_buffer.
      + f_equal. apply (value_new h1 r).
    - cbn [fst snd Heap.returned]. split; [exact E1|reflexivity]. }
  destruct Hcol as [Ec Rc]. destruct Htag as [Et Rt].
  split; (split; [assumption|]);
    (split; [eapply dataset_at_frame; eassumption|assumption]).
Qed.

Lemma filter_calls_write_nothing_witness :
  (Heap.extends example_heap
     (Heap.after (Heap.filter_sdata_by_col 0%nat ["abs"%string]) example_heap) /\
   Heap.dataset_at
     (Heap.after (Heap.filter_sdata_by_col 0%nat ["abs"%string]) example_heap) 0%nat
   = Some (mk_Data "data.csv" (loaded example_file)
                   (numeric_view (loaded example_file))) /\
   Heap.returns (Heap.filter_sdata_by_col 0%nat ["abs"%string]) example_heap
   = outcome (filter_sdata_by_col ["abs"%string])
             (mk_Data "data.csv" (loaded example_file)
                      (numeric_view (loaded example_file)))) /\
  (Heap.extends example_heap
     (Heap.after (Heap.filter_sdata_by_tag 0%nat [Tags_value PFOO]) example_heap) /\
   Heap.dataset_at
     (Heap.after (Heap.filter_sdata_by_tag 0%nat [Tags_value PFOO]) example_heap) 0%nat
   = Some (mk_Data "data.csv" (loaded example_file)
                   (numeric_view (loaded example_file))) /\
   Heap.returns (Heap.filter_sdata_by_tag 0%nat [Tags_value PFOO]) example_heap
   = outcome (filter_sdata_by_tag [Tags_value PFOO])
             (mk_Data "data.csv" (loaded example_file)
                      (numeric_view (loaded example_file)))).
Proof.
  apply (@filter_calls_write_nothing example_heap 0%nat
           (mk_Data "data.csv" (loaded example_file)
                    (numeric_view (loaded example_file)))
           ["abs"%string] [Tags_value PFOO]).
  vm_compute. reflexivity.
Defined.

Lemma update_snoc {A : Type} (l : list A) (x : A) (f : A -> A) :
  Heap.update (length l) f (l ++ [x]) = l ++ [f x].
Proof. induction l as [|y t IH]; simpl; [reflexivity|now rewrite IH]. Qed.

Lemma nth_error_snoc {A : Type} (l : list A) (x : A) :
  nth_error (l ++ [x]) (length l) = Some x.
Proof. induction l as [|y t IH]; simpl; auto. Qed.

(** A loaded dataset is such an object: in whatever store it runs,
    [Data(filename)] on the store raises what [Data_init] raises, or
    returns a new object that holds the dataset [Data_init] returns, its
    two arrays in two new buffers. *)
Lemma Data_init_in_store (fs : filesystem) (fname : string) (h0 : Heap.heap) :
  match Heap.Data_init fs fname h0 with
  | (Ok self, h) =>
      exists d, Data_init fs fname = Ok d /\ Heap.dataset_at h self = Some d
  | (Raise e, _) => Data_init fs fname = Raise e
  end.
Proof.
  unfold Heap.Data_init, Data_init, Heap.mbind, Heap.new_object, Heap.setattr,
    Heap.lift_result.
  cbn [Heap.buffers Heap.objects].
  rewrite update_snoc. cbn [Heap.assoc_set].
  destruct (genfromtxt fs fname datatypes COMMA 1) as [[da sa ela]|e];
    [|reflexivity].
  cbn [bind Heap.new_array Heap.mbind Heap.new_buffer Heap.ret Heap.buffers
       Heap.objects dt shape data].
  rewrite update_snoc. cbn [Heap.assoc_set String.eqb Ascii.eqb Bool.eqb].
  unfold Heap.getattr. cbn [Heap.objects]. rewrite nth_error_snoc.
  cbn [Heap.assoc_get String.eqb Ascii.eqb Bool.eqb Heap.as_array Heap.ret].
  unfold Heap.fields_view, getitem_fields.
  cbn [Heap.a_dt Heap.buffer Heap.path Heap.a_shape dt shape data].
  destruct da as [b|fl]; [reflexivity|].
  unfold Heap.mbind, Heap.lift_result.
  destruct (field_subset fl _ []) as [sel|e]; [|reflexivity].
  cbn [Heap.ret bind Heap.read app Heap.buffers Heap.objects].
  match goal with
  | |- context [structured_to_unstructured (Heap.value ?h ?c)] =>
      assert (Ec : Heap.value h c
                   = mk_ndarray (Struct (map snd sel)) sa
                       (map (take_fields (map fst sel)) ela))
  end.
  { unfold Heap.value, Heap.elements.
    cbn [Heap.buffer Heap.path Heap.a_dt Heap.a_shape Heap.buffers].
    now rewrite nth_middle. }
  rewrite Ec.
  destruct (structured_to_unstructured _) as [[du su elu]|e]; [|reflexivity].
  cbn [Heap.ret bind dt shape data].
  rewrite update_snoc. cbn [Heap.assoc_set String.eqb Ascii.eqb Bool.eqb].
  eexists. split; [reflexivity|].
  unfold Heap.dataset_at. cbn [Heap.objects]. rewrite nth_error_snoc.
  cbn [Heap.assoc_get String.eqb Ascii.eqb Bool.eqb].
  unfold Heap.valid, Heap.value, Heap.elements.
  cbn [Heap.buffer Heap.path Heap.a_dt Heap.a_shape Heap.buffers].
  set (b0 := Heap.buffers h0).
  assert (L1 : (length b0 <? length ((b0 ++ [ela]) ++ [elu]))%nat = true)
    by (apply Nat.ltb_lt; rewrite !length_app; simpl; lia).
  assert (L2 : (length (b0 ++ [ela]) <? length ((b0 ++ [ela]) ++ [elu]))%nat
               = true)
    by (apply Nat.ltb_lt; rewrite !length_app; simpl; lia).
  rewrite L1, L2. cbn [andb].
  rewrite (nth_middle (b0 ++ [ela]) [] elu).
  rewrite <- app_assoc. cbn [app]. rewrite nth_middle.
  rewrite !(map_ext (Heap.through []) (fun e => e)) by reflexivity.
  now rewrite !map_id.
Qed.

(** The filters write nothing, but the array filter_sdata_by_col returns
    for a list of names is a view of the buffer of the stored records: an
    assignment to an entry of it is a write to [sdata] (and none to
    [udata], which has its own buffer).  Here the column abs of the
    example is asked for and its entry 0 is set to 9. *)
Lemma returned_columns_are_a_view :
  option_map sdata (Heap.dataset_at example_heap 0%nat)
  = Some (mk_ndarray (Struct datatypes) [2%nat]
            [ T [Int64 1; Int64 2; Int64 3; Str (Tags_value PFOO)];
              T [Int64 4; Int64 5; Int64 6; Str (Tags_value NBAR)] ]) /\
  option_map sdata
    (Heap.dataset_at
       (Heap.after
          (Heap.mbind (Heap.filter_sdata_by_col 0%nat ["abs"%string])
                      (fun a => Heap.setitem a 0%nat (T [Int64 9])))
          example_heap) 0%nat)
  = Some (mk_ndarray (Struct datatypes) [2%nat]
            [ T [Int64 9; Int64 2; Int64 3; Str (Tags_value PFOO)];
              T [Int64 4; Int64 5; Int64 6; Str (Tags_value NBAR)] ]) /\
  option_map udata
    (Heap.dataset_at
       (Heap.after
          (Heap.mbind (Heap.filter_sdata_by_col 0%nat ["abs"%string])
                      (fun a => Heap.setitem a 0%nat (T [Int64 9])))
          example_heap) 0%nat)
  = option_map udata (Heap.dataset_at example_heap 0%nat).
Proof. vm_compute. repeat split. Qed.

(** ** The example of the specification *)

(** C8. The file of the header and the two rows [1,2,3,"++foo"] and
    [4,5,6,"--bar"] loads as these two records in this order (the tags with
    their quotation marks, as the file has them), the numeric view is the
    2 x 3 table of rows [1,2,3] and [4,5,6], and the filter by the one tag
    ["++foo"] returns exactly the first record. *)
Theorem example_scenario :
  forall (fs : filesystem) (fname : string),
    fs fname = Some example_file ->
    exists d,
      Data_init fs fname = Ok d /\
      sdata d = mk_ndarray (Struct datatypes) [2%nat]
                  [ T [Int64 1; Int64 2; Int64 3; Str (Tags_value PFOO)];
                    T [Int64 4; Int64 5; Int64 6; Str (Tags_value NBAR)] ] /\
      udata d = mk_ndarray (Plain i8) [2%nat; 3%nat]
                  [ V (Int64 1); V (Int64 2); V (Int64 3);
                    V (Int64 4); V (Int64 5); V (Int64 6) ] /\
      getitem_int (udata d) 0
      = Ok (mk_ndarray (Plain i8) [3%nat]
              [V (Int64 1); V (Int64 2); V (Int64 3)]) /\
      getitem_int (udata d) 1
      = Ok (mk_ndarray (Plain i8) [3%nat]
              [V (Int64 4); V (Int64 5); V (Int64 6)]) /\
      outcome (filter_sdata_by_tag [Tags_value PFOO]) d
      = Ok (mk_ndarray (Struct datatypes) [1%nat]
              [ T [Int64 1; Int64 2; Int64 3; Str (Tags_value PFOO)] ]).
Proof.
  intros fs fname Hfs. eexists. split.
  - apply (Data_init_iff _ _ _ Hfs). split; [|reflexivity].
    vm_compute. reflexivity.
  - repeat split; vm_compute; reflexivity.
Qed.

Lemma example_scenario_witness :
  exists d,
    Data_init (only example_file) "data.csv" = Ok d /\
    sdata d = mk_ndarray (Struct datatypes) [2%nat]
                [ T [Int64 1; Int64 2; Int64 3; Str (Tags_value PFOO)];
                  T [Int64 4; Int64 5; Int64 6; Str (Tags_value NBAR)] ] /\
    udata d = mk_ndarray (Plain i8) [2%nat; 3%nat]
                [ V (Int64 1); V (Int64 2); V (Int64 3);
                  V (Int64 4); V (Int64 5); V (Int64 6) ] /\
    getitem_int (udata d) 0
    = Ok (mk_ndarray (Plain i8) [3%nat]
            [V (Int64 1); V (Int64 2); V (Int64 3)]) /\
    getitem_int (udata d) 1
    = Ok (mk_ndarray (Plain i8) [3%nat]
            [V (Int64 4); V (Int64 5); V (Int64 6)]) /\
    outcome (filter_sdata_by_tag [Tags_value PFOO]) d
    = Ok (mk_ndarray (Struct datatypes) [1%nat]
            [ T [Int64 1; Int64 2; Int64 3; Str (Tags_value PFOO)] ]).
Proof.
  apply (@example_scenario (only example_file) "data.csv").
  reflexivity.
Defined.

(** * Further properties of the loader *)

(** ** The outcome of a load is decided by the rows of the file *)

Lemma Data_init_rows (fs fs' : filesystem) (fname : string) (raw raw' : text) :
  fs fname = Some raw -> fs' fname = Some raw' ->
  collect_rows COMMA 1 raw = collect_rows COMMA 1 raw' ->
  Data_init fs fname = Data_init fs' fname.
Proof.
  intros H H' E. unfold Data_init, genfromtxt, datasource_open.
  rewrite H, H'. cbn [bind]. now rewrite E.
Qed.

(** The rows of a list of lines already read. *)
Lemma collect_rows_lines (k : nat) (raw : text) :
  collect_rows COMMA k raw
  = filter (fun values => negb (length values =? 0)%nat)
      (map (split_line COMMA HASH)
           (skipn k (readlines (universal_newlines raw)))).
Proof. reflexivity. Qed.

Lemma universal_newlines_app (h rest : text) :
  ~ In CR h ->
  universal_newlines (h ++ LF :: rest) = h ++ LF :: universal_newlines rest.
Proof.
  induction h as [|x t IH]; intros H; [reflexivity|].
  simpl in H |- *.
  destruct (Ascii.eqb_spec x CR) as [->|_]; [tauto|].
  rewrite IH; tauto.
Qed.

Lemma collect_rows_first_line (h body : text) :
  one_line h = true ->
  collect_rows COMMA 1 (h ++ LF :: body) = collect_rows COMMA 0 body.
Proof.
  intros Hh. apply one_line_spec in Hh. destruct Hh as [Hlf Hcr].
  rewrite !collect_rows_lines.
  rewrite universal_newlines_app by assumption.
  now rewrite readlines_line by assumption.
Qed.

(** X1. The first line of a file is dropped whatever it holds: two files
    that differ in their first line only are loaded alike. *)
Theorem first_line_is_dropped :
  forall (fs fs' : filesystem) (fname : string) (h h' body : text),
    one_line h = true -> one_line h' = true ->
    fs fname = Some (h ++ LF :: body) ->
    fs' fname = Some (h' ++ LF :: body) ->
    Data_init fs fname = Data_init fs' fname.
Proof.
  intros fs fs' fname h h' body Hh Hh' Hfs Hfs'.
  apply (Data_init_rows _ _ _ Hfs Hfs').
  now rewrite !collect_rows_first_line.
Qed.

Lemma first_line_is_dropped_witness :
  Data_init (only (txt "abs,rel,del,tag" ++ LF :: txt "1,2,3,t")) "data.csv"
  = Data_init (only (txt "7,8,9,z" ++ LF :: txt "1,2,3,t")) "data.csv".
Proof.
  apply (@first_line_is_dropped
           (only (txt "abs,rel,del,tag" ++ LF :: txt "1,2,3,t"))
           (only (txt "7,8,9,z" ++ LF :: txt "1,2,3,t"))
           "data.csv" (txt "abs,rel,del,tag") (txt "7,8,9,z") (txt "1,2,3,t"));
    reflexivity.
Defined.

(** ** Line ends *)

Lemma universal_newlines_CRLF (l rest : text) :
  ~ In CR l ->
  universal_newlines (l ++ CR :: LF :: rest)
  = l ++ LF :: universal_newlines rest.
Proof.
  induction l as [|x t IH]; intros H; [reflexivity|].
  simpl in H |- *.
  destruct (Ascii.eqb_spec x CR) as [->|_]; [tauto|].
  rewrite IH; tauto.
Qed.

Lemma universal_newlines_CR (l rest : text) :
  ~ In CR l -> hd SP rest <> LF ->
  universal_newlines (l ++ CR :: rest) = l ++ LF :: universal_newlines rest.
Proof.
  induction l as [|x t IH]; intros H Hhd.
  - simpl. destruct rest as [|y r]; [reflexivity|].
    simpl in Hhd. destruct (Ascii.eqb_spec y LF) as [->|_]; [congruence|].
    reflexivity.
  - simpl in H. change ((x :: t) ++ CR :: rest) with (x :: (t ++ CR :: rest)).
    cbn [universal_newlines].
    destruct (Ascii.eqb_spec x CR) as [->|_]; [tauto|].
    rewrite IH; [reflexivity|tauto|assumption].
Qed.

Lemma unlines_with_CR_hd (ls : list text) :
  Forall (fun l => one_line l = true) ls ->
  hd SP (unlines_with [CR] ls) <> LF.
Proof.
  intros H. destruct H as [|l t Hl _]; [discriminate|].
  apply one_line_spec in Hl. simpl.
  destruct l as [|c l']; simpl; [discriminate|].
  intros ->. apply (proj1 Hl). now left.
Qed.

Lemma universal_newlines_unlines_with (eol : text) (ls : list text) :
  line_end eol ->
  Forall (fun l => one_line l = true) ls ->
  universal_newlines (unlines_with eol ls) = unlines ls.
Proof.
  intros He H. induction H as [|l t Hl Ht IH]; [reflexivity|].
  pose proof (proj1 (one_line_spec l) Hl) as [_ Hcr].
  change (unlines_with eol (l :: t)) with ((l ++ eol) ++ unlines_with eol t).
  change (unlines (l :: t)) with ((l ++ [LF]) ++ unlines t).
  rewrite <- !app_assoc. rewrite <- IH.
  destruct He as [-> | [-> | ->]]; simpl.
  - now apply universal_newlines_app.
  - now apply universal_newlines_CRLF.
  - apply universal_newlines_CR; [assumption|].
    now apply unlines_with_CR_hd.
Qed.

(** X2. Line ends do not matter: a file whose lines end in carriage return
    and line feed, or in a carriage return alone, is loaded like the file
    of the same lines ended by line feeds. *)
Theorem line_ends_do_not_matter :
  forall (fs fs' : filesystem) (fname : string) (eol : text) (ls : list text),
    line_end eol ->
    forallb one_line ls = true ->
    fs fname = Some (unlines_with eol ls) ->
    fs' fname = Some (unlines ls) ->
    Data_init fs fname = Data_init fs' fname.
Proof.
  intros fs fs' fname eol ls He Hls Hfs Hfs'.
  apply (Data_init_rows _ _ _ Hfs Hfs').
  rewrite !collect_rows_lines.
  assert (H : Forall (fun l => one_line l = true) ls)
    by (apply Forall_forall; now apply forallb_forall).
  rewrite (universal_newlines_unlines_with He H).
  now rewrite (universal_newlines_id (unlines ls)) by (now apply unlines_no_CR).
Qed.

Lemma line_ends_do_not_matter_witness :
  Data_init (only (unlines_with [CR; LF]
                     [header_line; txt "1,2,3,t"; txt "4,5,6,u"])) "data.csv"
  = Data_init (only (unlines [header_line; txt "1,2,3,t"; txt "4,5,6,u"]))
              "data.csv".
Proof.
  apply (@line_ends_do_not_matter _ _ "data.csv" [CR; LF]
           [header_line; txt "1,2,3,t"; txt "4,5,6,u"]).
  - right. left. reflexivity.
  - reflexivity.
  - reflexivity.
  - reflexivity.
Defined.

(** ** The line feed at the end of a file *)

Lemma universal_newlines_plain (x : ascii) (t : text) :
  x <> CR -> universal_newlines (x :: t) = x :: universal_newlines t.
Proof.
  intros H. simpl. destruct (Ascii.eqb_spec x CR); [contradiction|reflexivity].
Qed.

Lemma universal_newlines_CR_LF (t : text) :
  universal_newlines (CR :: LF :: t) = LF :: universal_newlines t.
Proof. reflexivity. Qed.

Lemma universal_newlines_CR_plain (y : ascii) (t : text) :
  y <> LF ->
  universal_newlines (CR :: y :: t) = LF :: universal_newlines (y :: t).
Proof.
  intros H. simpl. destruct (Ascii.eqb_spec y LF); [contradiction|reflexivity].
Qed.

Lemma universal_newlines_snoc (n : nat) :
  forall s : text,
    (length s <= n)%nat ->
    universal_newlines (s ++ [LF])
    = if Ascii.eqb (last s SP) CR then universal_newlines s
      else universal_newlines s ++ [LF].
Proof.
  induction n as [|n IH]; intros s Hlen.
  - destruct s; [reflexivity|simpl in Hlen; lia].
  - destruct s as [|x t]; [reflexivity|]. simpl in Hlen.
    destruct t as [|y t'].
    + cbn [app last universal_newlines].
      destruct (Ascii.eqb x CR); reflexivity.
    + change (last (x :: y :: t') SP) with (last (y :: t') SP).
      change ((x :: y :: t') ++ [LF]) with (x :: (y :: t') ++ [LF]).
      assert (IHt : universal_newlines ((y :: t') ++ [LF])
                    = if Ascii.eqb (last (y :: t') SP) CR
                      then universal_newlines (y :: t')
                      else universal_newlines (y :: t') ++ [LF])
        by (apply IH; lia).
      destruct (Ascii.eqb_spec x CR) as [->|Hx].
      * destruct (Ascii.eqb_spec y LF) as [->|Hy].
        -- change (CR :: (LF :: t') ++ [LF]) with (CR :: LF :: (t' ++ [LF])).
           rewrite !universal_newlines_CR_LF.
           rewrite (IH t') by (simpl in Hlen; lia).
           destruct t' as [|z t'']; [reflexivity|].
           change (last (LF :: z :: t'') SP) with (last (z :: t'') SP).
           now destruct (Ascii.eqb (last (z :: t'') SP) CR).
        -- change (CR :: (y :: t') ++ [LF]) with (CR :: y :: (t' ++ [LF])).
           rewrite !universal_newlines_CR_plain by assumption.
           change (y :: t' ++ [LF]) with ((y :: t') ++ [LF]).
           rewrite IHt.
           now destruct (Ascii.eqb (last (y :: t') SP) CR).
      * rewrite !universal_newlines_plain by assumption.
        rewrite IHt.
        now destruct (Ascii.eqb (last (y :: t') SP) CR).
Qed.

Lemma readlines_not_nil (x : ascii) (t : text) : readlines (x :: t) <> [].
Proof.
  simpl. destruct (Ascii.eqb x LF); [discriminate|].
  destruct (readlines t); discriminate.
Qed.

(** After a text that ends its last line, a line feed is an empty line. *)
Lemma readlines_cons (x : ascii) (t : text) :
  readlines (x :: t)
  = if Ascii.eqb x LF then [LF] :: readlines t
    else match readlines t with
         | [] => [[x]]
         | l :: ls => (x :: l) :: ls
         end.
Proof. reflexivity. Qed.

Lemma readlines_snoc_blank (t : text) :
  t = [] \/ last t SP = LF ->
  readlines (t ++ [LF]) = readlines t ++ [[LF]].
Proof.
  induction t as [|x t' IH]; intros H; [reflexivity|].
  destruct H as [H|H]; [discriminate|].
  destruct t' as [|y t''].
  - simpl in H. subst x. reflexivity.
  - change (last (x :: y :: t'') SP) with (last (y :: t'') SP) in H.
    change ((x :: y :: t'') ++ [LF]) with (x :: ((y :: t'') ++ [LF])).
    rewrite (readlines_cons x ((y :: t'') ++ [LF])).
    rewrite (readlines_cons x (y :: t'')).
    rewrite (IH (or_intror H)).
    pose proof (readlines_not_nil y t'') as Hne.
    destruct (Ascii.eqb x LF); [reflexivity|].
    destruct (readlines (y :: t'')) as [|l ls]; [congruence|reflexivity].
Qed.

Lemma rows_of_lines_snoc (k : nat) (t : text) :
  filter (fun values => negb (length values =? 0)%nat)
    (map (split_line COMMA HASH) (skipn k (readlines (t ++ [LF]))))
  = filter (fun values => negb (length values =? 0)%nat)
      (map (split_line COMMA HASH) (skipn k (readlines t))).
Proof.
  destruct t as [|c t'] eqn:Et.
  - destruct k as [|[|k]]; reflexivity.
  - rewrite <- Et.
    destruct (ascii_dec (last t SP) LF) as [Hl|Hl].
    + rewrite (@readlines_snoc_blank t (or_intror Hl)).
      rewrite skipn_app, map_app, filter_app.
      destruct (k - length (readlines t))%nat as [|[|m]]; simpl;
        now rewrite app_nil_r.
    + f_equal. rewrite <- !skipn_map. f_equal.
      apply (map_Forall2 (R := same_line)).
      * intros a b [-> | ->]; [reflexivity|apply split_line_line_end].
      * apply readlines_final; [subst; discriminate|assumption].
Qed.

Lemma collect_rows_snoc (k : nat) (raw : text) :
  collect_rows COMMA k (raw ++ [LF]) = collect_rows COMMA k raw.
Proof.
  rewrite !collect_rows_lines.
  rewrite (universal_newlines_snoc (n := length raw)) by lia.
  destruct (Ascii.eqb (last raw SP) CR); [reflexivity|].
  apply rows_of_lines_snoc.
Qed.

(** X3. A line feed more or less at the end of a file does not matter:
    every file is loaded like the file with one more line feed at its
    end. *)
Theorem final_line_feed_does_not_matter :
  forall (fs fs' : filesystem) (fname : string) (raw : text),
    fs fname = Some raw ->
    fs' fname = Some (raw ++ [LF]) ->
    Data_init fs fname = Data_init fs' fname.
Proof.
  intros fs fs' fname raw Hfs Hfs'.
  apply (Data_init_rows _ _ _ Hfs Hfs').
  symmetry. apply collect_rows_snoc.
Qed.

Lemma final_line_feed_does_not_matter_witness :
  Data_init (only (removelast example_file)) "data.csv"
  = Data_init (only (removelast example_file ++ [LF])) "data.csv".
Proof.
  apply (@final_line_feed_does_not_matter _ _ "data.csv"
           (removelast example_file)); reflexivity.
Defined.

(** ** Lines the loader passes over *)

Lemma collect_rows_unlines (header : text) (ls : list text) :
  one_line header = true -> forallb one_line ls = true ->
  collect_rows COMMA 1 (unlines (header :: ls))
  = filter (fun values => negb (length values =? 0)%nat)
           (map (split_line COMMA HASH) ls).
Proof.
  intros Hh Hls.
  assert (Hone : Forall (fun l => one_line l = true) (header :: ls)).
  { constructor; [assumption|]. apply Forall_forall.
    now apply forallb_forall. }
  rewrite collect_rows_lines.
  rewrite universal_newlines_id by (now apply unlines_no_CR).
  rewrite readlines_unlines by assumption.
  simpl. rewrite map_map. f_equal.
  apply map_ext. intros l. apply split_line_line_end.
Qed.

Lemma rows_without_ignored (ls : list text) :
  filter (fun values => negb (length values =? 0)%nat)
         (map (split_line COMMA HASH)
              (filter (fun l => negb (is_ignored l)) ls))
  = filter (fun values => negb (length values =? 0)%nat)
           (map (split_line COMMA HASH) ls).
Proof.
  induction ls as [|l t IH]; [reflexivity|].
  cbn [filter map]. unfold is_ignored at 1.
  destruct (split_line COMMA HASH l) as [|v vs] eqn:E.
  - cbn [negb length Nat.eqb]. exact IH.
  - cbn [negb map filter]. rewrite E. cbn [length Nat.eqb negb].
    now rewrite IH.
Qed.

Lemma forallb_filter {A : Type} (p q : A -> bool) (l : list A) :
  forallb p l = true -> forallb p (filter q l) = true.
Proof.
  induction l as [|x t IH]; simpl; [reflexivity|].
  rewrite andb_true_iff. intros [Hx Ht].
  destruct (q x); simpl; [rewrite Hx|]; auto.
Qed.

(** X4. Empty lines, lines of spaces and lines that hold a comment only
    are passed over: a file is loaded like the file without them. *)
Theorem ignored_lines_do_not_matter :
  forall (fs fs' : filesystem) (fname : string) (header : text)
         (ls : list text),
    one_line header = true ->
    forallb one_line ls = true ->
    fs fname = Some (unlines (header :: ls)) ->
    fs' fname
    = Some (unlines (header :: filter (fun l => negb (is_ignored l)) ls)) ->
    Data_init fs fname = Data_init fs' fname.
Proof.
  intros fs fs' fname header ls Hh Hls Hfs Hfs'.
  apply (Data_init_rows _ _ _ Hfs Hfs').
  rewrite !collect_rows_unlines; try assumption.
  - symmetry. apply rows_without_ignored.
  - now apply forallb_filter.
Qed.

Lemma ignored_lines_do_not_matter_witness :
  Data_init (only (unlines (header_line :: commented_file_lines))) "data.csv"
  = Data_init (only example_file) "data.csv".
Proof.
  apply (@ignored_lines_do_not_matter _ _ "data.csv" header_line
           commented_file_lines); reflexivity.
Defined.

(** ** A file without data *)

Lemma no_rows (L : list text) :
  forallb is_ignored L = true ->
  filter (fun values => negb (length values =? 0)%nat)
         (map (split_line COMMA HASH) L) = [].
Proof.
  induction L as [|l t IH]; [reflexivity|].
  cbn [forallb map filter]. rewrite andb_true_iff. intros [Hl Ht].
  unfold is_ignored in Hl.
  destruct (split_line COMMA HASH l); [|discriminate].
  cbn [length Nat.eqb negb]. now apply IH.
Qed.

(** X5. A file in which no line after the first holds a value (a header
    alone, an empty file, comments only) loads as the dataset of no
    record: the records are a one-dimensional array of length 0, the
    numeric view has 0 rows of 3 columns, and both filters return empty
    arrays instead of raising. *)
Theorem file_without_data_loads_empty :
  forall (fs : filesystem) (fname : string) (raw : text) (values : list text),
    fs fname = Some raw ->
    forallb is_ignored (skipn 1 (readlines (universal_newlines raw))) = true ->
    exists d,
      Data_init fs fname = Ok d /\
      sdata d = mk_ndarray (Struct datatypes) [0%nat] [] /\
      udata d = mk_ndarray (Plain i8) [0%nat; 3%nat] [] /\
      len (udata d) = Ok 0%nat /\
      outcome (filter_sdata_by_tag values) d
      = Ok (mk_ndarray (Struct datatypes) [0%nat] []) /\
      outcome (filter_sdata_by_col [Fields_value ABS]) d
      = Ok (mk_ndarray (Struct [(Fields_value ABS, i8)]) [0%nat] []).
Proof.
  intros fs fname raw values Hfs Hign.
  assert (E : collect_rows COMMA 1 raw = [])
    by (rewrite collect_rows_lines; now apply no_rows).
  assert (El : loaded raw = mk_ndarray (Struct datatypes) [0%nat] [])
    by (unfold loaded; now rewrite E).
  eexists. split.
  - apply (Data_init_iff _ _ _ Hfs). split; [|reflexivity].
    unfold loadable. now rewrite E.
  - cbn [sdata udata]. rewrite El. repeat split.
Qed.

Lemma file_without_data_loads_empty_witness :
  exists d,
    Data_init (only header_only_file) "data.csv" = Ok d /\
    sdata d = mk_ndarray (Struct datatypes) [0%nat] [] /\
    udata d = mk_ndarray (Plain i8) [0%nat; 3%nat] [] /\
    len (udata d) = Ok 0%nat /\
    outcome (filter_sdata_by_tag [Tags_value PFOO]) d
    = Ok (mk_ndarray (Struct datatypes) [0%nat] []) /\
    outcome (filter_sdata_by_col [Fields_value ABS]) d
    = Ok (mk_ndarray (Struct [(Fields_value ABS, i8)]) [0%nat] []).
Proof.
  apply (@file_without_data_loads_empty (only header_only_file) "data.csv"
           header_only_file [Tags_value PFOO]); reflexivity.
Defined.

(** ** Integers out of range *)

Opaque loose_call.

Lemma convert_row_overflow_any (r : list text) :
  row_overflows r = true ->
  convert_row (firstn (length r) (map snd datatypes)) r = Raise OverflowError.
Proof.
  unfold row_overflows, convert_row.
  destruct r as [|f1 [|f2 [|f3 rest]]]; simpl; try discriminate.
  - rewrite orb_false_r. intros O1.
    now rewrite (loose_call_i8_overflow _ O1).
  - rewrite orb_false_r.
    destruct (overflows f1) eqn:O1;
      [now rewrite (loose_call_i8_overflow _ O1)|rewrite (loose_call_i8 _ O1)].
    simpl. intros O2. now rewrite (loose_call_i8_overflow _ O2).
  - rewrite orb_false_r.
    destruct (overflows f1) eqn:O1;
      [now rewrite (loose_call_i8_overflow _ O1)|rewrite (loose_call_i8 _ O1)].
    destruct (overflows f2) eqn:O2;
      [now rewrite (loose_call_i8_overflow _ O2)|rewrite (loose_call_i8 _ O2)].
    simpl. intros O3. now rewrite (loose_call_i8_overflow _ O3).
Qed.

Transparent loose_call.

(** The load of a file with an integer out of range among rows of one
    number of values. *)
Lemma load_overflow :
  forall (fs : filesystem) (fname : string) (raw : text) (r : list text),
    fs fname = Some raw ->
    (forall r', In r' (collect_rows COMMA 1 raw) ->
                length r' = length (hd [] (collect_rows COMMA 1 raw))) ->
    In r (collect_rows COMMA 1 raw) ->
    row_overflows r = true ->
    Data_init fs fname = Raise OverflowError.
Proof.
  intros fs fname raw r Hfs Hu Hr Ho.
  unfold Data_init, genfromtxt, datasource_open. rewrite Hfs. cbn [bind].
  set (rows := collect_rows COMMA 1 raw) in *.
  assert (Hf : forallb (fun values =>
                 (length values =? length (hd [] rows))%nat) rows = true).
  { apply forallb_forall. intros x Hx. apply Nat.eqb_eq. now apply Hu. }
  rewrite Hf.
  destruct (mapM (convert_row (firstn (length (hd [] rows))
                                      (map snd datatypes))) rows)
    as [rows'|e] eqn:Hc.
  - apply mapM_Ok_inv in Hc.
    destruct (@Forall2_pick _ _ _ _ _ r Hc Hr) as [vs [_ Hvs]].
    rewrite <- (Hu r Hr) in Hvs.
    rewrite (convert_row_overflow_any _ Ho) in Hvs. discriminate.
  - apply mapM_Raise_inv in Hc. destruct Hc as [x [_ Hx]].
    apply convert_row_raises in Hx. now subst e.
Qed.

(** X7. An integer out of the 64-bit range makes the load fail: when the
    rows of a file have one number of values and one of the first three
    values of some row is an integer literal below -2^63 or above 2^63-1,
    the load raises [OverflowError]. *)
Theorem integer_out_of_range_fails :
  forall (fs : filesystem) (fname : string) (raw : text) (r : list text),
    fs fname = Some raw ->
    (forall r', In r' (collect_rows COMMA 1 raw) ->
                length r' = length (hd [] (collect_rows COMMA 1 raw))) ->
    In r (collect_rows COMMA 1 raw) ->
    row_overflows r = true ->
    Data_init fs fname = Raise OverflowError.
Proof. exact load_overflow. Qed.

Lemma integer_out_of_range_fails_witness :
  Data_init (only overflow_file) "data.csv" = Raise OverflowError.
Proof.
  apply (@integer_out_of_range_fails (only overflow_file) "data.csv"
           overflow_file
           [txt "4"; txt "9223372036854775808"; txt "6"; txt "u"]).
  - reflexivity.
  - intros r' Hr'. vm_compute in Hr'.
    destruct Hr' as [<-|[<-|[]]]; reflexivity.
  - vm_compute. right. left. reflexivity.
  - vm_compute. reflexivity.
Defined.

(** ** The outcome of a load, case by case *)

Opaque loose_call.

(** A row without an integer out of range goes through the converters,
    whatever its length. *)
Lemma convert_row_no_overflow (r : list text) :
  row_overflows r = false ->
  exists vs, convert_row (firstn (length r) (map snd datatypes)) r = Ok vs.
Proof.
  intros Ho.
  destruct (Nat.lt_ge_cases (length r) 4) as [Hlt|Hge].
  - revert Ho. unfold row_overflows, convert_row.
    destruct r as [|f1 [|f2 [|f3 [|f4 rest]]]]; simpl in Hlt; try lia; simpl.
    + eauto.
    + rewrite orb_false_r. intros O1. rewrite (loose_call_i8 _ O1).
      simpl. eauto.
    + rewrite orb_false_r, orb_false_iff. intros [O1 O2].
      rewrite (loose_call_i8 _ O1), (loose_call_i8 _ O2). simpl. eauto.
    + rewrite orb_false_r, !orb_false_iff. intros [O1 [O2 O3]].
      rewrite (loose_call_i8 _ O1), (loose_call_i8 _ O2),
        (loose_call_i8 _ O3).
      simpl. eauto.
  - exists (converted r). now apply convert_row_wide.
Qed.

Transparent loose_call.

(** An [OverflowError] of the load comes from an integer out of range. *)
Lemma genfromtxt_overflow_inv (fs : filesystem) (fname : string) (raw : text) :
  fs fname = Some raw ->
  genfromtxt fs fname datatypes COMMA 1 = Raise OverflowError ->
  exists r, In r (collect_rows COMMA 1 raw) /\ row_overflows r = true.
Proof.
  intros Hfs H. unfold genfromtxt, datasource_open in H. rewrite Hfs in H.
  cbn [bind] in H.
  set (rows := collect_rows COMMA 1 raw) in *.
  destruct (forallb _ rows) eqn:Hu; [|discriminate].
  rewrite forallb_forall in Hu.
  destruct (mapM _ rows) as [rows'|e] eqn:Hc; simpl in H.
  - unfold np_array in H.
    destruct (mapM _ rows') as [els|e'] eqn:Hs; simpl in H; [discriminate|].
    injection H as ->. apply mapM_Raise_inv in Hs.
    destruct Hs as [vs [_ Hs]].
    destruct (store_fields datatypes vs) eqn:E; [discriminate|].
    simpl in Hs. injection Hs as ->.
    apply store_fields_raises in E. discriminate.
  - apply mapM_Raise_inv in Hc. destruct Hc as [r [Hr Hx]].
    exists r. split; [assumption|].
    pose proof (Hu r Hr) as Hn. apply Nat.eqb_eq in Hn. rewrite <- Hn in Hx.
    destruct (row_overflows r) eqn:Ho; [reflexivity|].
    destruct (convert_row_no_overflow _ Ho) as [vs Hvs]. congruence.
Qed.

Lemma forallb_map {A B : Type} (f : B -> bool) (g : A -> B) (l : list A) :
  forallb f (map g l) = forallb (fun x => f (g x)) l.
Proof.
  induction l as [|x t IH]; simpl; [reflexivity|]. now rewrite IH.
Qed.

Lemma existsb_map {A B : Type} (f : B -> bool) (g : A -> B) (l : list A) :
  existsb f (map g l) = existsb (fun x => f (g x)) l.
Proof.
  induction l as [|x t IH]; simpl; [reflexivity|]. now rewrite IH.
Qed.

Lemma ragged_rows (raw : text) :
  ragged raw
  = negb (forallb (fun r => (length r
                             =? length (hd [] (collect_rows COMMA 1 raw)))%nat)
                  (collect_rows COMMA 1 raw)).
Proof.
  unfold ragged. rewrite collect_rows_data_lines, forallb_map.
  destruct (data_lines raw) as [|l t]; reflexivity.
Qed.

(** X6. The outcome of the load of a file that can be read is decided by
    its data lines.  When they do not all have the number of values of the
    first, the load raises [ValueError]; otherwise, when one of them has
    an integer out of the 64-bit range among its first three values, it
    raises [OverflowError]; otherwise, when they have fewer than four
    values, it raises [ValueError]; otherwise it returns the dataset of
    one record per data line and its numeric view.  So such a load raises
    nothing but [ValueError] and [OverflowError]. *)
Theorem load_outcome :
  forall (fs : filesystem) (fname : string) (raw : text),
    fs fname = Some raw ->
    Data_init fs fname
    = if ragged raw then Raise ValueError
      else if overflowing raw then Raise OverflowError
      else if narrow raw then Raise ValueError
      else
        let a := squeeze (mk_ndarray (Struct datatypes)
                            [length (data_lines raw)]
                            (map (fun line => record_of (values_of line))
                                 (data_lines raw))) in
        Ok (mk_Data fname a (numeric_view a)).
Proof.
  intros fs fname raw Hfs.
  pose proof (ragged_rows raw) as Hrag.
  destruct (ragged raw).
  - unfold Data_init, genfromtxt, datasource_open. rewrite Hfs. cbn [bind].
    apply (f_equal negb) in Hrag. rewrite negb_involutive in Hrag.
    cbn [negb] in Hrag. now rewrite <- Hrag.
  - apply (f_equal negb) in Hrag. rewrite negb_involutive in Hrag.
    cbn [negb] in Hrag. symmetry in Hrag. rewrite forallb_forall in Hrag.
    assert (Hu : forall r, In r (collect_rows COMMA 1 raw) ->
                 length r = length (hd [] (collect_rows COMMA 1 raw))).
    { intros r Hr. apply Nat.eqb_eq. now apply Hrag. }
    destruct (overflowing raw) eqn:Hov.
    + unfold overflowing in Hov. apply existsb_exists in Hov.
      destruct Hov as [line [Hin Ho]].
      apply (@load_overflow fs fname raw (values_of line) Hfs Hu);
        [|assumption].
      rewrite collect_rows_data_lines. now apply in_map.
    + assert (Hno : forall r, In r (collect_rows COMMA 1 raw) ->
                    row_overflows r = false).
      { intros r Hr. rewrite collect_rows_data_lines in Hr.
        apply in_map_iff in Hr. destruct Hr as [line [<- Hin]].
        unfold overflowing in Hov.
        destruct (row_overflows (values_of line)) eqn:E; [|reflexivity].
        rewrite <- Hov. symmetry. apply existsb_exists. eauto. }
      destruct (narrow raw) eqn:Hna.
      * unfold narrow in Hna. apply existsb_exists in Hna.
        destruct Hna as [line [Hin Hlt]]. apply Nat.ltb_lt in Hlt.
        assert (Hr : In (values_of line) (collect_rows COMMA 1 raw))
          by (rewrite collect_rows_data_lines; now apply in_map).
        destruct (Data_init fs fname) as [d|e] eqn:Hd.
        -- apply (Data_init_iff _ _ d Hfs) in Hd. destruct Hd as [Hl _].
           rewrite loadable_spec in Hl. specialize (Hl _ Hr). lia.
        -- destruct (Data_init_raises _ _ Hfs Hd) as [->| ->]; [reflexivity|].
           exfalso.
           assert (Hg : genfromtxt fs fname datatypes COMMA 1
                        = Raise OverflowError).
           { unfold Data_init in Hd.
             destruct (genfromtxt fs fname datatypes COMMA 1) as [a|e] eqn:Hg.
             - pose proof (genfromtxt_Ok_loadable _ _ Hfs Hg) as Hl.
               rewrite loadable_spec in Hl. specialize (Hl _ Hr). lia.
             - simpl in Hd. congruence. }
           destruct (genfromtxt_overflow_inv _ _ Hfs Hg) as [r [Hin' Ho]].
           rewrite (Hno r Hin') in Ho. discriminate.
      * cbv zeta. rewrite <- loaded_data_lines.
        apply (Data_init_iff _ _ _ Hfs). split; [|reflexivity].
        apply loadable_spec. intros r Hr.
        split; [now apply Hu|]. split; [|now apply Hno].
        rewrite collect_rows_data_lines in Hr.
        apply in_map_iff in Hr. destruct Hr as [line [<- Hin]].
        unfold narrow in Hna.
        destruct (Nat.ltb_spec (length (values_of line)) 4) as [Hlt|Hge];
          [|assumption].
        exfalso. apply not_true_iff_false in Hna. apply Hna.
        apply existsb_exists. exists line. split; [assumption|].
        now apply Nat.ltb_lt.
Qed.

Lemma load_outcome_witness :
  Data_init (only short_row_file) "data.csv" = Raise ValueError /\
  Data_init (only overflow_file) "data.csv" = Raise OverflowError /\
  Data_init (only (unlines [header_line; txt "1,2"; txt "x,4"])) "data.csv"
  = Raise ValueError /\
  Data_init (only nonnumeric_file) "data.csv"
  = Ok (mk_Data "data.csv" (loaded nonnumeric_file)
                (numeric_view (loaded nonnumeric_file))).
Proof.
  split; [|split; [|split]].
  - rewrite (@load_outcome (only short_row_file) "data.csv" short_row_file
               eq_refl).
    vm_compute. reflexivity.
  - rewrite (@load_outcome (only overflow_file) "data.csv" overflow_file
               eq_refl).
    vm_compute. reflexivity.
  - rewrite (@load_outcome
               (only (unlines [header_line; txt "1,2"; txt "x,4"]))
               "data.csv" (unlines [header_line; txt "1,2"; txt "x,4"])
               eq_refl).
    vm_compute. reflexivity.
  - rewrite (@load_outcome (only nonnumeric_file) "data.csv" nonnumeric_file
               eq_refl).
    vm_compute. reflexivity.
Defined.

(** ** What a loaded dataset always is *)

Lemma int_or_default_in_range (f : text) :
  overflows f = false -> in_int64 (int_or_default f) = true.
Proof.
  unfold overflows, int_or_default.
  destruct (py_int f) as [z|]; [|reflexivity].
  now destruct (in_int64 z).
Qed.

Lemma record_of_stored (r : list text) :
  (4 <= length r)%nat -> row_overflows r = false ->
  stored_record (record_of r).
Proof.
  destruct r as [|f1 [|f2 [|f3 [|f4 rest]]]]; simpl; try lia.
  intros _. unfold row_overflows. simpl. rewrite !orb_false_iff.
  intros [O1 [O2 [O3 _]]].
  exists (int_or_default f1), (int_or_default f2), (int_or_default f3),
         (rstrip_nul (firstn 25 f4)).
  split; [reflexivity|].
  repeat split; try (now apply int_or_default_in_range).
  apply stored_tag_length.
Qed.

Lemma flat_map_length_const {A B : Type} (g : A -> list B) (k : nat)
  (l : list A) :
  (forall x, In x l -> length (g x) = k) ->
  length (flat_map g l) = (k * length l)%nat.
Proof.
  induction l as [|a t IH]; intros H; simpl; [lia|].
  rewrite length_app, (H a (or_introl eq_refl)), IH; [lia|].
  intros x Hx. apply H. now right.
Qed.

(** X8. The invariant of a loaded dataset.  Its records have the four
    fields abs, rel, del, tag; every record holds three integers within
    the 64-bit range and a tag of at most 25 characters; the array of the
    records is zero-dimensional for one record and a vector otherwise; the
    numeric view is an integer array of the shape of the records with a
    last axis of length 3, and holds three numbers per record. *)
Theorem loaded_dataset_invariant :
  forall (fs : filesystem) (fname : string) (d : Data),
    Data_init fs fname = Ok d ->
    filename d = fname /\
    dt (sdata d) = Struct datatypes /\
    Forall stored_record (data (sdata d)) /\
    shape (sdata d)
    = (if (length (data (sdata d)) =? 1)%nat then []
       else [length (data (sdata d))]) /\
    dt (udata d) = Plain i8 /\
    shape (udata d) = shape (sdata d) ++ [3%nat] /\
    length (data (udata d)) = (3 * length (data (sdata d)))%nat.
Proof.
  intros fs fname d H. apply Data_init_inv in H.
  destruct H as [raw [_ [Hl ->]]]. cbn [filename sdata udata].
  rewrite loadable_spec in Hl.
  split; [reflexivity|]. split; [reflexivity|]. split.
  - rewrite loaded_data. apply Forall_forall. intros e He.
    apply in_map_iff in He. destruct He as [r [<- Hr]].
    destruct (Hl r Hr) as [_ [H4 Ho]]. now apply record_of_stored.
  - split.
    + rewrite loaded_shape, loaded_data, length_map. reflexivity.
    + split; [reflexivity|]. split; [reflexivity|].
      unfold numeric_view. cbn [data].
      rewrite loaded_data, !map_map, flat_map_over_map.
      rewrite (@flat_map_length_const _ _ _ 3%nat);
        [now rewrite length_map|reflexivity].
Qed.

Lemma loaded_dataset_invariant_witness :
  filename (mk_Data "data.csv" (loaded example_file)
                    (numeric_view (loaded example_file))) = "data.csv"%string /\
  dt (loaded example_file) = Struct datatypes /\
  Forall stored_record (data (loaded example_file)) /\
  shape (loaded example_file)
  = (if (length (data (loaded example_file)) =? 1)%nat then []
     else [length (data (loaded example_file))]) /\
  dt (numeric_view (loaded example_file)) = Plain i8 /\
  shape (numeric_view (loaded example_file))
  = shape (loaded example_file) ++ [3%nat] /\
  length (data (numeric_view (loaded example_file)))
  = (3 * length (data (loaded example_file)))%nat.
Proof.
  apply (@loaded_dataset_invariant (only example_file) "data.csv"
           (mk_Data "data.csv" (loaded example_file)
                    (numeric_view (loaded example_file)))).
  vm_compute. reflexivity.
Defined.

(** * Further properties of the filters *)

(** ** The tag values as a set *)

Lemma existsb_members {A : Type} (f : A -> bool) (l l' : list A) :
  (forall v, In v l <-> In v l') -> existsb f l = existsb f l'.
Proof.
  intros H. apply eq_true_iff_eq. rewrite !existsb_exists.
  split; intros [x [Hx Hf]]; exists x; split; try assumption; now apply H.
Qed.

(** X9. The filter by tag takes its values as a set: two lists of values
    with the same members, in whatever order and however often repeated,
    give the same outcome on every dataset. *)
Theorem tag_filter_depends_on_members :
  forall (d : Data) (values values' : list text),
    (forall v, In v values <-> In v values') ->
    outcome (filter_sdata_by_tag values) d
    = outcome (filter_sdata_by_tag values') d.
Proof.
  intros d values values' H. unfold outcome, filter_sdata_by_tag. cbn [fst].
  destruct (getitem_field (sdata d) (Fields_value TAG)) as [tags|e];
    [|reflexivity].
  cbn [bind]. f_equal. unfold in1d. f_equal.
  apply map_ext. intros e. do 2 f_equal. now apply existsb_members.
Qed.

Lemma tag_filter_depends_on_members_witness :
  outcome (filter_sdata_by_tag [Tags_value PFOO; Tags_value NFOO])
          (mk_Data "data.csv" (loaded example_file)
                   (numeric_view (loaded example_file)))
  = outcome (filter_sdata_by_tag
               [Tags_value NFOO; Tags_value PFOO; Tags_value NFOO])
            (mk_Data "data.csv" (loaded example_file)
                     (numeric_view (loaded example_file))).
Proof.
  apply tag_filter_depends_on_members.
  intros v. simpl. tauto.
Defined.

(** ** Tags longer than the field *)

Lemma text_eqb_eq (a b : text) : text_eqb a b = true -> a = b.
Proof.
  unfold text_eqb. now destruct (list_eq_dec ascii_dec a b).
Qed.

Lemma filter_none {A : Type} (p : A -> bool) (l : list A) :
  (forall x, In x l -> p x = false) -> filter p l = [].
Proof.
  induction l as [|a t IH]; intros H; [reflexivity|].
  simpl. rewrite (H a (or_introl eq_refl)). apply IH.
  intros x Hx. apply H. now right.
Qed.

Lemma stored_record_tag (e : elem) :
  stored_record e -> (length (tag_of e) <= 25)%nat.
Proof.
  intros [a [r [d [t [-> [_ [_ [_ H]]]]]]]]. exact H.
Qed.

Lemma loaded_records_stored (raw : text) :
  loadable raw = true -> Forall stored_record (data (loaded raw)).
Proof.
  intros Hl. rewrite loadable_spec in Hl.
  rewrite loaded_data. apply Forall_forall. intros e He.
  apply in_map_iff in He. destruct He as [r [<- Hr]].
  destruct (Hl r Hr) as [_ [H4 Ho]]. now apply record_of_stored.
Qed.

(** X10. No record is found by a value of more than 25 characters, its
    trailing NULs not counted: the tags are stored cut to 25 characters
    and compared as they are stored, so on a dataset of other than one
    record the filter by such values is empty, also for a row whose tag
    was written with exactly that value. *)
Theorem longer_tags_never_match :
  forall (fs : filesystem) (fname : string) (d : Data) (values : list text),
    Data_init fs fname = Ok d ->
    length (data (sdata d)) <> 1%nat ->
    (forall v, In v values -> (25 < length (rstrip_nul v))%nat) ->
    outcome (filter_sdata_by_tag values) d
    = Ok (mk_ndarray (Struct datatypes) [0%nat] []).
Proof.
  intros fs fname d values H Hn Hv.
  rewrite (filter_by_tag_vector _ _ values H Hn).
  apply Data_init_inv in H. destruct H as [raw [_ [Hl ->]]].
  cbn [sdata] in *.
  pose proof (loaded_records_stored _ Hl) as Hs.
  rewrite Forall_forall in Hs.
  rewrite filter_none; [reflexivity|].
  intros e He. unfold tag_in.
  destruct (existsb (str_eqb (tag_of e)) values) eqn:E; [|reflexivity].
  apply existsb_exists in E. destruct E as [v [Hin Heq]].
  apply text_eqb_eq in Heq.
  pose proof (stored_record_tag (Hs e He)) as Hlen.
  pose proof (rstrip_length (Ascii.eqb NUL) (tag_of e)) as Hr.
  specialize (Hv v Hin). unfold rstrip_nul in *. rewrite <- Heq in Hv. lia.
Qed.

Lemma longer_tags_never_match_witness :
  outcome (filter_sdata_by_tag [txt "abcdefghijklmnopqrstuvwxyz0123"])
          (mk_Data "data.csv" (loaded long_tag_file)
                   (numeric_view (loaded long_tag_file)))
  = Ok (mk_ndarray (Struct datatypes) [0%nat] []).
Proof.
  apply (@longer_tags_never_match (only long_tag_file) "data.csv").
  - vm_compute. reflexivity.
  - vm_compute. discriminate.
  - intros v [<-|[]]. vm_compute. lia.
Defined.

(** ** Column names: repeated, and none *)

Lemma existsb_eqb_string_inv (n : string) (seen : list string) :
  existsb (String.eqb n) seen = false -> ~ In n seen.
Proof.
  induction seen as [|x t IH]; simpl; [tauto|].
  rewrite orb_false_iff. intros [Hx Ht] [->|Hin]; [|now apply IH].
  now rewrite String.eqb_refl in Hx.
Qed.

Lemma field_subset_repeated (names : list string) :
  forall seen,
    (forall n, In n names -> known_field n) ->
    ~ (NoDup names /\ forall n, In n names -> ~ In n seen) ->
    field_subset datatypes names seen = Raise ValueError.
Proof.
  induction names as [|n rest IH]; intros seen Hk Hbad.
  - exfalso. apply Hbad. split; [constructor|intros n []].
  - cbn [field_subset].
    pose proof (Hk n (or_introl eq_refl)) as Hn.
    apply known_field_spec in Hn.
    destruct (lookup_field n datatypes) as [[i b]|] eqn:E;
      [|apply lookup_field_None in E; contradiction].
    destruct (existsb (String.eqb n) seen) eqn:Es; [reflexivity|].
    rewrite IH; [reflexivity| |].
    + intros m Hm. apply Hk. now right.
    + intros [Hnd Hdis]. apply Hbad.
      assert (Hns : ~ In n seen) by (now apply existsb_eqb_string_inv).
      split.
      * constructor; [|assumption].
        intros Hin. apply (Hdis n Hin). now left.
      * intros m [<-|Hm]; [assumption|].
        intros Hin. apply (Hdis m Hm). now right.
Qed.

(** X11. A column name given twice makes the filter by column fail: on a
    loaded dataset, a list of names of the four fields that holds a name
    more than once raises [ValueError]. *)
Theorem repeated_column_name_fails :
  forall (fs : filesystem) (fname : string) (d : Data) (names : list string),
    Data_init fs fname = Ok d ->
    (forall n, In n names -> known_field n) ->
    ~ NoDup names ->
    outcome (filter_sdata_by_col names) d = Raise ValueError.
Proof.
  intros fs fname d names H Hk Hnd. apply Data_init_inv in H.
  destruct H as [raw [_ [_ ->]]].
  unfold outcome, filter_sdata_by_col. cbn [fst sdata].
  destruct names as [|n rest]; [exfalso; apply Hnd; constructor|].
  unfold getitem_fields. rewrite loaded_dt.
  rewrite (field_subset_repeated [] Hk); [reflexivity|].
  intros [Hnd' _]. contradiction.
Qed.

Lemma repeated_column_name_fails_witness :
  outcome (filter_sdata_by_col ["abs"; "rel"; "abs"]%string)
          (mk_Data "data.csv" (loaded example_file)
                   (numeric_view (loaded example_file)))
  = Raise ValueError.
Proof.
  apply (@repeated_column_name_fails (only example_file) "data.csv").
  - vm_compute. reflexivity.
  - intros n Hn. unfold known_field. simpl in Hn |- *.
    destruct Hn as [<-|[<-|[<-|[]]]]; tauto.
  - intros Hnd. inversion Hnd as [|x l Hx _]; subst.
    apply Hx. simpl. tauto.
Defined.

(** X12. The filter by column with no name at all: on a loaded dataset of
    other than one record it returns an empty array of the full records,
    and on a dataset of exactly one record it raises [IndexError]. *)
Theorem no_column_name :
  forall (fs : filesystem) (fname : string) (d : Data),
    Data_init fs fname = Ok d ->
    outcome (filter_sdata_by_col []) d
    = if (length (data (sdata d)) =? 1)%nat then Raise IndexError
      else Ok (mk_ndarray (Struct datatypes) [0%nat] []).
Proof.
  intros fs fname d H. apply Data_init_inv in H.
  destruct H as [raw [_ [_ ->]]].
  unfold outcome, filter_sdata_by_col, getitem_fields. cbn [fst sdata].
  rewrite loaded_shape, loaded_data, length_map.
  now destruct (length (collect_rows COMMA 1 raw) =? 1)%nat.
Qed.

Lemma no_column_name_witness :
  outcome (filter_sdata_by_col [])
          (mk_Data "data.csv" (loaded one_row_file)
                   (numeric_view (loaded one_row_file)))
  = if (length (data (loaded one_row_file)) =? 1)%nat then Raise IndexError
    else Ok (mk_ndarray (Struct datatypes) [0%nat] []).
Proof.
  apply (@no_column_name (only one_row_file) "data.csv").
  vm_compute. reflexivity.
Defined.

(** * The columns of the numeric view *)

Lemma flat_map_seq {A B : Type} (l : list A) :
  forall (h : nat -> list B) (h' : A -> list B),
    (forall i x, nth_error l i = Some x -> h i = h' x) ->
    flat_map h (seq 0 (length l)) = flat_map h' l.
Proof.
  induction l as [|a t IH]; intros h h' H; [reflexivity|].
  cbn [length seq flat_map]. rewrite (H O a eq_refl). f_equal.
  rewrite <- seq_shift, flat_map_over_map.
  apply IH. intros i x Hx. now apply (H (Datatypes.S i)).
Qed.

Lemma flat_map_single {A B : Type} (f : A -> B) (l : list A) :
  flat_map (fun x => [f x]) l = map f l.
Proof.
  induction l as [|a t IH]; simpl; [reflexivity|]. now rewrite IH.
Qed.

(** One entry of a piece of a flat list of pieces of length 3. *)
Lemma flat_map_entry {A B : Type} (g : A -> list B) (l : list A) (i j : nat)
  (x : A) :
  (forall y, In y l -> length (g y) = 3%nat) ->
  nth_error l i = Some x -> (j < 3)%nat ->
  firstn 1 (skipn (i * 3 + j) (flat_map g l)) = firstn 1 (skipn j (g x)).
Proof.
  intros Hg Hx Hj.
  rewrite <- (@flat_map_chunk _ _ g 3%nat l Hg i x Hx).
  rewrite (Nat.add_comm (i * 3) j), <- skipn_skipn.
  rewrite !firstn_skipn_comm, firstn_firstn.
  now replace (Nat.min (i * 3 + (j + 1)) (i * 3 + 3))
    with (i * 3 + (j + 1))%nat by lia.
Qed.

Lemma numeric_view_column (raw : text) (j : nat) (name : string) :
  length (collect_rows COMMA 1 raw) <> 1%nat ->
  (j < 3)%nat ->
  (forall r, firstn 1 (skipn j [ V (Int64 (int_or_default (nth 0 r [])));
                                 V (Int64 (int_or_default (nth 1 r [])));
                                 V (Int64 (int_or_default (nth 2 r []))) ])
             = [V (field_of name (record_of r))]) ->
  getitem_col (numeric_view (loaded raw)) j = Ok (column name (loaded raw)).
Proof.
  intros Hn Hj Hf. unfold getitem_col, numeric_view, column.
  cbn [shape dt data].
  rewrite loaded_shape, loaded_data, !length_map.
  destruct (Nat.eqb_spec (length (collect_rows COMMA 1 raw)) 1);
    [contradiction|].
  cbn [app fold_right Nat.mul]. rewrite (proj2 (Nat.ltb_lt _ _) Hj).
  do 2 f_equal.
  rewrite !map_map, flat_map_over_map, <- flat_map_single.
  apply flat_map_seq. intros i r Hr.
  rewrite (Nat.mul_1_r j).
  change (1 + (1 + (1 + 0)))%nat with 3%nat.
  rewrite (@flat_map_entry _ _
             (fun x => match take_fields [0; 1; 2]%nat (record_of x) with
                       | V v => [V v]
                       | T vs => map V vs
                       end)
             (collect_rows COMMA 1 raw) i j r);
    [apply Hf| |assumption|assumption].
  intros; reflexivity.
Qed.

(** The columns of the numeric view, by the number of records. *)
Lemma udata_columns :
  forall (fs : filesystem) (fname : string) (d : Data),
    Data_init fs fname = Ok d ->
    (length (data (sdata d)) <> 1%nat ->
     getitem_col (udata d) 0 = Ok (column "abs" (sdata d)) /\
     getitem_col (udata d) 1 = Ok (column "rel" (sdata d)) /\
     getitem_col (udata d) 2 = Ok (column "del" (sdata d)) /\
     forall j, (3 <= j)%nat -> getitem_col (udata d) j = Raise IndexError) /\
    (length (data (sdata d)) = 1%nat ->
     forall j, getitem_col (udata d) j = Raise IndexError).
Proof.
  intros fs fname d H. apply Data_init_inv in H.
  destruct H as [raw [_ [_ ->]]]. cbn [sdata udata].
  rewrite loaded_data, length_map. split.
  - intros Hn.
    split; [apply numeric_view_column; [assumption|lia|reflexivity]|].
    split; [apply numeric_view_column; [assumption|lia|reflexivity]|].
    split; [apply numeric_view_column; [assumption|lia|reflexivity]|].
    intros j Hj. unfold getitem_col, numeric_view. cbn [shape].
    rewrite loaded_shape.
    destruct (Nat.eqb_spec (length (collect_rows COMMA 1 raw)) 1);
      [contradiction|].
    cbn [app]. now rewrite (proj2 (Nat.ltb_ge _ _) Hj).
  - intros Hn j. unfold getitem_col, numeric_view. cbn [shape].
    now rewrite loaded_shape, Hn.
Qed.

(** In a loaded array the column of a name is the column of the field of
    that name. *)
Lemma column_loaded (raw : text) :
  column "abs" (loaded raw) = column_of ABS (loaded raw) /\
  column "rel" (loaded raw) = column_of REL (loaded raw) /\
  column "del" (loaded raw) = column_of DEL (loaded raw).
Proof.
  unfold column, column_of. rewrite loaded_data, !map_map. repeat split.
Qed.

(** X13. The columns of the numeric view are the numeric fields of the
    records.  On a loaded dataset of other than one record, [udata[:,0]],
    [udata[:,1]] and [udata[:,2]] are the vectors of the first, the second
    and the third entry of the records (abs, rel and del), in the order of
    the records, and a column index from 3 on raises [IndexError].  On a
    dataset of exactly one record every column index raises
    [IndexError]. *)
Theorem numeric_view_columns :
  forall (fs : filesystem) (fname : string) (d : Data),
    Data_init fs fname = Ok d ->
    (length (data (sdata d)) <> 1%nat ->
     getitem_col (udata d) 0 = Ok (column_of ABS (sdata d)) /\
     getitem_col (udata d) 1 = Ok (column_of REL (sdata d)) /\
     getitem_col (udata d) 2 = Ok (column_of DEL (sdata d)) /\
     forall j, (3 <= j)%nat -> getitem_col (udata d) j = Raise IndexError) /\
    (length (data (sdata d)) = 1%nat ->
     forall j, getitem_col (udata d) j = Raise IndexError).
Proof.
  intros fs fname d H.
  destruct (udata_columns _ _ H) as [Hv Hs]. split; [|exact Hs].
  intros Hn. destruct (Hv Hn) as [C0 [C1 [C2 C3]]].
  apply Data_init_inv in H. destruct H as [raw [_ [_ ->]]].
  cbn [sdata udata] in *.
  destruct (column_loaded raw) as [E0 [E1 E2]].
  rewrite <- E0, <- E1, <- E2. auto.
Qed.

Lemma numeric_view_columns_witness :
  getitem_col (numeric_view (loaded example_file)) 0
  = Ok (column_of ABS (loaded example_file)) /\
  getitem_col (numeric_view (loaded example_file)) 1
  = Ok (column_of REL (loaded example_file)) /\
  getitem_col (numeric_view (loaded example_file)) 2
  = Ok (column_of DEL (loaded example_file)) /\
  forall j, (3 <= j)%nat ->
            getitem_col (numeric_view (loaded example_file)) j
            = Raise IndexError.
Proof.
  assert (Hd : Data_init (only example_file) "data.csv"
               = Ok (mk_Data "data.csv" (loaded example_file)
                             (numeric_view (loaded example_file))))
    by (vm_compute; reflexivity).
  apply (proj1 (@numeric_view_columns (only example_file) "data.csv" _ Hd)).
  vm_compute. discriminate.
Defined.

(** * The tag constants *)






(** * Integer fields in decimal notation *)

Lemma isdigit_not_space (c : ascii) : isdigit c = true -> isspace c = false.
Proof.
  unfold isdigit, isspace. cbv zeta.
  rewrite andb_true_iff, !Nat.leb_le. intros [H1 H2].
  rewrite !orb_false_iff. repeat split.
  - apply andb_false_iff. right. apply Nat.leb_gt. lia.
  - apply Nat.eqb_neq. lia.
  - apply Nat.eqb_neq. lia.
  - apply Nat.eqb_neq. lia.
Qed.

Lemma strip_plain (s : text) :
  isspace (hd SP s) = false -> isspace (last s SP) = false ->
  strip isspace s = s.
Proof.
  intros Hh Hl. unfold strip, rstrip.
  assert (E1 : lstrip isspace s = s).
  { destruct s as [|x t]; [reflexivity|]. simpl in Hh |- *. now rewrite Hh. }
  rewrite E1.
  assert (E2 : lstrip isspace (rev s) = rev s).
  { destruct s as [|x t] using rev_ind; [reflexivity|].
    rewrite last_last in Hl. rewrite rev_app_distr. simpl. now rewrite Hl. }
  rewrite E2. apply rev_involutive.
Qed.

Lemma last_digit (ds : text) (d : ascii) :
  ds <> [] -> forallb isdigit ds = true -> isdigit (last ds d) = true.
Proof.
  intros Hne H. rewrite forallb_forall in H. apply H. now apply last_In.
Qed.

(** A run of digits with the value [v], and the same with a minus sign. *)
Lemma py_int_digits (ds : text) (v : Z) :
  ds <> [] -> forallb isdigit ds = true -> int_literal ds = Some v ->
  py_int ds = Some v /\ py_int ("-"%char :: ds) = Some (- v).
Proof.
  intros Hne Hd Hlit.
  pose proof (last_digit SP Hne Hd) as Hlast.
  destruct ds as [|c t] eqn:Eds; [congruence|]. rewrite <- Eds in *.
  assert (Hc : isdigit c = true).
  { rewrite Eds in Hd. cbn [forallb] in Hd. now apply andb_true_iff in Hd. }
  split.
  - unfold py_int. rewrite strip_plain.
    + rewrite Eds. rewrite <- Eds.
      destruct (Ascii.eqb_spec c "-"%char) as [->|_]; [discriminate|].
      destruct (Ascii.eqb_spec c "+"%char) as [->|_]; [discriminate|].
      exact Hlit.
    + rewrite Eds. simpl. now apply isdigit_not_space.
    + now apply isdigit_not_space.
  - unfold py_int. rewrite strip_plain.
    + rewrite Ascii.eqb_refl, Hlit. reflexivity.
    + reflexivity.
    + rewrite Eds. change (last ("-"%char :: c :: t) SP) with (last (c :: t) SP).
      rewrite <- Eds. now apply isdigit_not_space.
Qed.

Lemma digits_from_digit (acc : Z) (c : ascii) (t : text) :
  isdigit c = true ->
  digits_from acc (c :: t) = digits_from (10 * acc + digit_val c) t.
Proof. intros H. cbn [digits_from]. now rewrite H. Qed.

Ltac digit_value :=
  match goal with
  | |- context [digit_val ?c] =>
      let v := eval vm_compute in (digit_val c) in
      change (digit_val c) with v
  end.

(** The digits of the decimal notation, read after a number [p]. *)
Lemma digits_from_uint_acc (u : Decimal.uint) :
  forall p : positive,
    digits_from (Zpos p) (txt (DecimalString.NilEmpty.string_of_uint u))
    = Some (Zpos (Pos.of_uint_acc u p)).
Proof.
  induction u as [|u IH|u IH|u IH|u IH|u IH|u IH|u IH|u IH|u IH|u IH];
    intros p;
    cbn [DecimalString.NilEmpty.string_of_uint txt list_ascii_of_string
         Pos.of_uint_acc];
    [reflexivity|..];
    (rewrite digits_from_digit by reflexivity;
     rewrite <- IH; f_equal; digit_value; lia).
Qed.

Lemma digits_from_uint (u : Decimal.uint) :
  digits_from 0 (txt (DecimalString.NilEmpty.string_of_uint u))
  = Some (Z.of_N (Pos.of_uint u)).
Proof.
  induction u as [|u IH|u IH|u IH|u IH|u IH|u IH|u IH|u IH|u IH|u IH];
    cbn [DecimalString.NilEmpty.string_of_uint txt list_ascii_of_string
         Pos.of_uint];
    [reflexivity|rewrite digits_from_digit by reflexivity; exact IH|..];
    (rewrite digits_from_digit by reflexivity;
     digit_value; cbn [Z.of_N];
     rewrite <- digits_from_uint_acc; reflexivity).
Qed.

Lemma uint_digits (u : Decimal.uint) :
  forallb isdigit (txt (DecimalString.NilEmpty.string_of_uint u)) = true.
Proof.
  unfold txt.
  induction u as [|u IH|u IH|u IH|u IH|u IH|u IH|u IH|u IH|u IH|u IH];
    cbn [DecimalString.NilEmpty.string_of_uint list_ascii_of_string forallb];
    [reflexivity|..]; rewrite IH; reflexivity.
Qed.

Lemma uint_text_not_nil (u : Decimal.uint) :
  u <> Decimal.Nil -> txt (DecimalString.NilEmpty.string_of_uint u) <> [].
Proof. destruct u; [congruence|..]; discriminate. Qed.

Lemma int_literal_uint (u : Decimal.uint) :
  u <> Decimal.Nil ->
  int_literal (txt (DecimalString.NilEmpty.string_of_uint u))
  = Some (Z.of_N (Pos.of_uint u)).
Proof.
  intros Hne. rewrite <- digits_from_uint.
  destruct u; [congruence|..]; reflexivity.
Qed.

Lemma decimal_pos (p : positive) :
  decimal (Zpos p)
  = txt (DecimalString.NilEmpty.string_of_uint (Pos.to_uint p)) /\
  decimal (Zneg p)
  = "-"%char :: txt (DecimalString.NilEmpty.string_of_uint (Pos.to_uint p)).
Proof.
  unfold decimal. cbn [Z.to_int DecimalString.NilZero.string_of_int].
  pose proof (DecimalPos.Unsigned.to_uint_nonnil p) as Hne.
  destruct (Pos.to_uint p); [congruence|..]; split; reflexivity.
Qed.

(** The decimal notation of an integer is read as that integer. *)
Lemma py_int_decimal (z : Z) : py_int (decimal z) = Some z.
Proof.
  destruct z as [|p|p]; [reflexivity|..];
    destruct (decimal_pos p) as [Ep En];
    pose proof (DecimalPos.Unsigned.to_uint_nonnil p) as Hne;
    pose proof (int_literal_uint Hne) as Hlit;
    rewrite DecimalPos.Unsigned.of_to in Hlit; cbn [Z.of_N] in Hlit;
    destruct (py_int_digits (uint_text_not_nil Hne) (uint_digits _) Hlit)
      as [H1 H2].
  - now rewrite Ep.
  - now rewrite En.
Qed.

Lemma decimal_chars (z : Z) (c : ascii) :
  In c (decimal z) -> isdigit c = true \/ c = "-"%char.
Proof.
  assert (Hu : forall u, In c (txt (DecimalString.NilEmpty.string_of_uint u))
                         -> isdigit c = true).
  { intros u Hin. pose proof (uint_digits u) as H.
    rewrite forallb_forall in H. now apply H. }
  destruct z as [|p|p].
  - intros [<-|[]]. now left.
  - rewrite (proj1 (decimal_pos p)). intros H. left. now apply (Hu _ H).
  - rewrite (proj2 (decimal_pos p)). intros [<-|H]; [now right|].
    left. now apply (Hu _ H).
Qed.

Lemma decimal_without (z : Z) (c : ascii) :
  isdigit c = false -> c <> "-"%char -> ~ In c (decimal z).
Proof.
  intros Hd Hm Hin. destruct (decimal_chars _ _ Hin); congruence.
Qed.

Lemma is_int64_decimal (z : Z) : in_int64 z = true -> is_int64 (decimal z) = true.
Proof.
  intros H. apply is_int64_spec. exists z. split; [apply py_int_decimal|exact H].
Qed.

Lemma int_or_default_decimal (z : Z) : int_or_default (decimal z) = z.
Proof. unfold int_or_default. now rewrite py_int_decimal. Qed.

(** *** Rows written and read back *)

Lemma rstrip_unchanged (p : ascii -> bool) (s : text) (d : ascii) :
  p (last s d) = false -> rstrip p s = s.
Proof.
  destruct s as [|x t] using rev_ind; [reflexivity|].
  rewrite last_last. intros Hx. unfold rstrip.
  rewrite rev_app_distr. simpl. rewrite Hx. simpl.
  now rewrite rev_involutive.
Qed.

Lemma clean_tag_spec (t : text) :
  clean_tag t = true ->
  (length t <= 25)%nat /\
  ~ In COMMA t /\ ~ In HASH t /\ ~ In LF t /\ ~ In CR t /\
  strip_chars (last t COMMA) = false /\
  Ascii.eqb NUL (last t COMMA) = false.
Proof.
  unfold clean_tag. rewrite !andb_true_iff, !negb_true_iff, Nat.leb_le.
  intros [[[Hlen Hall] Hsp] Hnul].
  rewrite forallb_forall in Hall.
  assert (Hno : forall c, In c t ->
            Ascii.eqb c COMMA = false /\ Ascii.eqb c HASH = false /\
            Ascii.eqb c LF = false /\ Ascii.eqb c CR = false).
  { intros c Hc. specialize (Hall c Hc).
    rewrite negb_true_iff, !orb_false_iff in Hall. tauto. }
  assert (Hout : forall c, In c t ->
            c <> COMMA /\ c <> HASH /\ c <> LF /\ c <> CR).
  { intros c Hc. destruct (Hno c Hc) as [H1 [H2 [H3 H4]]].
    repeat split; intros ->; discriminate. }
  split; [assumption|].
  split; [intros H; now destruct (Hout _ H) as [? _]|].
  split; [intros H; now destruct (Hout _ H) as [_ [? _]]|].
  split; [intros H; now destruct (Hout _ H) as [_ [_ [? _]]]|].
  split; [intros H; now destruct (Hout _ H) as [_ [_ [_ ?]]]|].
  split.
  - unfold strip_chars. rewrite Hsp. cbn [orb].
    destruct t as [|x t'] eqn:Et; [reflexivity|]. rewrite <- Et in *.
    assert (Hin : In (last t COMMA) t)
      by (apply last_In; rewrite Et; discriminate).
    destruct (Hno _ Hin) as [_ [_ [H3 H4]]]. now rewrite H3, H4.
  - rewrite Ascii.eqb_sym. exact Hnul.
Qed.

Lemma split_write_row (r : written_row) :
  ~ In COMMA (w_tag r) ->
  split COMMA (write_row r)
  = [decimal (w_abs r); decimal (w_rel r); decimal (w_del r); w_tag r].
Proof.
  intros Ht. unfold write_row.
  rewrite !split_app by (apply decimal_without; [reflexivity|discriminate]).
  now rewrite split_absent.
Qed.

Lemma write_row_without (r : written_row) (c : ascii) :
  isdigit c = false -> c <> "-"%char -> c <> COMMA -> ~ In c (w_tag r) ->
  ~ In c (write_row r).
Proof.
  intros Hd Hm Hc Ht. unfold write_row.
  repeat (rewrite in_app_iff; cbn [In]).
  pose proof (fun z => @decimal_without z c Hd Hm) as Hz.
  intros [H|[H|[H|[H|[H|[H|H]]]]]];
    try (now apply (Hz _ H)); try congruence; contradiction.
Qed.

Lemma well_formed_write_row (r : written_row) :
  fits r = true -> well_formed (write_row r) = true.
Proof.
  unfold fits. rewrite !andb_true_iff. intros [[[Ha Hr] Hd] Ht].
  destruct (clean_tag_spec _ Ht) as [_ [Hc [_ [Hlf [Hcr _]]]]].
  unfold well_formed. rewrite (split_write_row _ Hc).
  rewrite !is_int64_decimal by assumption. rewrite andb_true_r.
  apply one_line_spec.
  split; apply write_row_without; try assumption; try reflexivity;
    discriminate.
Qed.

Lemma record_of_write_row (r : written_row) :
  fits r = true -> record_of_line (write_row r) = record_of_row r.
Proof.
  unfold fits. rewrite !andb_true_iff. intros [_ Ht].
  destruct (clean_tag_spec _ Ht) as [Hlen [Hc [Hh [_ [_ [Hs Hn]]]]]].
  unfold record_of_line, record_of_row. rewrite (split_write_row _ Hc).
  cbn [nth]. rewrite !int_or_default_decimal.
  rewrite (before_absent _ _ Hh).
  rewrite (rstrip_unchanged strip_chars _ COMMA Hs).
  rewrite firstn_all2 by assumption.
  unfold rstrip_nul. now rewrite (rstrip_unchanged _ _ COMMA Hn).
Qed.

(** X15. Rows written in decimal notation are read back as they are: a
    file of the header line and, for each row, the line of the decimal
    notations of its three integers and its tag, separated by commas,
    loads as the array of exactly these rows when the integers are of 64
    bits and the tags are clean (at most 25 characters, no comma, comment
    character or line end, no space or NUL at the end). *)
Theorem written_rows_are_read_back :
  forall (fs : filesystem) (fname : string) (rows : list written_row)
         (final_newline : bool),
    fs fname
    = Some (file_text (header_line :: map write_row rows) final_newline) ->
    forallb fits rows = true ->
    exists d,
      Data_init fs fname = Ok d /\
      sdata d = squeeze (mk_ndarray (Struct datatypes) [length rows]
                                    (map record_of_row rows)).
Proof.
  intros fs fname rows final_newline Hfs Hfit.
  rewrite forallb_forall in Hfit.
  assert (Hwf : forallb well_formed (map write_row rows) = true).
  { apply forallb_forall. intros l Hl. apply in_map_iff in Hl.
    destruct Hl as [r [<- Hr]]. apply well_formed_write_row. now apply Hfit. }
  destruct (@load_of_well_formed_lines _ _ _ _ _ Hfs eq_refl Hwf)
    as [d [Hd Hs]].
  exists d. split; [assumption|].
  rewrite Hs, length_map, map_map. do 2 f_equal.
  apply map_ext_in. intros r Hr. apply record_of_write_row. now apply Hfit.
Qed.

Lemma written_rows_are_read_back_witness :
  exists d,
    Data_init
      (only (file_text
               (header_line
                :: map write_row
                     [ mk_row 1 (-2) 300 (txt "x y");
                       mk_row 0 9223372036854775807 (-9223372036854775808)
                              (Tags_value PFOO) ])
               true))
      "data.csv" = Ok d /\
    sdata d
    = squeeze (mk_ndarray (Struct datatypes)
                 [length [ mk_row 1 (-2) 300 (txt "x y");
                           mk_row 0 9223372036854775807
                                  (-9223372036854775808) (Tags_value PFOO) ]]
                 (map record_of_row
                      [ mk_row 1 (-2) 300 (txt "x y");
                        mk_row 0 9223372036854775807 (-9223372036854775808)
                               (Tags_value PFOO) ])).
Proof.
  apply (@written_rows_are_read_back _ "data.csv"
           [ mk_row 1 (-2) 300 (txt "x y");
             mk_row 0 9223372036854775807 (-9223372036854775808)
                    (Tags_value PFOO) ]
           true).
  - reflexivity.
  - vm_compute. reflexivity.
Defined.

(** * The caller *)

Section CallerProperties.

Variable array_str : ndarray -> text.

Lemma io_bind_lift_Ok {A B : Type} (a : A) (k : A -> io B) :
  io_bind (lift (Ok a)) k = k a.
Proof. unfold io_bind, lift. now destruct (k a). Qed.

Lemma io_bind_lift_Raise {A B : Type} (e : exn) (k : A -> io B) :
  io_bind (lift (Raise e)) k = ([], Raise e).
Proof. reflexivity. Qed.

(** The column abs alone, as the filter by column returns it. *)
Lemma filter_by_abs (fs : filesystem) (fname : string) (d : Data) :
  Data_init fs fname = Ok d ->
  outcome (filter_sdata_by_col [Fields_value ABS]) d
  = Ok (mk_ndarray (Struct [(Fields_value ABS, i8)]) (shape (sdata d))
                   (map (take_fields [0%nat]) (data (sdata d)))).
Proof.
  intros H. apply Data_init_inv in H. destruct H as [raw [_ [_ ->]]].
  unfold outcome, filter_sdata_by_col, getitem_fields. cbn [fst sdata].
  now rewrite loaded_dt.
Qed.

(** The run of [main] on a dataset of one record. *)
Lemma main_run_single :
  forall (fs : filesystem) (fname : string) (d : Data),
    Data_init fs fname = Ok d ->
    length (data (sdata d)) = 1%nat ->
    exists by_col,
      outcome (filter_sdata_by_col [Fields_value ABS]) d = Ok by_col /\
      main array_str fs fname
      = ([ print (Data_str array_str d);
           print (txt "apply filter by column:" ++ [LF] ++ array_str by_col
                  ++ [LF; LF]) ],
         Raise IndexError).
Proof.
  intros fs fname d Hd Hn. eexists. split; [exact (filter_by_abs _ _ Hd)|].
  unfold main. rewrite Hd, io_bind_lift_Ok.
  rewrite (filter_by_abs _ _ Hd).
  cbn [self_after snd filter_sdata_by_col].
  rewrite (filter_by_tag_scalar _ _ [Tags_value PFOO; Tags_value NFOO] Hd Hn).
  reflexivity.
Qed.

(** X16. On a file of exactly one data row [main] stops before it draws:
    it prints the dataset and the column abs, then the filter by tag
    raises [IndexError], and no call into the plotting library is made. *)
Theorem main_stops_on_single_record :
  forall (fs : filesystem) (fname : string) (d : Data),
    Data_init fs fname = Ok d ->
    length (data (sdata d)) = 1%nat ->
    exists by_col,
      outcome (filter_sdata_by_col [Fields_value ABS]) d = Ok by_col /\
      main array_str fs fname
      = ([ print (Data_str array_str d);
           print (txt "apply filter by column:" ++ [LF] ++ array_str by_col
                  ++ [LF; LF]) ],
         Raise IndexError).
Proof. exact main_run_single. Qed.

(** The run of [main] on a dataset of other than one record. *)
Lemma main_run_vector :
  forall (fs : filesystem) (fname : string) (d : Data),
    Data_init fs fname = Ok d ->
    length (data (sdata d)) <> 1%nat ->
    exists by_col by_tag,
      outcome (filter_sdata_by_col [Fields_value ABS]) d = Ok by_col /\
      outcome (filter_sdata_by_tag [Tags_value PFOO; Tags_value NFOO]) d
      = Ok by_tag /\
      main array_str fs fname
      = ([ print (Data_str array_str d);
           print (txt "apply filter by column:" ++ [LF] ++ array_str by_col
                  ++ [LF; LF]);
           print (txt "apply filter by tag:" ++ [LF] ++ array_str by_tag
                  ++ [LF; LF]);
           subplots 1 2 (8, 4)%nat;
           set_title 0 "A line plot";
           grid 0 true;
           plot 0 (column "abs" (sdata d)) (column "rel" (sdata d))
                [("c", PStr "g"); ("marker", PStr "o")]%string;
           plot 0 (column "abs" (sdata d)) (column "del" (sdata d))
                [("c", PStr "b"); ("marker", PStr ".")]%string;
           set_title 1 "A scatter plot";
           grid 1 true;
           scatter 1 (column "abs" (sdata d)) (column "rel" (sdata d))
                   [("c", PArr (column "abs" (sdata d)));
                    ("cmap", PStr "RdYlGn_r"); ("marker", PStr "2")]%string;
           scatter 1 (column "abs" (sdata d)) (column "del" (sdata d))
                   [("c", PArr (column "abs" (sdata d)));
                    ("cmap", PStr "plasma"); ("marker", PStr "1")]%string;
           show ],
         Ok tt) /\
      shape (column "abs" (sdata d)) = [length (data (sdata d))] /\
      shape (column "rel" (sdata d)) = [length (data (sdata d))] /\
      shape (column "del" (sdata d)) = [length (data (sdata d))].
Proof.
  intros fs fname d Hd Hn.
  destruct (proj1 (udata_columns _ _ Hd) Hn) as [C0 [C1 [C2 _]]].
  eexists. eexists.
  split; [exact (filter_by_abs _ _ Hd)|].
  split; [exact (filter_by_tag_vector _ _ _ Hd Hn)|].
  split; [|repeat split].
  unfold main. rewrite Hd, io_bind_lift_Ok.
  rewrite (filter_by_abs _ _ Hd).
  cbn [self_after snd filter_sdata_by_col filter_sdata_by_tag].
  rewrite (filter_by_tag_vector _ _ [Tags_value PFOO; Tags_value NFOO] Hd Hn).
  rewrite C0, C1, C2.
  reflexivity.
Qed.

(** X17. On a file of other than one data row that loads, [main] runs to
    its end.  It prints the dataset, the column abs and the rows tagged
    [++foo] or [--foo]; on the first axes it draws rel against abs and del
    against abs as lines; on the second it draws the same two pairs as
    scatter plots coloured by abs; then it shows the figure.  Every series
    handed to the plotting library is a whole column of the numeric view,
    so the two series of a plot have the same length. *)
Theorem main_draws_the_columns :
  forall (fs : filesystem) (fname : string) (d : Data),
    Data_init fs fname = Ok d ->
    length (data (sdata d)) <> 1%nat ->
    exists by_col by_tag,
      outcome (filter_sdata_by_col [Fields_value ABS]) d = Ok by_col /\
      outcome (filter_sdata_by_tag [Tags_value PFOO; Tags_value NFOO]) d
      = Ok by_tag /\
      main array_str fs fname
      = ([ print (Data_str array_str d);
           print (txt "apply filter by column:" ++ [LF] ++ array_str by_col
                  ++ [LF; LF]);
           print (txt "apply filter by tag:" ++ [LF] ++ array_str by_tag
                  ++ [LF; LF]);
           subplots 1 2 (8, 4)%nat;
           set_title 0 "A line plot";
           grid 0 true;
           plot 0 (column "abs" (sdata d)) (column "rel" (sdata d))
                [("c", PStr "g"); ("marker", PStr "o")]%string;
           plot 0 (column "abs" (sdata d)) (column "del" (sdata d))
                [("c", PStr "b"); ("marker", PStr ".")]%string;
           set_title 1 "A scatter plot";
           grid 1 true;
           scatter 1 (column "abs" (sdata d)) (column "rel" (sdata d))
                   [("c", PArr (column "abs" (sdata d)));
                    ("cmap", PStr "RdYlGn_r"); ("marker", PStr "2")]%string;
           scatter 1 (column "abs" (sdata d)) (column "del" (sdata d))
                   [("c", PArr (column "abs" (sdata d)));
                    ("cmap", PStr "plasma"); ("marker", PStr "1")]%string;
           show ],
         Ok tt) /\
      shape (column "abs" (sdata d)) = [length (data (sdata d))] /\
      shape (column "rel" (sdata d)) = [length (data (sdata d))] /\
      shape (column "del" (sdata d)) = [length (data (sdata d))].
Proof. exact main_run_vector. Qed.

(** X18. [main] draws all or nothing: either the file loads as a dataset of
    other than one record and [main] runs to its end, or [main] raises and
    has made no call into the plotting library. *)
Theorem main_draws_all_or_nothing :
  forall (fs : filesystem) (fname : string),
    (exists d, Data_init fs fname = Ok d /\
               length (data (sdata d)) <> 1%nat /\
               snd (main array_str fs fname) = Ok tt /\
               length (filter is_drawing (fst (main array_str fs fname)))
               = 10%nat) \/
    (exists e, snd (main array_str fs fname) = Raise e /\
               filter is_drawing (fst (main array_str fs fname)) = []).
Proof.
  intros fs fname.
  destruct (Data_init fs fname) as [d|e] eqn:Hd.
  - destruct (Nat.eq_dec (length (data (sdata d))) 1) as [Hn|Hn].
    + right. exists IndexError.
      destruct (main_run_single _ _ Hd Hn) as [c [_ ->]].
      split; reflexivity.
    + left. exists d.
      destruct (main_run_vector _ _ Hd Hn) as [c [t [_ [_ [-> _]]]]].
      repeat split; assumption.
  - right. exists e. unfold main. rewrite Hd. split; reflexivity.
Qed.

End CallerProperties.

Lemma main_stops_on_single_record_witness :
  exists by_col,
    outcome (filter_sdata_by_col [Fields_value ABS])
            (mk_Data "data.csv" (loaded one_row_file)
                     (numeric_view (loaded one_row_file))) = Ok by_col /\
    main (fun _ => []) (only one_row_file) "data.csv"
    = ([ print (Data_str (fun _ => [])
                  (mk_Data "data.csv" (loaded one_row_file)
                           (numeric_view (loaded one_row_file))));
         print (txt "apply filter by column:" ++ [LF] ++ [] ++ [LF; LF]) ],
       Raise IndexError).
Proof.
  apply (@main_stops_on_single_record (fun _ => []) (only one_row_file)
           "data.csv").
  - vm_compute. reflexivity.
  - reflexivity.
Defined.

Lemma main_draws_the_columns_witness :
  snd (main (fun _ => []) (only example_file) "data.csv") = Ok tt.
Proof.
  assert (Hd : Data_init (only example_file) "data.csv"
               = Ok (mk_Data "data.csv" (loaded example_file)
                             (numeric_view (loaded example_file))))
    by (vm_compute; reflexivity).
  assert (Hn : length (data (loaded example_file)) <> 1%nat)
    by (vm_compute; discriminate).
  destruct (@main_draws_the_columns (fun _ => []) (only example_file)
              "data.csv" _ Hd Hn) as [c [t [_ [_ [E _]]]]].
  rewrite E. reflexivity.
Defined.
